(** * nm_evals: name evaluation for CF terminology management

    A shallow embedding of the Python sources
    ([name_eval_system.py], [real_person_name_verifier.py],
    [english_to_korean_evaluator.py], [korean_to_english_evaluator.py],
    [korean_name_evaluator.py], [teamwork_integration.py],
    [korean_name_cli.py]) and the properties of the specification that
    are stated about them.

    One Rocq module per Python module; functions keep their Python
    names.  Text is a list of Unicode code points, Python values are a
    tagged union, raising is an explicit [Raise] outcome, and calls that
    leave the process (the language model, the Teamwork REST service)
    are answered by an oracle that sees the trace of earlier calls. *)

From Stdlib Require Import String Ascii ZArith NArith Bool Lia List.
Import ListNotations.

Set Implicit Arguments.
Open Scope string_scope.
Open Scope list_scope.

(* ================================================================= *)
(** * Text *)

(** A Python [str] is a sequence of code points. *)
Definition char := N.
Definition str := list char.

(** ASCII literals of the sources. *)
Definition lit (s : string) : str := map N_of_ascii (list_ascii_of_string s).

Definition chr_eqb (a b : char) : bool := N.eqb a b.

Fixpoint str_eqb (a b : str) : bool :=
  match a, b with
  | [], [] => true
  | x :: a', y :: b' => chr_eqb x y && str_eqb a' b'
  | _, _ => false
  end.

(** ['가' <= char <= '힣']: the Hangul syllable block. *)
Definition is_hangul (c : char) : bool := (0xAC00 <=? c)%N && (c <=? 0xD7A3)%N.

Definition is_ascii (c : char) : bool := (c <? 128)%N.

Definition is_ascii_letter (c : char) : bool :=
  ((65 <=? c) && (c <=? 90) || (97 <=? c) && (c <=? 122))%N.

(** The Unicode character database outside ASCII and outside the Hangul
    syllable block is a parameter of the development: whitespace,
    digits, decimal values and case mappings of those characters are
    whatever the interpreter's tables say.  ASCII and Hangul syllables
    are fixed below ([py_isspace], [chr_isdigit], ...). *)
Class UnicodeTables : Type := {
  (** [str.isspace] of a one-character string *)
  uc_isspace : char -> bool;
  (** [str.isdigit] of a one-character string *)
  uc_isdigit : char -> bool;
  (** value of a decimal digit (category Nd), as accepted by [int] and
      matched by the pattern [\d] *)
  uc_decimal : char -> option N;
  (** [str.lower]: the lower-casing of the character at an index of a
      string (it may depend on the context, and may be several
      characters) *)
  uc_lower : str -> nat -> char -> str;
  (** [re.IGNORECASE]: does a subject character match a pattern letter *)
  uc_re_ieq : char -> char -> bool
}.

(** Tables in which every character outside ASCII is an ordinary
    caseless symbol; used to run the model on ASCII and Hangul text. *)
Definition plain_tables : UnicodeTables :=
  {| uc_isspace := fun _ => false;
     uc_isdigit := fun _ => false;
     uc_decimal := fun _ => None;
     uc_lower := fun _ _ c => [c];
     uc_re_ieq := fun p c => chr_eqb p c |}.

Section Text.
Context {U : UnicodeTables}.

(** ASCII white space of [str.isspace]: TAB..CR, FS..US and SPACE. *)
Definition ascii_isspace (c : char) : bool :=
  ((9 <=? c) && (c <=? 13) || (28 <=? c) && (c <=? 32))%N.

Definition py_isspace (c : char) : bool :=
  if is_ascii c then ascii_isspace c
  else if is_hangul c then false
  else uc_isspace c.

Definition ascii_isdigit (c : char) : bool := ((48 <=? c) && (c <=? 57))%N.

Definition chr_isdigit (c : char) : bool :=
  if is_ascii c then ascii_isdigit c
  else if is_hangul c then false
  else uc_isdigit c.

Definition chr_decimal (c : char) : option N :=
  if is_ascii c then (if ascii_isdigit c then Some (c - 48)%N else None)
  else if is_hangul c then None
  else uc_decimal c.

Definition ascii_lower (c : char) : char :=
  if ((65 <=? c) && (c <=? 90))%N then (c + 32)%N else c.

Fixpoint lower_from (whole : str) (i : nat) (s : str) : str :=
  match s with
  | [] => []
  | c :: s' =>
      (if is_ascii c then [ascii_lower c]
       else if is_hangul c then [c]
       else uc_lower whole i c) ++ lower_from whole (S i) s'
  end.

(** [s.lower()] *)
Definition py_lower (s : str) : str := lower_from s 0 s.

(** Truth value of a string: it is not empty. *)
Definition nonempty (s : str) : bool :=
  match s with [] => false | _ => true end.

(** [s.isdigit()]: non-empty and every character is a digit. *)
Definition py_isdigit (s : str) : bool :=
  match s with [] => false | _ => forallb chr_isdigit s end.

Fixpoint startswith (p s : str) : bool :=
  match p, s with
  | [], _ => true
  | x :: p', y :: s' => chr_eqb x y && startswith p' s'
  | _ :: _, [] => false
  end.

(** [needle in hay] *)
Fixpoint contains (needle hay : str) : bool :=
  startswith needle hay ||
  match hay with
  | [] => false
  | _ :: hay' => contains needle hay'
  end.

Definition endswith (p s : str) : bool := startswith (rev p) (rev s).

Fixpoint lstrip (s : str) : str :=
  match s with
  | c :: s' => if py_isspace c then lstrip s' else s
  | [] => []
  end.

Definition rstrip (s : str) : str := rev (lstrip (rev s)).

(** [s.strip()] *)
Definition strip (s : str) : str := rstrip (lstrip s).

Fixpoint lstrip_chr (x : char) (s : str) : str :=
  match s with
  | c :: s' => if chr_eqb c x then lstrip_chr x s' else s
  | [] => []
  end.

(** [s.rstrip(x)] for a one-character [x] *)
Definition rstrip_chr (x : char) (s : str) : str := rev (lstrip_chr x (rev s)).

(** [s.split(sep)] for a one-character separator: every occurrence
    splits, empty fields are kept. *)
Fixpoint split_on (sep : char) (s : str) : list str :=
  match s with
  | [] => [[]]
  | c :: s' =>
      if chr_eqb c sep then [] :: split_on sep s'
      else match split_on sep s' with
           | w :: ws => (c :: w) :: ws
           | [] => [[c]]
           end
  end.

(** [s.split(sep, 1)]: the text before the first separator and, when
    there is one, the text after it. *)
Fixpoint split_once (sep : char) (s : str) : str * option str :=
  match s with
  | [] => ([], None)
  | c :: s' =>
      if chr_eqb c sep then ([], Some s')
      else let '(a, b) := split_once sep s' in (c :: a, b)
  end.

(** [s.split()]: maximal runs of non-space characters. *)
Fixpoint split_ws_from (cur : str) (s : str) : list str :=
  match s with
  | [] => match cur with [] => [] | _ => [rev cur] end
  | c :: s' =>
      if py_isspace c
      then match cur with
           | [] => split_ws_from [] s'
           | _ => rev cur :: split_ws_from [] s'
           end
      else split_ws_from (c :: cur) s'
  end.

Definition split_ws (s : str) : list str := split_ws_from [] s.

(** Base-ten value of a run of decimal digits, most significant first. *)
Fixpoint digits_value (acc : N) (s : str) : option N :=
  match s with
  | [] => Some acc
  | c :: s' =>
      match chr_decimal c with
      | Some d => digits_value (10 * acc + d)%N s'
      | None => None
      end
  end.

End Text.

(* ================================================================= *)
(** * Outcomes of Python code *)

Inductive exn_class : Type :=
| ZeroDivisionError | ValueError | TypeError | AttributeError | KeyError
| JSONDecodeError | UnicodeEncodeError
| HTTPError | ConnectionError | OtherException.

(** A raised exception: its class and [str(e)].  Every class above
    derives from [Exception]. *)
Record exn : Type := { exn_kind : exn_class; exn_str : str }.

Inductive outcome (A : Type) : Type :=
| Return (a : A)
| Raise (e : exn).
Arguments Return {A} a.
Arguments Raise {A} e.

(** [int] of a [float]-free comparison [k / n > 0.2].

    [k / n] on integers is the correctly rounded binary64 quotient and
    [0.2] is the double [3602879701896397 / 2^54], whose significand is
    even; so the rounded quotient exceeds it exactly when the true
    quotient exceeds the midpoint to the next double,
    [14411518807585589 / 2^56].  Division by zero raises. *)
Definition truediv_gt_0_2 (k n : N) : outcome bool :=
  if (n =? 0)%N
  then Raise {| exn_kind := ZeroDivisionError; exn_str := lit "division by zero" |}
  else Return (14411518807585589 * n <? k * 2 ^ 56)%N.

Inductive lang : Type := ko | en.

(* ================================================================= *)
(** * Python values *)

(** The values that flow through result records: what [json.loads]
    can return and what the evaluators build.  A [float] is kept as its
    binary64 bit pattern; a [dict] keeps insertion order and has string
    keys. *)
#[warnings="-register-all"]
Inductive pyval : Type :=
| PNone
| PBool (b : bool)
| PInt (z : Z)
| PFloat (bits : N)
| PStr (s : str)
| PList (l : list pyval)
| PDict (d : list (str * pyval)).

Definition dict := list (str * pyval).

(** Induction on values, with the property available for the items of
    a list and the values of a dictionary. *)
Section PyvalInduction.
Variable P : pyval -> Prop.
Hypothesis HNone : P PNone.
Hypothesis HBool : forall b, P (PBool b).
Hypothesis HInt : forall z, P (PInt z).
Hypothesis HFloat : forall bits, P (PFloat bits).
Hypothesis HStr : forall s, P (PStr s).
Hypothesis HList : forall l, Forall P l -> P (PList l).
Hypothesis HDict : forall d, Forall (fun kv => P (snd kv)) d -> P (PDict d).

Fixpoint pyval_induction (v : pyval) : P v :=
  match v with
  | PNone => HNone
  | PBool b => HBool b
  | PInt z => HInt z
  | PFloat bits => HFloat bits
  | PStr s => HStr s
  | PList l =>
      HList ((fix items (l : list pyval) : Forall P l :=
                match l with
                | [] => Forall_nil P
                | x :: l' => Forall_cons x (pyval_induction x) (items l')
                end) l)
  | PDict d =>
      HDict ((fix pairs (d : list (str * pyval))
                : Forall (fun kv => P (snd kv)) d :=
                match d with
                | [] => Forall_nil _
                | kv :: d' =>
                    Forall_cons kv
                      (match kv return P (snd kv) with
                       | (_, x) => pyval_induction x
                       end)
                      (pairs d')
                end) d)
  end.

End PyvalInduction.

(** [d.get(k)] on a dict: [None] of Rocq when the key is absent. *)
Fixpoint dict_find (d : dict) (k : str) : option pyval :=
  match d with
  | [] => None
  | (k', v) :: d' => if str_eqb k' k then Some v else dict_find d' k
  end.

(** [d.get(k, default)] *)
Definition dict_get (d : dict) (k : str) (default : pyval) : pyval :=
  match dict_find d k with Some v => v | None => default end.

(** [d[k] = v]: an existing key keeps its place, a new key goes last. *)
Fixpoint dict_set (d : dict) (k : str) (v : pyval) : dict :=
  match d with
  | [] => [(k, v)]
  | (k', v') :: d' =>
      if str_eqb k' k then (k', v) :: d' else (k', v') :: dict_set d' k v
  end.

(** [d.update(new)] *)
Definition dict_update (d new : dict) : dict :=
  fold_left (fun acc kv => dict_set acc (fst kv) (snd kv)) new d.

(** [k in d] *)
Definition dict_has (d : dict) (k : str) : bool :=
  match dict_find d k with Some _ => true | None => false end.

(** Truth value of an object ([if v:], [bool(v)], [not v]). *)
Definition truthy (v : pyval) : bool :=
  match v with
  | PNone => false
  | PBool b => b
  | PInt z => negb (z =? 0)%Z
  | PFloat bits => negb ((bits =? 0) || (bits =? 2 ^ 63))%N
  | PStr s => match s with [] => false | _ => true end
  | PList l => match l with [] => false | _ => true end
  | PDict d => match d with [] => false | _ => true end
  end.

Definition mk_exn (k : exn_class) (msg : string) : exn :=
  {| exn_kind := k; exn_str := lit msg |}.

(** [v.get(k, default)] on an arbitrary object: only a dict has [get]. *)
Definition py_get (v : pyval) (k : str) (default : pyval) : outcome pyval :=
  match v with
  | PDict d => Return (dict_get d k default)
  | _ => Raise (mk_exn AttributeError "object has no attribute 'get'")
  end.

(** [for x in v]: the items a loop over [v] visits. *)
Definition py_iter (v : pyval) : outcome (list pyval) :=
  match v with
  | PList l => Return l
  | PDict d => Return (map (fun kv => PStr (fst kv)) d)
  | PStr s => Return (map (fun c => PStr [c]) s)
  | _ => Raise (mk_exn TypeError "object is not iterable")
  end.

(** [needle in v] for a string [needle]. *)
Definition py_in `{UnicodeTables} (needle : str) (v : pyval) : outcome bool :=
  match v with
  | PStr s => Return (contains needle s)
  | PList l =>
      Return (existsb (fun x => match x with
                                | PStr s => str_eqb s needle
                                | _ => false
                                end) l)
  | PDict d => Return (dict_has d needle)
  | _ => Raise (mk_exn TypeError "argument is not iterable")
  end.

(** [v[k]] for a string key *)
Definition py_getitem (v : pyval) (k : str) : outcome pyval :=
  match v with
  | PDict d =>
      match dict_find d k with
      | Some x => Return x
      | None => Raise {| exn_kind := KeyError; exn_str := lit "'" ++ k ++ lit "'" |}
      end
  | _ => Raise (mk_exn TypeError "object is not subscriptable by a string")
  end.

(** [v.lower()] *)
Definition py_lower_val `{UnicodeTables} (v : pyval) : outcome str :=
  match v with
  | PStr s => Return (py_lower s)
  | _ => Raise (mk_exn AttributeError "object has no attribute 'lower'")
  end.

(** [int(s)] for a string of [isdigit] characters or a match of [\d+]:
    the base-ten value when every character is a decimal digit, else
    [ValueError].  (The interpreter's optional cap on the number of
    digits, [sys.set_int_max_str_digits], is taken as switched off.) *)
Definition py_int `{UnicodeTables} (s : str) : outcome Z :=
  match s with
  | [] => Raise (mk_exn ValueError "invalid literal for int() with base 10")
  | _ =>
      match digits_value 0 s with
      | Some n => Return (Z.of_N n)
      | None => Raise (mk_exn ValueError "invalid literal for int() with base 10")
      end
  end.

(* ================================================================= *)
(** * Regular expressions ([re.search]) *)

(** The fragment of [re] used by the sources, with one capture group. *)
Inductive re : Type :=
| Eps
| Chr (p : char -> bool)
| Seq (a b : re)
| Alt (a b : re)
| Star (greedy : bool) (a : re)
| Group (a : re).

(** Backtracking matcher in continuation-passing style: [k] receives
    the unread text and the text captured by group 1, if any.  A
    repetition gives up an iteration that reads nothing. *)
Fixpoint re_run (A : Type) (r : re) (s : str) (cap : option str)
         (k : str -> option str -> option A) {struct r} : option A :=
  match r with
  | Eps => k s cap
  | Chr p =>
      match s with
      | c :: s' => if p c then k s' cap else None
      | [] => None
      end
  | Seq a b => re_run a s cap (fun s' cap' => re_run b s' cap' k)
  | Alt a b =>
      match re_run a s cap k with
      | Some x => Some x
      | None => re_run b s cap k
      end
  | Star greedy a =>
      (fix loop (fuel : nat) (s : str) (cap : option str) {struct fuel} : option A :=
         match fuel with
         | O => k s cap
         | S fuel' =>
             let again (_ : unit) :=
               re_run a s cap
                 (fun s' cap' =>
                    if (length s' <? length s)%nat then loop fuel' s' cap' else None) in
             if greedy
             then match again tt with Some x => Some x | None => k s cap end
             else match k s cap with Some x => Some x | None => again tt end
         end) (length s) s cap
  | Group a =>
      re_run a s cap
        (fun s' _ => k s' (Some (firstn (length s - length s') s)))
  end.

(** [re.search(r, s)]: the leftmost match; the result is group 1. *)
Fixpoint re_search (r : re) (s : str) : option (option str) :=
  match re_run r s None (fun _ cap => Some cap) with
  | Some cap => Some cap
  | None =>
      match s with
      | [] => None
      | _ :: s' => re_search r s'
      end
  end.

(** A literal, matched as written. *)
Definition re_lit (s : string) : re :=
  fold_right (fun c r => Seq (Chr (chr_eqb c)) r) Eps (lit s).

Definition re_plus (a : re) : re := Seq a (Star true a).
Definition re_opt (a : re) : re := Alt a Eps.

Section RegexClasses.
Context {U : UnicodeTables}.

(** [\s] and [\d] on [str] patterns *)
Definition re_space : re := Chr py_isspace.
Definition re_digit : re :=
  Chr (fun c => match chr_decimal c with Some _ => true | None => false end).

(** A pattern character under [re.IGNORECASE]: a letter matches
    whatever lower-cases to it, other characters match themselves. *)
Definition re_ieq (p c : char) : bool :=
  if is_ascii_letter p
  then if is_ascii c then chr_eqb (ascii_lower p) (ascii_lower c)
       else if is_hangul c then false
       else uc_re_ieq (ascii_lower p) c
  else chr_eqb p c.

Definition re_ilit (s : string) : re :=
  fold_right (fun c r => Seq (Chr (re_ieq c)) r) Eps (lit s).

End RegexClasses.

(* ================================================================= *)
(** * The outside world *)

(** One invocation of a LangChain chain: which chain, and the template
    variables it is invoked with. *)
Record llm_call : Type := { chain : string; variables : list (string * str) }.

(** What a structured-output chain hands back: a Pydantic model (its
    fields), or some other object. *)
Inductive chain_value : Type :=
| Model (fields : dict)
| Plain (v : pyval).

(** The URLs requested from the Teamwork service. *)
Inductive endpoint : Type :=
| ProjectsJson (base_url : str) (status : str)
| ProjectTasksJson (base_url : str) (project_id : pyval)
| DirectProjectsJson.

(** A [requests.Response]: the status code and the result of [.json()]. *)
Record response : Type := { status_code : Z; json : outcome pyval }.

Inductive event : Type :=
| Llm (c : llm_call)
| HttpGet (e : endpoint)
| WriteJson (path : str) (v : pyval)
| WriteReport (path : str) (results : list pyval)
| WriteTermbase (path : str) (results : list pyval)
| Makedirs (path : str)
| SetupMonitoring
| TraceEvaluation (evaluator_name : string) (result : pyval)
| PostEvaluation (name : pyval) (result : pyval) (project_id : str).

Definition trace := list event.

(** Everything the process does not control.  Each oracle sees the
    events that happened before the call, so the same request may be
    answered differently at different times. *)
Class Outside : Type := {
  (** a chain ending in [StrOutputParser], or a chat model's [.content] *)
  llm_text : trace -> llm_call -> outcome str;
  (** a chain built by [create_structured_output_chain] *)
  llm_structured : trace -> llm_call -> outcome chain_value;
  (** [requests.get] *)
  requests_get : trace -> endpoint -> outcome response;
  (** an effect without a result: creating the directory and writing a
      file, sending a trace to LangSmith, posting to Teamwork *)
  perform : trace -> event -> outcome unit;
  (** reading a file of names: its lines *)
  read_lines : trace -> str -> outcome (list str);
  (** the [try: from langsmith_integration import ...] at import time *)
  LANGSMITH_AVAILABLE : bool;
  (** how many of the local resource files exist *)
  available_local_resources : nat;
  (** [int(sum(scores) / len(scores))]: the floating-point mean is
      left to the interpreter *)
  mean_score : list pyval -> outcome Z;
  (** constructing [ChatOpenAI] from the configured model name and
      temperature *)
  openai_client : outcome unit;
  (** [os.environ.get] *)
  environ : string -> option str;
  (** the [try: from teamwork_integration import ...] at import time *)
  TEAMWORK_AVAILABLE : bool;
  (** [str(v)], as an f-string formats a value *)
  format_value : pyval -> str
}.

(** Computations: a trace in, an outcome and the extended trace out. *)
Definition M (A : Type) : Type := trace -> outcome A * trace.

Definition ret {A} (a : A) : M A := fun t => (Return a, t).
Definition raise {A} (e : exn) : M A := fun t => (Raise e, t).
Definition lift {A} (o : outcome A) : M A := fun t => (o, t).

Definition bind {A B} (m : M A) (k : A -> M B) : M B :=
  fun t =>
    match m t with
    | (Return a, t') => k a t'
    | (Raise e, t') => (Raise e, t')
    end.

(** [try: m  except Exception as e: handler e] *)
Definition try_except {A} (m : M A) (handler : exn -> M A) : M A :=
  fun t =>
    match m t with
    | (Return a, t') => (Return a, t')
    | (Raise e, t') => handler e t'
    end.

Declare Scope py_scope.
Delimit Scope py_scope with py.
Notation "x <- m ;; k" := (bind m (fun x => k))
  (at level 61, m at next level, right associativity) : py_scope.
Notation "m ;;; k" := (bind m (fun _ => k))
  (at level 61, right associativity) : py_scope.
Open Scope py_scope.

(** The same for code without outside calls. *)
Definition obind {A B} (o : outcome A) (k : A -> outcome B) : outcome B :=
  match o with
  | Return a => k a
  | Raise e => Raise e
  end.
Notation "x <~ o ;; k" := (obind o (fun x => k))
  (at level 61, o at next level, right associativity) : py_scope.

Fixpoint omap {A B} (f : A -> outcome B) (l : list A) : outcome (list B) :=
  match l with
  | [] => Return []
  | a :: l' => b <~ f a ;; bs <~ omap f l' ;; Return (b :: bs)
  end.

Section Calls.
Context {W : Outside}.

Definition invoke_text (c : llm_call) : M str :=
  fun t => (llm_text t c, t ++ [Llm c]).

Definition invoke_structured (c : llm_call) : M chain_value :=
  fun t => (llm_structured t c, t ++ [Llm c]).

Definition http_get (e : endpoint) : M response :=
  fun t => (requests_get t e, t ++ [HttpGet e]).

Definition write (ev : event) : M unit :=
  fun t => (perform t ev, t ++ [ev]).

Definition environ_truthy (k : string) : bool :=
  match environ k with
  | Some (_ :: _) => true
  | _ => false
  end.

End Calls.

(* ================================================================= *)
(** * teamwork_integration.py *)

Module teamwork_integration.
Section WithWorld.
Context {U : UnicodeTables} {W : Outside}.

Record TeamworkClient : Type := { api_key : str; domain : str }.

Definition base_url (c : TeamworkClient) : str :=
  lit "https://" ++ domain c ++ lit ".teamwork.com".

(** [TeamworkClient()] *)
Definition TeamworkClient_init : outcome TeamworkClient :=
  let key := environ "TEAMWORK_API_KEY" in
  let dom := match environ "TEAMWORK_DOMAIN" with
             | Some d => d
             | None => lit "cultureflipper"
             end in
  match key with
  | Some (c :: k) => Return {| api_key := c :: k; domain := dom |}
  | _ => Raise (mk_exn ValueError "Teamwork API key is required.")
  end.

(** [Response.raise_for_status] of the requests library: an [HTTPError]
    for client and server errors, nothing otherwise. *)
Definition raise_for_status (r : response) : outcome unit :=
  if ((400 <=? status_code r) && (status_code r <? 600))%Z
  then Raise (mk_exn HTTPError "Client or Server Error")
  else Return tt.

Definition get_projects (c : TeamworkClient) (status : str) : M pyval :=
  r <- http_get (ProjectsJson (base_url c) status) ;;
  if (status_code r =? 200)%Z
  then lift (body <~ json r ;; py_get body (lit "projects") (PList []))
  else lift (raise_for_status r) ;;; ret PNone.

Definition get_tasks_by_project (c : TeamworkClient) (project_id : pyval) : M pyval :=
  r <- http_get (ProjectTasksJson (base_url c) project_id) ;;
  if (status_code r =? 200)%Z
  then lift (body <~ json r ;; py_get body (lit "todo-items") (PList []))
  else lift (raise_for_status r) ;;; ret PNone.

(** [task[k] = v] *)
Definition py_setitem (obj : pyval) (k : str) (v : pyval) : outcome pyval :=
  match obj with
  | PDict d => Return (PDict (dict_set d k v))
  | _ => Raise (mk_exn TypeError "object does not support item assignment")
  end.

(** One turn of the inner loop of [search_tasks]: the task to keep, if
    it mentions the query. *)
Definition match_task (query_lower : str) (project task : pyval)
  : outcome (option pyval) :=
  cv <~ py_get task (lit "content") (PStr []) ;;
  content <~ py_lower_val cv ;;
  dv <~ py_get task (lit "description") (PStr []) ;;
  description <~ py_lower_val dv ;;
  if contains query_lower content || contains query_lower description
  then pname <~ py_get project (lit "name") PNone ;;
       task' <~ py_setitem task (lit "projectName") pname ;;
       Return (Some task')
  else Return None.

Fixpoint filter_tasks (query_lower : str) (project : pyval) (tasks : list pyval)
  : outcome (list pyval) :=
  match tasks with
  | [] => Return []
  | task :: rest =>
      m <~ match_task query_lower project task ;;
      ms <~ filter_tasks query_lower project rest ;;
      Return (match m with Some t => t :: ms | None => ms end)
  end.

(** The body of the [try] inside [search_tasks], for one project. *)
Definition project_matches (c : TeamworkClient) (query : str)
           (project project_id : pyval) : M (list pyval) :=
  tasks <- get_tasks_by_project c project_id ;;
  lift (items <~ py_iter tasks ;; filter_tasks (py_lower query) project items).

Fixpoint search_projects (c : TeamworkClient) (query : str)
         (projects : list pyval) (all_matching_tasks : list pyval)
  : M (list pyval) :=
  match projects with
  | [] => ret all_matching_tasks
  | project :: rest =>
      project_id <- lift (py_get project (lit "id") PNone) ;;
      found <- try_except (project_matches c query project project_id)
                          (fun _ => ret []) ;;
      search_projects c query rest (all_matching_tasks ++ found)
  end.

Definition search_tasks (c : TeamworkClient) (query : str) : M (list pyval) :=
  projects <- get_projects c (lit "active") ;;
  items <- lift (py_iter projects) ;;
  search_projects c query items [].

(** The record built for one matching task in [search_name_in_teamwork]. *)
Definition format_task (c : TeamworkClient) (task : pyval) : outcome pyval :=
  task_id <~ py_get task (lit "id") PNone ;;
  project_id <~ py_get task (lit "projectId") PNone ;;
  project_name <~ py_get task (lit "projectName") (PStr (lit "Unknown Project")) ;;
  content <~ py_get task (lit "content") (PStr []) ;;
  description <~ py_get task (lit "description") (PStr []) ;;
  created_date <~ py_get task (lit "created-date") (PStr []) ;;
  created_on <~ py_get task (lit "created-on") created_date ;;
  Return (PDict
    [ (lit "id", task_id);
      (lit "content", content);
      (lit "description", description);
      (lit "projectId", project_id);
      (lit "projectName", project_name);
      (lit "url", PStr (base_url c ++ lit "/tasks/" ++ format_value task_id));
      (lit "created-on", created_on) ]).

Definition search_name_in_teamwork (name : str) : M (list pyval) :=
  try_except
    (c <- lift TeamworkClient_init ;;
     tasks <- search_tasks c name ;;
     lift (omap (format_task c) tasks))
    (fun e => raise e).

(** The test and the record of the loop in [get_previous_evaluations]. *)
Definition evaluation_of_task (task : pyval) : outcome (option pyval) :=
  task_name <~ py_get task (lit "content") (PStr []) ;;
  marked <~ py_in (lit "Name Evaluation:") task_name ;;
  is_eval <~ (if marked then Return true
              else low <~ py_lower_val task_name ;;
                   Return (contains (lit "name evaluation") low)) ;;
  if is_eval
  then id <~ py_get task (lit "id") PNone ;;
       pid <~ py_get task (lit "projectId") PNone ;;
       title <~ py_get task (lit "content") PNone ;;
       url <~ py_get task (lit "url") PNone ;;
       created <~ py_get task (lit "created-on") PNone ;;
       Return (Some (PDict
         [ (lit "task_id", id);
           (lit "project_id", pid);
           (lit "title", title);
           (lit "url", url);
           (lit "created_at", created) ]))
  else Return None.

Fixpoint collect_evaluations (tasks : list pyval) : outcome (list pyval) :=
  match tasks with
  | [] => Return []
  | task :: rest =>
      m <~ evaluation_of_task task ;;
      ms <~ collect_evaluations rest ;;
      Return (match m with Some r => r :: ms | None => ms end)
  end.

Definition get_previous_evaluations (name : str) : M (list pyval) :=
  search_results <- search_name_in_teamwork name ;;
  lift (collect_evaluations search_results).

Definition verification_status (results previous_evaluations : list pyval) : str :=
  match previous_evaluations, results with
  | _ :: _, _ => lit "Verified - multiple evaluations found"
  | [], _ :: _ => lit "Prior translations found - detailed verification needed"
  | [], [] => lit "Not found in Teamwork records"
  end.

(** The record returned when the verification raised. *)
Definition could_not_verify (name : str) (e : exn) : dict :=
  [ (lit "name", PStr name);
    (lit "found_in_teamwork", PBool false);
    (lit "error", PStr (exn_str e));
    (lit "verification_status", PStr (lit "Error - could not verify")) ].

Definition verify_name_in_teamwork (name : str) : M dict :=
  (* the direct check of the API key: its result is only printed *)
  try_except (http_get DirectProjectsJson ;;; ret tt) (fun _ => ret tt) ;;;
  try_except
    (results <- search_name_in_teamwork name ;;
     previous_evaluations <- get_previous_evaluations name ;;
     ret [ (lit "name", PStr name);
           (lit "found_in_teamwork",
            PBool (truthy (if truthy (PList results) then PList results
                           else PList previous_evaluations)));
           (lit "previous_translations", PList results);
           (lit "previous_evaluations", PList previous_evaluations);
           (lit "verification_status",
            PStr (verification_status results previous_evaluations)) ])
    (fun e => ret (could_not_verify name e)).

End WithWorld.
End teamwork_integration.

(* ================================================================= *)
(** * The Teamwork paragraph of a prompt *)

(** [evaluate_english_name] and [korean_name_evaluator.evaluate_name]
    contain the same block that consults Teamwork and words the result
    for the prompt; it is written once here. *)
Module teamwork_block.
Section WithWorld.
Context {U : UnicodeTables} {W : Outside}.

Definition nl : str := [10%N].

(** The lines ["  * {x['title']} ({x['created_at']})"] for the first
    three records. *)
Fixpoint record_lines (records : list pyval) : outcome str :=
  match records with
  | [] => Return []
  | x :: rest =>
      title <~ py_getitem x (lit "title") ;;
      created <~ py_getitem x (lit "created_at") ;;
      more <~ record_lines rest ;;
      Return (lit "  * " ++ format_value title ++ lit " ("
                ++ format_value created ++ lit ")" ++ nl ++ more)
  end.

Definition found_section (tv : pyval) (key : string) (what : string) : outcome str :=
  v <~ py_getitem tv (lit key) ;;
  if truthy v
  then items <~ py_iter v ;;
       ls <~ record_lines (firstn 3 items) ;;
       Return (lit "- Found "
                 ++ format_value (PInt (Z.of_nat (length items)))
                 ++ lit (" previous " ++ what ++ " in Teamwork") ++ nl ++ ls)
  else Return [].

(** The text put into [teamwork_info] after a verification returned. *)
Definition teamwork_info_text (tv : dict) : outcome str :=
  found <~ py_getitem (PDict tv) (lit "found_in_teamwork") ;;
  if truthy found
  then evals <~ found_section (PDict tv) "previous_evaluations" "evaluations" ;;
       trans <~ found_section (PDict tv) "previous_translations" "translations" ;;
       status <~ py_getitem (PDict tv) (lit "verification_status") ;;
       Return (lit "TEAMWORK VERIFICATION RESULTS:" ++ nl ++ evals ++ trans
                 ++ lit "- Verification status: " ++ format_value status ++ nl)
  else Return (lit "TEAMWORK VERIFICATION RESULTS:" ++ nl
                 ++ lit "- No previous records found in Teamwork" ++ nl).

Definition teamwork_error_text (e : exn) : str :=
  lit "TEAMWORK VERIFICATION ERROR: " ++ exn_str e ++ nl.

(** The whole block: [(teamwork_info, teamwork_verification)]. *)
Definition consult (name : str) (check_teamwork : bool) : M (str * option dict) :=
  if check_teamwork && TEAMWORK_AVAILABLE && environ_truthy "TEAMWORK_API_KEY"
  then try_except
         (tv <- teamwork_integration.verify_name_in_teamwork name ;;
          ret (match teamwork_info_text tv with
               | Return info => info
               | Raise e => teamwork_error_text e
               end, Some tv))
         (fun e => ret (teamwork_error_text e, None))
  else ret ([], None).

End WithWorld.
End teamwork_block.

(* ================================================================= *)
(** * english_to_korean_evaluator.py *)

Module english_to_korean_evaluator.

(** The fields the line scan of [evaluate_english_name] fills in. *)
Record extraction : Type := {
  korean_notation : str;
  compliance_score : Z;
  compliant : bool;
  verification_process : list str;
  recommendations : list str;
  sources : list str
}.

Definition initial : extraction :=
  {| korean_notation := []; compliance_score := 0; compliant := false;
     verification_process := []; recommendations := []; sources := [] |}.

(** "한글 표기" *)
Definition hangul_pyogi : str := [0xD55C; 0xAE00; 32; 0xD45C; 0xAE30]%N.

Section Parsing.
Context {U : UnicodeTables}.

Definition is_bullet (s : str) : bool :=
  startswith (lit "-") s || startswith (lit "*") s.

(** The [while j < len(lines) and lines[j].strip() and not any(...)]
    loops: the bulleted lines that follow a heading, up to the first
    blank line or the first line mentioning one of [stops]. *)
Fixpoint bullets (stops : list str) (following : list str) : list str :=
  match following with
  | [] => []
  | l :: following' =>
      if nonempty (strip l)
         && negb (existsb (fun k => contains k (py_lower l)) stops)
      then (if is_bullet (strip l) then [strip l] else [])
             ++ bullets stops following'
      else []
  end.

(** [word.isdigit() or (word.endswith("%") and word[:-1].isdigit())] *)
Definition is_score_word (word : str) : bool :=
  py_isdigit word
  || (endswith (lit "%") word && py_isdigit (removelast word)).

(** The [for word in line.split()] loop: the first word that passes
    the test and that [int] accepts sets the score and ends the loop;
    a [ValueError] moves on to the next word. *)
Fixpoint scan_words (words : list str) (st : extraction) : extraction :=
  match words with
  | [] => st
  | word :: words' =>
      if is_score_word word
      then match py_int (rstrip_chr 37%N word) with
           | Return n =>
               {| korean_notation := korean_notation st;
                  compliance_score := n;
                  compliant := (80 <=? n)%Z;
                  verification_process := verification_process st;
                  recommendations := recommendations st;
                  sources := sources st |}
           | Raise _ => scan_words words' st
           end
      else scan_words words' st
  end.

(** [("compliance" in line.lower() or "score" in line.lower())
     and any(c.isdigit() for c in line)] *)
Definition mentions_score (line : str) : bool :=
  (contains (lit "compliance") (py_lower line)
   || contains (lit "score") (py_lower line))
  && existsb chr_isdigit line.

Definition mentions_notation (line : str) : bool :=
  contains hangul_pyogi line
  || contains (lit "Korean notation") line
  || contains (lit "recommended notation") line
  || contains (lit "Hangul") line.

Definition extract_notation (line : str) (following : list str) (st : extraction)
  : extraction :=
  if mentions_notation line && negb (nonempty (korean_notation st))
  then
    let found :=
      if contains (lit ":") line
      then match snd (split_once 58%N line) with
           | Some after => Some (strip after)
           | None => None
           end
      else match following with
           | next :: _ => if existsb is_hangul next then Some (strip next) else None
           | [] => None
           end in
    match found with
    | Some notation =>
        {| korean_notation := notation;
           compliance_score := compliance_score st;
           compliant := compliant st;
           verification_process := verification_process st;
           recommendations := recommendations st;
           sources := sources st |}
    | None => st
    end
  else st.

Definition extract_score (line : str) (st : extraction) : extraction :=
  if mentions_score line then scan_words (split_ws line) st else st.

Definition extract_lists (line : str) (following : list str) (st : extraction)
  : extraction :=
  let low := py_lower line in
  let vp :=
    if contains (lit "verification process") low
       || contains (lit "verified using") low
    then bullets [lit "justification"; lit "recommendation"; lit "sources"] following
    else verification_process st in
  let recs :=
    if contains (lit "recommend") low || contains (lit "suggestion") low
    then bullets [lit "sources"; lit "verification"] following
    else recommendations st in
  let srcs :=
    if contains (lit "sources") low || contains (lit "references") low
    then bullets [] following
    else sources st in
  {| korean_notation := korean_notation st;
     compliance_score := compliance_score st;
     compliant := compliant st;
     verification_process := vp;
     recommendations := recs;
     sources := srcs |}.

(** The body of [for i, line in enumerate(lines)], with [following]
    standing for [lines[i+1:]]. *)
Definition scan_line (raw : str) (following : list str) (st : extraction)
  : extraction :=
  let line := strip raw in
  extract_lists line following
    (extract_score line (extract_notation line following st)).

Fixpoint scan_lines (lines : list str) (st : extraction) : extraction :=
  match lines with
  | [] => st
  | raw :: following => scan_lines following (scan_line raw following st)
  end.

(** The parsing half of [evaluate_english_name]: from the model's
    answer to the extracted fields. *)
Definition parse_evaluation (result : str) : extraction :=
  scan_lines (split_on 10%N result) initial.

End Parsing.

Section WithWorld.
Context {U : UnicodeTables} {W : Outside}.

Definition strs (l : list str) : pyval := PList (map PStr l).

(** The [evaluation_result] dictionary. *)
Definition evaluation_result (name : str) (x : extraction) (result : str)
           (teamwork_verification : option dict) : dict :=
  [ (lit "name", PStr name);
    (lit "korean_notation", PStr (korean_notation x));
    (lit "overall_score", PInt (compliance_score x));
    (lit "compliant", PBool (compliant x));
    (lit "verification_process", strs (verification_process x));
    (lit "recommendations", strs (recommendations x));
    (lit "sources", strs (sources x));
    (lit "full_evaluation", PStr result) ]
  ++ match teamwork_verification with
     | Some tv => if truthy (PDict tv)
                  then [(lit "teamwork_verification", PDict tv)] else []
     | None => []
     end.

Definition evaluate_english_name (name : str) (check_teamwork : bool) : M dict :=
  lift openai_client ;;;
  tw <- teamwork_block.consult name check_teamwork ;;
  result <- invoke_text
              {| chain := "english_to_korean_evaluator.evaluate_english_name";
                 variables := [("name", name); ("teamwork_info", fst tw)] |} ;;
  ret (evaluation_result name (parse_evaluation result) result (snd tw)).

(** The entry recorded for a name whose evaluation raised. *)
Definition error_entry (name : str) (e : exn) : dict :=
  [ (lit "name", PStr name);
    (lit "error", PStr (exn_str e));
    (lit "compliant", PBool false);
    (lit "overall_score", PInt 0) ].

(** The [for name in names] loop of [evaluate_english_names]. *)
Fixpoint evaluate_each (names : list str) (check_teamwork : bool)
         (results : list pyval) : M (list pyval) :=
  match names with
  | [] => ret results
  | name :: rest =>
      entry <- try_except
                 (r <- evaluate_english_name name check_teamwork ;; ret (PDict r))
                 (fun e => ret (PDict (error_entry name e))) ;;
      evaluate_each rest check_teamwork (results ++ [entry])
  end.

Definition evaluate_english_names (names : list str) (check_teamwork : bool)
  : M (list pyval) :=
  results <- evaluate_each names check_teamwork [] ;;
  write (WriteJson (lit "reports/english_name_evaluation_results.json") (PList results)) ;;;
  ret results.

End WithWorld.
End english_to_korean_evaluator.

(* ================================================================= *)
(** * korean_name_evaluator.py *)

Module korean_name_evaluator.
Section WithWorld.
Context {U : UnicodeTables} {W : Outside}.

(** [result.teamwork_verification = tv]: a Pydantic model takes the
    field, any other object refuses the attribute. *)
Definition set_teamwork_verification (result : chain_value) (tv : dict)
  : outcome chain_value :=
  match result with
  | Model fields => Return (Model (dict_set fields (lit "teamwork_verification") (PDict tv)))
  | Plain _ => Raise (mk_exn AttributeError "object has no attribute 'teamwork_verification'")
  end.

(** The record built from the plain-text answer when structured
    extraction failed. *)
Definition minimal_result (name direction evaluation_text : str)
           (teamwork_verification : option dict) : dict :=
  [ (lit "name", PStr name);
    (lit "language_direction", PStr direction);
    (lit "compliant", PBool (contains (lit "compliant") (py_lower evaluation_text)));
    (lit "overall_score", PInt 0);
    (lit "rule_scores",
     PDict [ (lit "Internal Verification", PInt 0);
             (lit "External Verification", PInt 0);
             (lit "Rule Compliance", PInt 0) ]);
    (lit "recommendations", PList [PStr (lit "Review the manual verification process")]);
    (lit "verification_sources", PList [PStr (lit "CF Terminology Management Manual")]);
    (lit "notes",
     PStr (lit "Error in structured extraction. Raw evaluation:" ++ [10%N]
             ++ evaluation_text));
    (lit "teamwork_verification",
     match teamwork_verification with Some tv => PDict tv | None => PNone end) ].

(** The function returned by [create_ko_name_evaluator_chain]. *)
Definition evaluate_name (name direction : str) (check_teamwork : bool)
  : M chain_value :=
  tw <- teamwork_block.consult name check_teamwork ;;
  let input_data :=
    [("name", name); ("direction", direction); ("teamwork_info", fst tw)] in
  try_except
    (result <- invoke_structured
                 {| chain := "korean_name_evaluator.extraction_chain";
                    variables := input_data |} ;;
     match snd tw with
     | Some tv => if truthy (PDict tv)
                  then lift (set_teamwork_verification result tv)
                  else ret result
     | None => ret result
     end)
    (fun _ =>
       evaluation_text <- invoke_text
                            {| chain := "korean_name_evaluator.prompt|llm|str";
                               variables := input_data |} ;;
       ret (Plain (PDict (minimal_result name direction evaluation_text (snd tw))))).

Definition error_entry (name : str) (e : exn) : dict :=
  [ (lit "name", PStr name);
    (lit "error", PStr (exn_str e));
    (lit "compliant", PBool false);
    (lit "overall_score", PInt 0) ].

(** [result.dict()] for a model, the object itself otherwise. *)
Definition as_entry (result : chain_value) : pyval :=
  match result with
  | Model fields => PDict fields
  | Plain v => v
  end.

Fixpoint evaluate_each (names : list str) (direction : str)
         (check_teamwork : bool) (results : list pyval) : M (list pyval) :=
  match names with
  | [] => ret results
  | name :: rest =>
      entry <- try_except
                 (r <- evaluate_name name direction check_teamwork ;; ret (as_entry r))
                 (fun e => ret (PDict (error_entry name e))) ;;
      evaluate_each rest direction check_teamwork (results ++ [entry])
  end.

Definition batch_evaluate_names (names : list str) (direction : str)
           (check_teamwork : bool) : M (list pyval) :=
  lift openai_client ;;;
  results <- evaluate_each names direction check_teamwork [] ;;
  write (WriteJson (lit "reports/name_evaluation_results.json") (PList results)) ;;;
  ret results.

(** [generate_html_report]: the page itself is not modelled, only that
    a report for [results] is written to [output_file]. *)
Definition generate_html_report (results : list pyval) (output_file : str) : M unit :=
  write (WriteReport output_file results).

End WithWorld.
End korean_name_evaluator.

(* ================================================================= *)
(** * korean_to_english_evaluator.py *)

(** [json.loads] of the standard library: the decoded value, or the
    exception it raises. *)
Class JsonLib : Type := { json_loads : str -> outcome pyval }.

Module korean_to_english_evaluator.

Definition re_any : re := Chr (fun _ => true).

(** The pattern [```(?:json)?(.*?)```] with [re.DOTALL]. *)
Definition fence_re : re :=
  Seq (re_lit "```")
      (Seq (re_opt (re_lit "json"))
           (Seq (Group (Star false re_any)) (re_lit "```"))).

Section Parsing.
Context {U : UnicodeTables} {J : JsonLib}.

(** The pattern [Qenglish_notationQ:\s*Q([^Q]+)Q], where [Q] stands
    for the double quote character. *)
Definition english_re : re :=
  Seq (Seq (Chr (chr_eqb 34%N)) (re_lit "english_notation"))
      (Seq (Chr (chr_eqb 34%N))
           (Seq (re_lit ":")
                (Seq (Star true re_space)
                     (Seq (Chr (chr_eqb 34%N))
                          (Seq (Group (re_plus (Chr (fun c => negb (chr_eqb c 34%N)))))
                               (Chr (chr_eqb 34%N))))))).

(** The pattern [QcompliantQ:\s*(true|false)] with [re.IGNORECASE]. *)
Definition compliant_re : re :=
  Seq (Seq (Chr (chr_eqb 34%N)) (re_ilit "compliant"))
      (Seq (Chr (chr_eqb 34%N))
           (Seq (re_lit ":")
                (Seq (Star true re_space)
                     (Group (Alt (re_ilit "true") (re_ilit "false")))))).

(** The pattern [Qoverall_scoreQ:\s*(\d+)]. *)
Definition score_re : re :=
  Seq (Seq (Chr (chr_eqb 34%N)) (re_lit "overall_score"))
      (Seq (Chr (chr_eqb 34%N))
           (Seq (re_lit ":")
                (Seq (Star true re_space) (Group (re_plus re_digit))))).

Definition no_previous : str := lit "No previous translations found in Teamwork.".

Fixpoint match_lines `{Outside} (matches : list pyval) : outcome str :=
  match matches with
  | [] => Return []
  | m :: rest =>
      task_name <~ py_get m (lit "task_name") PNone ;;
      translation <~ py_get m (lit "translation") (PStr (lit "Not specified")) ;;
      more <~ match_lines rest ;;
      Return (lit "- Task: " ++ format_value task_name ++ [10%N]
                ++ lit "  Translation: " ++ format_value translation ++ [10%N]
                ++ more)
  end.

(** The [teamwork_context] of the prompt. *)
Definition build_teamwork_context `{Outside} (teamwork_results : pyval) : outcome str :=
  match teamwork_results with
  | PDict d =>
      let matches := dict_get d (lit "matches") PNone in
      if truthy matches
      then items <~ py_iter (dict_get d (lit "matches") (PList [])) ;;
           ls <~ match_lines items ;;
           Return (lit "Previous translations found in Teamwork:" ++ [10%N] ++ ls)
      else Return no_previous
  | _ => Return no_previous
  end.

(** The default [evaluation] structure. *)
Definition default_evaluation (name : str) (teamwork_results : pyval)
           (response_text : str) : dict :=
  [ (lit "name", PStr name);
    (lit "english_notation", PStr []);
    (lit "verification_process", PDict []);
    (lit "verification_sources", PList []);
    (lit "compliant", PBool false);
    (lit "overall_score", PInt 0);
    (lit "notes", PStr (lit "Raw evaluation:" ++ [10%N] ++ response_text));
    (lit "teamwork_verification", teamwork_results) ].

(** The text handed to [json.loads]: the inside of the first code
    fence, stripped, or else the whole answer. *)
Definition fenced_json_text (response_text : str) : outcome str :=
  match re_search fence_re response_text with
  | Some (Some inside) => Return (strip inside)
  | Some None => Raise (mk_exn AttributeError "'NoneType' object has no attribute 'strip'")
  | None => Return response_text
  end.

(** The dictionary passed to [evaluation.update]. *)
Definition parsed_fields (data : pyval) : outcome dict :=
  english_notation <~ py_get data (lit "english_notation") (PStr []) ;;
  romanization <~ py_get data (lit "romanization_compliant") (PBool false) ;;
  hyphenation <~ py_get data (lit "hyphenation_compliant") (PBool false) ;;
  capitalization <~ py_get data (lit "capitalization_compliant") (PBool false) ;;
  verification_process <~ py_get data (lit "verification_process") (PDict []) ;;
  verification_sources <~ py_get data (lit "verification_sources") (PList []) ;;
  reference_links <~ py_get data (lit "reference_links") (PList []) ;;
  termbase_entry <~ py_get data (lit "termbase_entry") (PDict []) ;;
  compliant <~ py_get data (lit "compliant") (PBool false) ;;
  overall_score <~ py_get data (lit "overall_score") (PInt 0) ;;
  recommendations <~ py_get data (lit "recommendations") (PList []) ;;
  Return
    [ (lit "english_notation", english_notation);
      (lit "romanization_compliant", romanization);
      (lit "hyphenation_compliant", hyphenation);
      (lit "capitalization_compliant", capitalization);
      (lit "verification_process", verification_process);
      (lit "verification_sources", verification_sources);
      (lit "reference_links", reference_links);
      (lit "termbase_entry", termbase_entry);
      (lit "compliant", compliant);
      (lit "overall_score", overall_score);
      (lit "recommendations", recommendations) ].

(** The body of the outer [try]. *)
Definition parse_json (evaluation : dict) (response_text : str) : outcome dict :=
  json_text <~ fenced_json_text response_text ;;
  data <~ json_loads json_text ;;
  fields <~ parsed_fields data ;;
  Return (dict_update evaluation fields).

(** [evaluation["notes"] += s] *)
Definition append_note (evaluation : dict) (s : str) : dict :=
  match dict_find evaluation (lit "notes") with
  | Some (PStr notes) => dict_set evaluation (lit "notes") (PStr (notes ++ s))
  | _ => evaluation
  end.

(** One [if m: evaluation[key] = conv(m.group(1))] of the fallback:
    the dictionary afterwards and the exception, if one was raised. *)
Definition set_from_match (r : re) (text : str) (key : string)
           (conv : str -> outcome pyval) (evaluation : dict) : dict * option exn :=
  match re_search r text with
  | None => (evaluation, None)
  | Some None =>
      (evaluation, Some (mk_exn AttributeError "'NoneType' object has no attribute"))
  | Some (Some g) =>
      match conv g with
      | Return v => (dict_set evaluation (lit key) v, None)
      | Raise e => (evaluation, Some e)
      end
  end.

Definition regex_error (evaluation : dict) (e2 : exn) : dict :=
  append_note evaluation ([10%N] ++ lit "Regex fallback error: " ++ exn_str e2).

(** The inner [try]: regex extraction of the critical fields. *)
Definition regex_fallback (evaluation : dict) (response_text : str) : dict :=
  let '(ev1, err1) :=
    set_from_match english_re response_text "english_notation"
                   (fun g => Return (PStr (strip g))) evaluation in
  match err1 with
  | Some e2 => regex_error ev1 e2
  | None =>
      let '(ev2, err2) :=
        set_from_match compliant_re response_text "compliant"
                       (fun g => Return (PBool (str_eqb (py_lower g) (lit "true")))) ev1 in
      match err2 with
      | Some e2 => regex_error ev2 e2
      | None =>
          let '(ev3, err3) :=
            set_from_match score_re response_text "overall_score"
                           (fun g => z <~ py_int g ;; Return (PInt z)) ev2 in
          match err3 with
          | Some e2 => regex_error ev3 e2
          | None => ev3
          end
      end
  end.

(** From the model's answer to the evaluation record: everything in
    [name_evaluator] after the call of the model. *)
Definition interpret_response (name : str) (teamwork_results : pyval)
           (response_text : str) : dict :=
  let evaluation := default_evaluation name teamwork_results response_text in
  match parse_json evaluation response_text with
  | Return updated => updated
  | Raise e =>
      regex_fallback
        (append_note evaluation ([10%N] ++ lit "JSON parsing error: " ++ exn_str e))
        response_text
  end.

End Parsing.

Section WithWorld.
Context {U : UnicodeTables} {J : JsonLib} {W : Outside}.

(** The function returned by [create_ko_to_en_evaluator].  The fixed
    template variables [process_text] and [resources_text] belong to
    the chain and are not listed with the call. *)
Definition name_evaluator (name : str) (teamwork_results : pyval) : M dict :=
  teamwork_context <- lift (build_teamwork_context teamwork_results) ;;
  response_text <- invoke_text
                     {| chain := "korean_to_english_evaluator.evaluation_prompt|llm";
                        variables := [("name", name);
                                      ("teamwork_context", teamwork_context)] |} ;;
  ret (interpret_response name teamwork_results response_text).

Definition evaluate_korean_name (name : str) (check_teamwork : bool) : M dict :=
  lift openai_client ;;;
  teamwork_results <-
    (if check_teamwork && TEAMWORK_AVAILABLE && environ_truthy "TEAMWORK_API_KEY"
     then try_except
            (tv <- teamwork_integration.verify_name_in_teamwork name ;; ret (PDict tv))
            (fun _ => ret PNone)
     else ret PNone) ;;
  name_evaluator name teamwork_results.

(** The [for name in names] loop of [evaluate_korean_names]: the flag
    [check_teamwork] is what the evaluator receives as
    [teamwork_results], and nothing catches what it raises. *)
Fixpoint evaluate_each (names : list str) (check_teamwork : bool)
         (results : list pyval) : M (list pyval) :=
  match names with
  | [] => ret results
  | name :: rest =>
      result <- name_evaluator name (PBool check_teamwork) ;;
      evaluate_each rest check_teamwork (results ++ [PDict result])
  end.

Definition evaluate_korean_names (names : list str) (check_teamwork : bool)
  : M (list pyval) :=
  lift openai_client ;;;
  results <- evaluate_each names check_teamwork [] ;;
  write (WriteJson (lit "reports/korean_to_english_results.json") (PList results)) ;;;
  ret results.

(** [generate_termbase_entries]: only the write is modelled. *)
Definition generate_termbase_entries (results : list pyval) (output_file : str)
  : M unit :=
  write (WriteTermbase output_file results).

End WithWorld.
End korean_to_english_evaluator.

(* ================================================================= *)
(** * korean_name_cli.py *)

(** What a process leaves behind: the status passed to [sys.exit], 0
    when [main] returns, 1 when an exception reaches the top. *)
Definition exit_status (o : outcome Z) : Z :=
  match o with
  | Return status => status
  | Raise _ => 1
  end.

(** [sum(1 for r in results if r.get("compliant", False))] *)
Fixpoint compliant_count (results : list pyval) : outcome nat :=
  match results with
  | [] => Return 0%nat
  | r :: rest =>
      c <~ py_get r (lit "compliant") (PBool false) ;;
      n <~ compliant_count rest ;;
      Return (if truthy c then S n else n)
  end.

Module korean_name_cli.
Section WithWorld.
Context {U : UnicodeTables} {W : Outside}.

(** The parsed command line.  [argparse] makes exactly one of
    [--names] (one or more), [--file] and [--show-resources] present. *)
Record arguments : Type := {
  names : list str;
  file : option str;
  show_resources : bool;
  direction : str;
  output : str;
  json_output : str
}.

(** [load_names_from_file]: the stripped non-blank lines; on any
    error the process exits with status 1 (the [inr]). *)
Definition load_names_from_file (file_path : str) : M (list str + Z) :=
  fun t =>
    match read_lines t file_path with
    | Return lines => (Return (inl (filter nonempty (map strip lines))), t)
    | Raise _ => (Return (inr 1%Z), t)
    end.

Definition default_json_output : str := lit "reports/name_evaluation_results.json".

(** Everything in [main] after the names are known. *)
Definition evaluate_and_exit (args : arguments) (names : list str) : M Z :=
  results <- korean_name_evaluator.batch_evaluate_names names (direction args) true ;;
  korean_name_evaluator.generate_html_report results (output args) ;;;
  (if negb (str_eqb (json_output args) default_json_output)
   then write (WriteJson (json_output args) (PList results))
   else ret tt) ;;;
  count <- lift (compliant_count results) ;;
  lift (scores <~ omap (fun r => py_get r (lit "overall_score") (PInt 0)) results ;;
        match results with
        | [] => Return 0%Z
        | _ => mean_score scores
        end) ;;;
  (* sys.exit(0 if compliant_count == len(names) else 1) *)
  ret (if (count =? length names)%nat then 0%Z else 1%Z).

Definition main (args : arguments) : M Z :=
  if show_resources args then ret 0%Z
  else match names args with
       | _ :: _ => evaluate_and_exit args (names args)
       | [] =>
           match file args with
           | Some (c :: path) =>
               loaded <- load_names_from_file (c :: path) ;;
               match loaded with
               | inl names => evaluate_and_exit args names
               | inr status => ret status
               end
           | _ => ret 1%Z
           end
       end.

End WithWorld.
End korean_name_cli.

(* ================================================================= *)
(** * name_eval_system.py *)

Module name_eval_system.

(** [sum(1 for char in name if '가' <= char <= '힣')] *)
Definition korean_chars (name : str) : N :=
  N.of_nat (length (filter is_hangul name)).

(** [korean_chars / len(name) > 0.2] decides; an empty name divides by
    zero. *)
Definition detect_language (name : str) : outcome lang :=
  match truediv_gt_0_2 (korean_chars name) (N.of_nat (length name)) with
  | Raise e => Raise e
  | Return true => Return ko
  | Return false => Return en
  end.

(** [categorized = {"ko": [], "en": []}], filled in input order. *)
Fixpoint auto_detect_names (names : list str) : outcome (list str * list str) :=
  match names with
  | [] => Return ([], [])
  | name :: rest =>
      l <~ detect_language name ;;
      c <~ auto_detect_names rest ;;
      Return (match l with
              | ko => (name :: fst c, snd c)
              | en => (fst c, name :: snd c)
              end)
  end.

Section WithWorld.
Context {U : UnicodeTables} {J : JsonLib} {W : Outside}.

Record arguments : Type := {
  names : list str;
  file : option str;
  show_resources : bool;
  show_local_resources : bool;
  direction : option str;
  auto_detect : bool;
  output_dir : str;
  local_only : bool;
  disable_tracing : bool;
  verify_in_teamwork : bool;
  post_to_teamwork : bool;
  teamwork_project_id : option str;
  no_teamwork : bool
}.

(** The three lists of the [results] dictionary. *)
Record results : Type := {
  ko_en_results : list pyval;
  en_ko_results : list pyval;
  teamwork_verification : list pyval
}.

Definition results_value (r : results) : pyval :=
  PDict [ (lit "ko_en_results", PList (ko_en_results r));
          (lit "en_ko_results", PList (en_ko_results r));
          (lit "teamwork_verification", PList (teamwork_verification r)) ].

Definition tracing (trace_to_langsmith : bool) : bool :=
  LANGSMITH_AVAILABLE && environ_truthy "LANGCHAIN_API_KEY" && trace_to_langsmith.

Fixpoint trace_all (evaluator_name : string) (rs : list pyval) : M unit :=
  match rs with
  | [] => ret tt
  | r :: rest =>
      lift (py_get r (lit "name") (PStr [])) ;;;
      write (TraceEvaluation evaluator_name r) ;;;
      trace_all evaluator_name rest
  end.

(** [post_evaluation_to_teamwork] catches whatever goes wrong and
    reports it in its result, which is only printed. *)
Fixpoint post_all (rs : list pyval) (project_id : str) : M unit :=
  match rs with
  | [] => ret tt
  | r :: rest =>
      name <- lift (py_get r (lit "name") (PStr [])) ;;
      try_except (write (PostEvaluation name r project_id)) (fun _ => ret tt) ;;;
      post_all rest project_id
  end.

Definition posting (post : bool) (project_id : option str) : option str :=
  match project_id with
  | Some (c :: p) =>
      if post && environ_truthy "TEAMWORK_API_KEY" then Some (c :: p) else None
  | _ => None
  end.

Definition path_join (dir : str) (file : string) : str := dir ++ lit "/" ++ lit file.

(** The KO-EN branch (written twice in the source, for auto-detection
    and for an explicit direction). *)
Definition run_ko_en (ns : list str) (output_dir : str) (trace verify post : bool)
           (project_id : option str) : M (list pyval) :=
  ko_results <- korean_to_english_evaluator.evaluate_korean_names ns verify ;;
  (if tracing trace then trace_all "korean_to_english_evaluator" ko_results else ret tt) ;;;
  korean_name_evaluator.generate_html_report
    ko_results (path_join output_dir "ko_en_evaluation_report.html") ;;;
  korean_to_english_evaluator.generate_termbase_entries
    ko_results (path_join output_dir "ko_en_termbase_entries.txt") ;;;
  match posting post project_id with
  | Some pid => post_all ko_results pid
  | None => ret tt
  end ;;;
  ret ko_results.

(** The EN-KO branch. *)
Definition run_en_ko (ns : list str) (output_dir : str) (trace verify post : bool)
           (project_id : option str) : M (list pyval) :=
  en_results <- english_to_korean_evaluator.evaluate_english_names ns verify ;;
  (if tracing trace then trace_all "english_to_korean_evaluator" en_results else ret tt) ;;;
  write (WriteTermbase (path_join output_dir "en_ko_termbase_entries.txt") en_results) ;;;
  match posting post project_id with
  | Some pid => post_all en_results pid
  | None => ret tt
  end ;;;
  ret en_results.

Fixpoint verify_all (ns : list str) : M (list pyval) :=
  match ns with
  | [] => ret []
  | name :: rest =>
      v <- teamwork_integration.verify_name_in_teamwork name ;;
      lift (py_getitem (PDict v) (lit "found_in_teamwork")) ;;;
      vs <- verify_all rest ;;
      ret (PDict v :: vs)
  end.

(** [process_names].  The switch [use_local_only] only sets or clears
    the variable USE_LOCAL_RESOURCES_ONLY of the environment, which
    none of the functions below reads; it is left out. *)
Definition process_names (ns : list str) (direction : option str)
           (output_dir : str) (auto_detect trace_to_langsmith verify post : bool)
           (project_id : option str) : M results :=
  write (Makedirs output_dir) ;;;
  (if tracing trace_to_langsmith then write SetupMonitoring else ret tt) ;;;
  tw <- (if verify && environ_truthy "TEAMWORK_API_KEY"
         then verify_all ns else ret []) ;;
  r <- (if auto_detect
        then categorized <- lift (auto_detect_names ns) ;;
             ko_r <- match fst categorized with
                     | _ :: _ => run_ko_en (fst categorized) output_dir
                                           trace_to_langsmith verify post project_id
                     | [] => ret []
                     end ;;
             en_r <- match snd categorized with
                     | _ :: _ => run_en_ko (snd categorized) output_dir
                                           trace_to_langsmith verify post project_id
                     | [] => ret []
                     end ;;
             ret {| ko_en_results := ko_r; en_ko_results := en_r;
                    teamwork_verification := tw |}
        else match direction with
             | Some (c :: d) =>
                 if str_eqb (c :: d) (lit "KO-EN")
                 then ko_r <- run_ko_en ns output_dir trace_to_langsmith verify
                                        post project_id ;;
                      ret {| ko_en_results := ko_r; en_ko_results := [];
                             teamwork_verification := tw |}
                 else if str_eqb (c :: d) (lit "EN-KO")
                 then en_r <- run_en_ko ns output_dir trace_to_langsmith verify
                                        post project_id ;;
                      ret {| ko_en_results := []; en_ko_results := en_r;
                             teamwork_verification := tw |}
                 else ret {| ko_en_results := []; en_ko_results := [];
                             teamwork_verification := tw |}
             | _ => ret {| ko_en_results := []; en_ko_results := [];
                           teamwork_verification := tw |}
             end) ;;
  write (WriteJson (path_join output_dir "name_evaluation_results.json")
                   (results_value r)) ;;;
  ret r.

(** [--names] arguments are split at commas; blanks are dropped. *)
Definition split_names (name_args : list str) : list str :=
  flat_map (fun name_arg => filter nonempty (map strip (split_on 44%N name_arg)))
           name_args.

Definition load_names_from_file (file_path : str) : M (list str + Z) :=
  fun t =>
    match read_lines t file_path with
    | Return lines => (Return (inl (filter nonempty (map strip lines))), t)
    | Raise _ => (Return (inr 1%Z), t)
    end.

(** Everything in [main] after the names are known.  The summary is
    printed and [main] returns: the status is 0. *)
Definition evaluate_and_report (args : arguments) (ns : list str) : M Z :=
  if local_only args && (available_local_resources =? 0)%nat
  then ret 1%Z
  else
    r <- process_names ns (direction args) (output_dir args) (auto_detect args)
                       (negb (disable_tracing args))
                       (verify_in_teamwork args && negb (no_teamwork args))
                       (post_to_teamwork args && negb (no_teamwork args))
                       (teamwork_project_id args) ;;
    (match ko_en_results r with
     | [] => ret tt
     | _ => lift (compliant_count (ko_en_results r)) ;;; ret tt
     end) ;;;
    (match en_ko_results r with
     | [] => ret tt
     | _ => lift (compliant_count (en_ko_results r)) ;;; ret tt
     end) ;;;
    ret 0%Z.

Definition main (args : arguments) : M Z :=
  if show_resources args then ret 0%Z
  else if show_local_resources args then ret 0%Z
  else match names args with
       | _ :: _ => evaluate_and_report args (split_names (names args))
       | [] =>
           match file args with
           | Some (c :: path) =>
               loaded <- load_names_from_file (c :: path) ;;
               match loaded with
               | inl ns => evaluate_and_report args ns
               | inr status => ret status
               end
           | _ => ret 1%Z
           end
       end.

End WithWorld.
End name_eval_system.

(* ================================================================= *)
(** * real_person_name_verifier.py *)

Module real_person_name_verifier.

Definition korean_chars (name : str) : N :=
  N.of_nat (length (filter is_hangul name)).

(** The module's own copy of the detector. *)
Definition detect_language (name : str) : outcome lang :=
  match truediv_gt_0_2 (korean_chars name) (N.of_nat (length name)) with
  | Raise e => Raise e
  | Return true => Return ko
  | Return false => Return en
  end.

(** The wall clock: [datetime.now().isoformat()] at a point of the
    run. *)
Class Clock : Type := { now_isoformat : trace -> str }.

(** [x < z] for the double with the bit pattern [bits] and an integer
    [z]; Python compares the two exactly.  A NaN is below nothing. *)
Definition float_lt_int (bits : N) (z : Z) : bool :=
  let negative := N.testbit bits 63 in
  let e := Z.of_N (N.land (N.shiftr bits 52) 0x7FF) in
  let fraction := Z.of_N (N.land bits 0xFFFFFFFFFFFFF) in
  if (e =? 2047)%Z
  then (fraction =? 0)%Z && negative
  else
    let m := if (e =? 0)%Z then fraction else (fraction + 2 ^ 52)%Z in
    let k := ((if (e =? 0)%Z then 1 else e) - 1075)%Z in
    let v := if negative then (- m)%Z else m in
    if (0 <=? k)%Z then (v * 2 ^ k <? z)%Z else (v <? z * 2 ^ (- k))%Z.

(** [v < z] for an integer [z] *)
Definition py_lt_int (v : pyval) (z : Z) : outcome bool :=
  match v with
  | PInt a => Return (a <? z)%Z
  | PBool b => Return ((if b then 1 else 0) <? z)%Z
  | PFloat bits => Return (float_lt_int bits z)
  | _ => Raise (mk_exn TypeError "'<' not supported between instances")
  end.

(** [v.append(x)] *)
Definition py_append (v x : pyval) : outcome pyval :=
  match v with
  | PList l => Return (PList (l ++ [x]))
  | _ => Raise (mk_exn AttributeError "object has no attribute 'append'")
  end.

Definition direction_of (l : lang) : str :=
  match l with
  | ko => lit "KO-EN"
  | en => lit "EN-KO"
  end.

Section WithWorld.
Context {U : UnicodeTables} {J : JsonLib} {W : Outside} {C : Clock}.

(** The Teamwork check at the start of [verify_real_person_name]:
    the record, when the verification returned (what is looked up in
    it afterwards is only printed). *)
Definition check_teamwork_first (name : str) (check_teamwork : bool)
  : M (option dict) :=
  if check_teamwork && TEAMWORK_AVAILABLE && environ_truthy "TEAMWORK_API_KEY"
  then try_except
         (tv <- teamwork_integration.verify_name_in_teamwork name ;; ret (Some tv))
         (fun _ => ret None)
  else ret None.

(** What the KO-EN branch adds to the record of
    [evaluate_korean_name]. *)
Definition real_person_ko_en (result : dict) : outcome dict :=
  let r1 := dict_set result (lit "is_real_person") (PBool true) in
  needs_expert <~ py_lt_int (dict_get r1 (lit "overall_score") (PInt 0)) 95 ;;
  let r2 :=
    dict_set r1 (lit "real_person_rules")
      (PDict [ (lit "hyphenation_required", PBool true);
               (lit "capitalization_standard",
                PStr (lit "First letter capitalized, rest lowercase"));
               (lit "nikl_compliance_required", PBool true);
               (lit "requires_expert_validation", PBool needs_expert) ]) in
  recs1 <~ py_append (dict_get r2 (lit "recommendations") (PList []))
             (PStr (lit "For real person names, hyphenation is mandatory between syllables")) ;;
  recs2 <~ py_append recs1
             (PStr (lit "Verify with multiple official sources including NIKL standards")) ;;
  recs3 <~ (if dict_has r2 (lit "teamwork_verification")
               && truthy (dict_get r2 (lit "teamwork_verification") PNone)
            then py_append recs2
                   (PStr (lit "Follow existing verified translations in Teamwork for consistency"))
            else Return recs2) ;;
  Return (dict_set r2 (lit "recommendations") recs3).

(** What the EN-KO branch adds to the record of
    [evaluate_english_name]. *)
Definition real_person_en_ko (result : dict) : outcome dict :=
  let r1 := dict_set result (lit "is_real_person") (PBool true) in
  context <~ py_lower_val (dict_get r1 (lit "context") (PStr [])) ;;
  let r2 :=
    dict_set r1 (lit "real_person_rules")
      (PDict [ (lit "requires_phonetician_review", PBool true);
               (lit "requires_kyonshik_confirmation",
                PBool (contains (lit "netflix") context));
               (lit "record_hz_notation", PBool true);
               (lit "apply_strict_transliteration", PBool true) ]) in
  recs1 <~ py_append (dict_get r2 (lit "recommendations") (PList []))
             (PStr (lit "For real person names created after 08/11/2020, confirm notation through Kyonshik for NF tasks")) ;;
  recs2 <~ py_append recs1
             (PStr (lit "For non-NF projects, confirm through Hazel (phonetician)")) ;;
  recs3 <~ py_append recs2
             (PStr (lit "Record 'HZ Original Notation' in the Korean target of the Termbase")) ;;
  Return (dict_set r2 (lit "recommendations") recs3).

(** [verify_real_person_name]; the result is [None] for a direction
    that is neither "KO-EN" nor "EN-KO". *)
Definition verify_real_person_name (name : str) (direction : option str)
           (check_teamwork : bool) : M pyval :=
  direction <- match direction with
               | Some d => ret d
               | None => l <- lift (detect_language name) ;; ret (direction_of l)
               end ;;
  teamwork_verification <- check_teamwork_first name check_teamwork ;;
  result <- (if str_eqb direction (lit "KO-EN")
             then r <- korean_to_english_evaluator.evaluate_korean_name
                         name check_teamwork ;;
                  r' <- lift (real_person_ko_en r) ;;
                  ret (PDict r')
             else if str_eqb direction (lit "EN-KO")
             then r <- english_to_korean_evaluator.evaluate_english_name
                         name check_teamwork ;;
                  r' <- lift (real_person_en_ko r) ;;
                  ret (PDict r')
             else ret PNone) ;;
  match teamwork_verification with
  | Some tv =>
      if truthy (PDict tv)
      then lift (teamwork_integration.py_setitem
                   result (lit "teamwork_verification") (PDict tv))
      else ret result
  | None => ret result
  end.

(** What [batch_verify_real_person_names] returns. *)
Record batch_results : Type := {
  ko_en_results : list pyval;
  en_ko_results : list pyval;
  verification_summary : dict
}.

(** The [for name in names] loop of the batch, with the two result
    lists as they grow. *)
Fixpoint verify_each (names : list str) (auto_detect : bool)
         (direction : option str) (check_teamwork : bool)
         (ko_results en_results : list pyval) : M (list pyval * list pyval) :=
  match names with
  | [] => ret (ko_results, en_results)
  | name :: rest =>
      name_direction <-
        (if auto_detect
         then l <- lift (detect_language name) ;; ret (direction_of l)
         else ret (match direction with
                   | Some (c :: d) => c :: d
                   | _ => lit "KO-EN"
                   end)) ;;
      result <- verify_real_person_name name (Some name_direction) check_teamwork ;;
      if str_eqb name_direction (lit "KO-EN")
      then verify_each rest auto_detect direction check_teamwork
                       (ko_results ++ [result]) en_results
      else verify_each rest auto_detect direction check_teamwork
                       ko_results (en_results ++ [result])
  end.

Definition batch_verify_real_person_names (names : list str) (auto_detect : bool)
           (direction : option str) (check_teamwork : bool) (output_dir : str)
  : M batch_results :=
  write (Makedirs output_dir) ;;;
  lists <- verify_each names auto_detect direction check_teamwork [] [] ;;
  match fst lists with
  | _ :: _ =>
      korean_name_evaluator.generate_html_report
        (fst lists) (name_eval_system.path_join output_dir "real_person_ko_en_report.html") ;;;
      write (WriteJson (name_eval_system.path_join output_dir "real_person_ko_en_results.json")
                       (PList (fst lists)))
  | [] => ret tt
  end ;;;
  match snd lists with
  | _ :: _ =>
      write (WriteJson (name_eval_system.path_join output_dir "real_person_en_ko_results.json")
                       (PList (snd lists)))
  | [] => ret tt
  end ;;;
  ko_compliant <- lift (compliant_count (fst lists)) ;;
  en_compliant <- lift (compliant_count (snd lists)) ;;
  timestamp <- (fun t => (Return (now_isoformat t), t)) ;;
  let summary :=
    [ (lit "total_names", PInt (Z.of_nat (length names)));
      (lit "ko_en_count", PInt (Z.of_nat (length (fst lists))));
      (lit "en_ko_count", PInt (Z.of_nat (length (snd lists))));
      (lit "ko_en_compliant", PInt (Z.of_nat ko_compliant));
      (lit "en_ko_compliant", PInt (Z.of_nat en_compliant));
      (lit "timestamp", PStr timestamp) ] in
  write (WriteJson (name_eval_system.path_join
                      output_dir "real_person_verification_summary.json")
                   (PDict summary)) ;;;
  ret {| ko_en_results := fst lists;
         en_ko_results := snd lists;
         verification_summary := summary |}.

End WithWorld.

End real_person_name_verifier.

(* ================================================================= *)
(** * The JSON report: [json.dump] and reading it back *)

(** Formatting and parsing of [float] is left to the interpreter. *)
Class FloatLib : Type := {
  (** [float.__repr__] of a bit pattern *)
  float_repr : N -> str;
  (** [float(text)] for a JSON number with a fraction or an exponent *)
  float_of_literal : str -> N
}.

Module json.

Definition quote : char := 34%N.
Definition backslash : char := 92%N.

(** Lower-case hexadecimal digit. *)
Definition hex_digit (n : N) : char :=
  if (n <? 10)%N then (48 + n)%N else (87 + n)%N.

(** [ESCAPE_DCT] of the encoder with [ensure_ascii=False]: the quote,
    the backslash and the control characters are escaped, everything
    else (Hangul included) is written as it is. *)
Definition escape_char (c : char) : str :=
  if (c =? 34)%N then [backslash; quote]
  else if (c =? 92)%N then [backslash; backslash]
  else if (c =? 10)%N then [backslash; 110%N]
  else if (c =? 13)%N then [backslash; 114%N]
  else if (c =? 9)%N then [backslash; 116%N]
  else if (c =? 8)%N then [backslash; 98%N]
  else if (c =? 12)%N then [backslash; 102%N]
  else if (c <? 32)%N
       then [backslash; 117%N; 48%N; 48%N; hex_digit (c / 16); hex_digit (c mod 16)]
  else [c].

Definition encode_string (s : str) : str :=
  quote :: flat_map escape_char s ++ [quote].

(** Decimal digits of a natural number, most significant first, in
    front of [acc]. *)
Fixpoint digits_of (fuel : nat) (n : N) (acc : str) : str :=
  match fuel with
  | O => acc
  | S fuel' =>
      let acc' := (48 + n mod 10)%N :: acc in
      if (n <? 10)%N then acc' else digits_of fuel' (n / 10) acc'
  end.

Definition encode_nat (n : N) : str := digits_of (S (N.to_nat (N.log2 n))) n [].

(** [int.__repr__] *)
Definition encode_int (z : Z) : str :=
  match z with
  | Zneg p => 45%N :: encode_nat (Npos p)
  | _ => encode_nat (Z.to_N z)
  end.

(** A new line and the indentation of a nesting level ([indent=2]). *)
Definition newline_indent (level : nat) : str := 10%N :: repeat 32%N (2 * level).

(** A bit pattern of a NaN: the exponent field is all ones and the
    fraction is not zero. *)
Definition is_nan (bits : N) : bool :=
  (((bits / 2 ^ 52) mod 2 ^ 11 =? 2047) && negb (bits mod 2 ^ 52 =? 0))%N.

Definition nan_bits : N := 0x7FF8000000000000%N.
Definition inf_bits : N := 0x7FF0000000000000%N.
Definition neg_inf_bits : N := 0xFFF0000000000000%N.

Section Encoder.
Context {F : FloatLib}.

(** [floatstr] of the encoder (with [allow_nan], the default). *)
Definition floatstr (bits : N) : str :=
  if is_nan bits then lit "NaN"
  else if (bits =? inf_bits)%N then lit "Infinity"
  else if (bits =? neg_inf_bits)%N then lit "-Infinity"
  else float_repr bits.

(** The text [json.dump(v, f, ensure_ascii=False, indent=2)] writes
    for a value at a nesting level. *)
Fixpoint encode (level : nat) (v : pyval) : str :=
  match v with
  | PNone => lit "null"
  | PBool true => lit "true"
  | PBool false => lit "false"
  | PInt z => encode_int z
  | PFloat bits => floatstr bits
  | PStr s => encode_string s
  | PList [] => lit "[]"
  | PList (x :: xs) =>
      lit "[" ++ newline_indent (S level) ++ encode (S level) x
        ++ (fix more (l : list pyval) : str :=
              match l with
              | [] => []
              | y :: l' =>
                  lit "," ++ newline_indent (S level) ++ encode (S level) y ++ more l'
              end) xs
        ++ newline_indent level ++ lit "]"
  | PDict [] => lit "{}"
  | PDict ((k, x) :: kvs) =>
      lit "{" ++ newline_indent (S level)
        ++ encode_string k ++ lit ": " ++ encode (S level) x
        ++ (fix more (l : list (str * pyval)) : str :=
              match l with
              | [] => []
              | (k', y) :: l' =>
                  lit "," ++ newline_indent (S level)
                    ++ encode_string k' ++ lit ": " ++ encode (S level) y ++ more l'
              end) kvs
        ++ newline_indent level ++ lit "}"
  end.

(** [json.dumps(v, ensure_ascii=False, indent=2)] *)
Definition dumps (v : pyval) : str := encode 0 v.

(** The items after the first one, each behind its separator. *)
Definition encode_items (level : nat) (l : list pyval) : str :=
  flat_map (fun y => lit "," ++ newline_indent level ++ encode level y) l.

Definition encode_pairs (level : nat) (l : list (str * pyval)) : str :=
  flat_map (fun kv => lit "," ++ newline_indent level
                        ++ encode_string (fst kv) ++ lit ": "
                        ++ encode level (snd kv)) l.

End Encoder.

(** ** The decoder *)

(** JSON white space: space, tab, line feed, carriage return. *)
Definition is_ws (c : char) : bool :=
  ((c =? 32) || (c =? 9) || (c =? 10) || (c =? 13))%N.

Fixpoint skip_ws (s : str) : str :=
  match s with
  | c :: s' => if is_ws c then skip_ws s' else s
  | [] => []
  end.

Definition hex_value (c : char) : option N :=
  if ((48 <=? c) && (c <=? 57))%N then Some (c - 48)%N
  else if ((97 <=? c) && (c <=? 102))%N then Some (c - 87)%N
  else if ((65 <=? c) && (c <=? 70))%N then Some (c - 55)%N
  else None.

Definition hex4 (a b c d : char) : option N :=
  match hex_value a, hex_value b, hex_value c, hex_value d with
  | Some x, Some y, Some z, Some w => Some (((x * 16 + y) * 16 + z) * 16 + w)%N
  | _, _, _, _ => None
  end.

Definition is_high_surrogate (u : N) : bool := ((0xD800 <=? u) && (u <=? 0xDBFF))%N.
Definition is_low_surrogate (u : N) : bool := ((0xDC00 <=? u) && (u <=? 0xDFFF))%N.
Definition join_surrogates (hi lo : N) : N :=
  (0x10000 + (hi - 0xD800) * 0x400 + (lo - 0xDC00))%N.

(** The character a one-letter escape stands for. *)
Definition simple_escape (e : char) : option char :=
  if (e =? 34)%N then Some 34%N
  else if (e =? 92)%N then Some 92%N
  else if (e =? 47)%N then Some 47%N
  else if (e =? 98)%N then Some 8%N
  else if (e =? 102)%N then Some 12%N
  else if (e =? 110)%N then Some 10%N
  else if (e =? 114)%N then Some 13%N
  else if (e =? 116)%N then Some 9%N
  else None.

Definition prepend (pre : str) (r : option (str * str)) : option (str * str) :=
  match r with
  | Some (body, rest) => Some (pre ++ body, rest)
  | None => None
  end.

(** [scanstring] in strict mode, after the opening quote: the decoded
    string and the text after the closing quote.  [pending] is a high
    surrogate read from an escape and waiting for its low half. *)
Fixpoint scanstring (pending : option N) (s : str) : option (str * str) :=
  let held := match pending with Some hi => [hi] | None => [] end in
  match s with
  | [] => None
  | c :: s1 =>
      if (c =? 34)%N then Some (held, s1)
      else if (c =? 92)%N then
        match s1 with
        | [] => None
        | e :: s2 =>
            if (e =? 117)%N then
              match s2 with
              | a :: b :: c4 :: d :: s3 =>
                  match hex4 a b c4 d with
                  | Some u =>
                      match pending with
                      | Some hi =>
                          if is_low_surrogate u
                          then prepend [join_surrogates hi u] (scanstring None s3)
                          else if is_high_surrogate u
                          then prepend [hi] (scanstring (Some u) s3)
                          else prepend [hi; u] (scanstring None s3)
                      | None =>
                          if is_high_surrogate u
                          then scanstring (Some u) s3
                          else prepend [u] (scanstring None s3)
                      end
                  | None => None
                  end
              | _ => None
              end
            else match simple_escape e with
                 | Some x => prepend (held ++ [x]) (scanstring None s2)
                 | None => None
                 end
        end
      else if (c <? 32)%N then None
      else prepend (held ++ [c]) (scanstring None s1)
  end.

(** The longest run of ASCII digits at the front. *)
Fixpoint span_digits (s : str) : str * str :=
  match s with
  | c :: s' =>
      if ascii_isdigit c
      then let '(ds, r) := span_digits s' in (c :: ds, r)
      else ([], s)
  | [] => ([], [])
  end.

Fixpoint digits_to_N (acc : N) (ds : str) : N :=
  match ds with
  | [] => acc
  | c :: ds' => digits_to_N (10 * acc + (c - 48))%N ds'
  end.

(** The integer part of a number: ["0"], or a non-zero digit and the
    digits that follow. *)
Definition scan_int_part (s : str) : option (str * str) :=
  match s with
  | c :: s1 =>
      if (c =? 48)%N then Some ([c], s1)
      else if ((49 <=? c) && (c <=? 57))%N
      then let '(ds, r) := span_digits s1 in Some (c :: ds, r)
      else None
  | [] => None
  end.

(** [".\d+"] if it is there. *)
Definition scan_fraction (s : str) : str * str :=
  match s with
  | c :: s1 =>
      if (c =? 46)%N
      then match span_digits s1 with
           | (d :: ds, r) => (c :: d :: ds, r)
           | ([], _) => ([], s)
           end
      else ([], s)
  | [] => ([], s)
  end.

(** ["[eE][-+]?\d+"] if it is there. *)
Definition scan_exponent (s : str) : str * str :=
  match s with
  | e :: s1 =>
      if ((e =? 101) || (e =? 69))%N
      then let '(sign, s2) :=
             match s1 with
             | g :: s2 => if ((g =? 43) || (g =? 45))%N then ([g], s2) else ([], s1)
             | [] => ([], s1)
             end in
           match span_digits s2 with
           | (d :: ds, r) => (e :: sign ++ d :: ds, r)
           | ([], _) => ([], s)
           end
      else ([], s)
  | [] => ([], s)
  end.

Section Decoder.
Context {F : FloatLib}.

Definition scan_number (s : str) : option (pyval * str) :=
  let '(negative, s0) :=
    match s with
    | c :: s' => if (c =? 45)%N then (true, s') else (false, s)
    | [] => (false, s)
    end in
  match scan_int_part s0 with
  | None => None
  | Some (int_part, r0) =>
      let '(fraction, r1) := scan_fraction r0 in
      let '(exponent, r2) := scan_exponent r1 in
      match fraction ++ exponent with
      | [] =>
          let n := Z.of_N (digits_to_N 0 int_part) in
          Some (PInt (if negative then (- n)%Z else n), r2)
      | _ =>
          Some (PFloat (float_of_literal
                          ((if negative then [45%N] else []) ++ int_part
                             ++ fraction ++ exponent)), r2)
      end
  end.

Definition drop (n : nat) (s : str) : str := skipn n s.

(** [scan_once] and the loops over the items of an array and the
    pairs of an object.  Each call reads at least one character, so a
    fuel of the length of the text is never used up. *)
Fixpoint scan_once (fuel : nat) (s : str) {struct fuel} : option (pyval * str) :=
  match fuel with
  | O => None
  | S fuel' =>
      match s with
      | [] => None
      | c :: s1 =>
          if (c =? 34)%N then
            match scanstring None s1 with
            | Some (body, r) => Some (PStr body, r)
            | None => None
            end
          else if (c =? 123)%N then
            match skip_ws s1 with
            | c' :: r =>
                if (c' =? 125)%N then Some (PDict [], r)
                else scan_pairs fuel' (c' :: r) []
            | [] => None
            end
          else if (c =? 91)%N then
            match skip_ws s1 with
            | c' :: r =>
                if (c' =? 93)%N then Some (PList [], r)
                else scan_items fuel' (c' :: r) []
            | [] => None
            end
          else if startswith (lit "null") s then Some (PNone, drop 4 s)
          else if startswith (lit "true") s then Some (PBool true, drop 4 s)
          else if startswith (lit "false") s then Some (PBool false, drop 5 s)
          else if startswith (lit "NaN") s
          then Some (PFloat nan_bits, drop 3 s)
          else if startswith (lit "Infinity") s
          then Some (PFloat inf_bits, drop 8 s)
          else if startswith (lit "-Infinity") s
          then Some (PFloat neg_inf_bits, drop 9 s)
          else scan_number s
      end
  end
with scan_items (fuel : nat) (s : str) (acc : list pyval) {struct fuel}
  : option (pyval * str) :=
  match fuel with
  | O => None
  | S fuel' =>
      match scan_once fuel' s with
      | None => None
      | Some (v, r) =>
          match skip_ws r with
          | c :: r' =>
              if (c =? 93)%N then Some (PList (acc ++ [v]), r')
              else if (c =? 44)%N then scan_items fuel' (skip_ws r') (acc ++ [v])
              else None
          | [] => None
          end
      end
  end
with scan_pairs (fuel : nat) (s : str) (acc : dict) {struct fuel}
  : option (pyval * str) :=
  match fuel with
  | O => None
  | S fuel' =>
      match s with
      | q :: s1 =>
          if negb (q =? 34)%N then None else
          match scanstring None s1 with
          | None => None
          | Some (key, r) =>
              match skip_ws r with
              | colon :: r1 =>
                  if negb (colon =? 58)%N then None else
                  match scan_once fuel' (skip_ws r1) with
                  | None => None
                  | Some (v, r2) =>
                      match skip_ws r2 with
                      | c :: r' =>
                          if (c =? 125)%N then Some (PDict (dict_set acc key v), r')
                          else if (c =? 44)%N
                          then scan_pairs fuel' (skip_ws r') (dict_set acc key v)
                          else None
                      | [] => None
                      end
                  end
              | [] => None
              end
          end
      | [] => None
      end
  end.

(** [json.loads(s)] *)
Definition loads (s : str) : outcome pyval :=
  match scan_once (S (length s)) (skip_ws s) with
  | Some (v, r) =>
      match skip_ws r with
      | [] => Return v
      | _ => Raise (mk_exn JSONDecodeError "Extra data")
      end
  | None => Raise (mk_exn JSONDecodeError "Expecting value")
  end.

End Decoder.

End json.

(** ** The file: UTF-8 text *)

(** A byte is a number below 256. *)
Definition byte := N.

Module utf8.

Definition is_surrogate (c : char) : bool := ((0xD800 <=? c) && (c <=? 0xDFFF))%N.

(** The bytes of one code point; surrogates cannot be written. *)
Definition encode_char (c : char) : option (list byte) :=
  if (c <? 0x80)%N then Some [c]
  else if (c <? 0x800)%N then Some [0xC0 + c / 64; 0x80 + c mod 64]%N
  else if (c <? 0x10000)%N then
    if is_surrogate c then None
    else Some [0xE0 + c / 4096; 0x80 + (c / 64) mod 64; 0x80 + c mod 64]%N
  else if (c <? 0x110000)%N
  then Some [0xF0 + c / 262144; 0x80 + (c / 4096) mod 64;
             0x80 + (c / 64) mod 64; 0x80 + c mod 64]%N
  else None.

(** [text.encode("utf-8")] *)
Fixpoint encode (s : str) : outcome (list byte) :=
  match s with
  | [] => Return []
  | c :: s' =>
      match encode_char c with
      | Some bs => rest <~ encode s' ;; Return (bs ++ rest)
      | None => Raise (mk_exn UnicodeEncodeError "surrogates not allowed")
      end
  end.

Definition is_continuation (b : byte) : bool := ((0x80 <=? b) && (b <=? 0xBF))%N.

Definition more (c : char) (r : option str) : option str :=
  match r with
  | Some s => Some (c :: s)
  | None => None
  end.

(** Strict decoding: no overlong forms, no surrogates, nothing above
    U+10FFFF. *)
Fixpoint decode (bs : list byte) : option str :=
  match bs with
  | [] => Some []
  | b0 :: r0 =>
      if (b0 <? 0x80)%N then more b0 (decode r0)
      else if (b0 <? 0xC2)%N then None
      else if (b0 <? 0xE0)%N then
        match r0 with
        | b1 :: r1 =>
            if is_continuation b1
            then more ((b0 - 0xC0) * 64 + (b1 - 0x80))%N (decode r1)
            else None
        | _ => None
        end
      else if (b0 <? 0xF0)%N then
        match r0 with
        | b1 :: b2 :: r2 =>
            let c := ((b0 - 0xE0) * 4096 + (b1 - 0x80) * 64 + (b2 - 0x80))%N in
            if is_continuation b1 && is_continuation b2
               && negb (c <? 0x800)%N && negb (is_surrogate c)
            then more c (decode r2)
            else None
        | _ => None
        end
      else if (b0 <? 0xF5)%N then
        match r0 with
        | b1 :: b2 :: b3 :: r3 =>
            let c := ((b0 - 0xF0) * 262144 + (b1 - 0x80) * 4096
                      + (b2 - 0x80) * 64 + (b3 - 0x80))%N in
            if is_continuation b1 && is_continuation b2 && is_continuation b3
               && negb (c <? 0x10000)%N && (c <? 0x110000)%N
            then more c (decode r3)
            else None
        | _ => None
        end
      else None
  end.

End utf8.

(** Reading a text file with the default [newline=None]: a carriage
    return, alone or before a line feed, comes out as a line feed. *)
Fixpoint universal_newlines (s : str) : str :=
  match s with
  | [] => []
  | c :: s' =>
      if (c =? 13)%N
      then 10%N :: match s' with
                   | d :: s'' => if (d =? 10)%N then universal_newlines s''
                                 else universal_newlines s'
                   | [] => []
                   end
      else c :: universal_newlines s'
  end.

Section Report.
Context {F : FloatLib}.

(** The bytes of the report file after
    [with open(path, "w", encoding="utf-8") as f:
       json.dump(v, f, ensure_ascii=False, indent=2)]
    (on a system whose line separator is the line feed). *)
Definition write_report (v : pyval) : outcome (list byte) :=
  utf8.encode (json.dumps v).

(** Reading the report back: the reader is not part of the
    repository; this is
    [with open(path, encoding="utf-8") as f: json.load(f)]. *)
Definition read_report (bytes : list byte) : outcome pyval :=
  match utf8.decode bytes with
  | Some text => json.loads (universal_newlines text)
  | None => Raise (mk_exn OtherException "invalid UTF-8")
  end.

End Report.

(** Text that UTF-8 can carry: code points up to U+10FFFF that are
    not surrogates. *)
Definition encodable (s : str) : bool :=
  forallb (fun c => (c <? 0x110000)%N && negb (utf8.is_surrogate c)) s.

Fixpoint unique_keys (d : dict) : bool :=
  match d with
  | [] => true
  | (k, _) :: d' => negb (dict_has d' k) && unique_keys d'
  end.

(** Whether all text of a value, keys included, is text that UTF-8
    encodes. *)
Fixpoint text_encodable (v : pyval) : bool :=
  match v with
  | PStr s => encodable s
  | PList l => forallb text_encodable l
  | PDict d => forallb (fun kv => encodable (fst kv) && text_encodable (snd kv)) d
  | _ => true
  end.

(** A float the file carries: a NaN as the decoder makes it, an
    infinity, or a float whose [repr] the decoder's number scan reads
    back as the same float (formatting and parsing of floats belong to
    the interpreter, whose [repr] is made to be read back). *)
Definition float_storable {F : FloatLib} (bits : N) : bool :=
  if json.is_nan bits then (bits =? json.nan_bits)%N
  else if ((bits =? json.inf_bits) || (bits =? json.neg_inf_bits))%N then true
  else match json.scan_number (float_repr bits) with
       | Some (PFloat b, []) => (b =? bits)%N
       | _ => false
       end.

(** The values the round trip is stated for: integers that
    [int.__repr__] converts (fewer than 4301 digits), floats as above,
    text that UTF-8 encodes, and dictionaries whose keys are pairwise
    different, as Python's are. *)
Fixpoint storable {F : FloatLib} (v : pyval) : bool :=
  match v with
  | PNone | PBool _ => true
  | PInt z => (Z.abs z <? 10 ^ 4300)%Z
  | PFloat bits => float_storable bits
  | PStr s => encodable s
  | PList l => forallb storable l
  | PDict d =>
      unique_keys d
      && forallb (fun kv => let '(k, x) := kv in encodable k && storable x) d
  end.

(** The decoder above in the role of [json.loads] (the messages of its
    exceptions are abbreviated). *)
Definition python_json {F : FloatLib} : JsonLib := {| json_loads := json.loads |}.

(** A float library for data without floats, where it is never
    consulted. *)
Definition no_floats : FloatLib :=
  {| float_repr := fun _ => lit "nan";
     float_of_literal := fun _ => 0x7FF8000000000000%N |}.

(** The interpreter's formatting and parsing of the floats of the
    examples, 97.5 and 0.0. *)
Definition example_floats : FloatLib :=
  {| float_repr := fun bits =>
       if (bits =? 0x4058600000000000)%N then lit "97.5" else lit "0.0";
     float_of_literal := fun text =>
       if str_eqb text (lit "97.5") then 0x4058600000000000%N else 0%N |}.

(** A string literal between double quotes. *)
Definition quoted (s : string) : str := 34%N :: lit s ++ [34%N].

(* ================================================================= *)
(** * Notions used in the statements *)

Section ScoreOfLine.
Context {U : UnicodeTables}.
Import english_to_korean_evaluator.

(** A word is taken as the score when it passes the test of the loop
    and [int] accepts it. *)
Definition word_score (word : str) : option Z :=
  if is_score_word word
  then match py_int (rstrip_chr 37%N word) with
       | Return n => Some n
       | Raise _ => None
       end
  else None.

(** The score a line of the answer yields, if it yields one: the line
    mentions "score" or "compliance" together with a digit, and the
    score is that of its first word that has one. *)
Definition line_score (raw : str) : option Z :=
  if mentions_score (strip raw)
  then match filter (fun w => match word_score w with Some _ => true | None => false end)
                    (split_ws (strip raw)) with
       | w :: _ => word_score w
       | [] => None
       end
  else None.

(** The score and the flag held by the scan, and what a line does to
    them. *)
Definition score_state (st : extraction) : Z * bool :=
  (compliance_score st, compliant st).

Definition step_score (acc : Z * bool) (raw : str) : Z * bool :=
  match line_score raw with
  | Some n => (n, (80 <=? n)%Z)
  | None => acc
  end.

End ScoreOfLine.

(** The score of a record is an integer that is not negative. *)
Definition score_nonneg (ev : dict) : Prop :=
  exists z, dict_find ev (lit "overall_score") = Some (PInt z) /\ (0 <= z)%Z.


(** What may follow a number without being read as part of it. *)
Definition number_safe (rest : str) : bool :=
  match rest with
  | [] => true
  | c :: _ => negb (ascii_isdigit c) && negb (c =? 46)%N
              && negb (c =? 101)%N && negb (c =? 69)%N
  end.


(** The characters of a JSON number. *)
Definition number_char (c : char) : bool :=
  ascii_isdigit c || (c =? 46)%N || (c =? 101)%N || (c =? 69)%N
  || (c =? 43)%N || (c =? 45)%N.


(** The sign of an exponent and the text after it. *)
Definition exponent_sign (s1 : str) : str * str :=
  match s1 with
  | g :: s2 => if ((g =? 43) || (g =? 45))%N then ([g], s2) else ([], s1)
  | [] => ([], s1)
  end.

(** [scan_number] with the sign taken off. *)
Definition scan_unsigned {F : FloatLib} (negative : bool) (s0 : str) : option (pyval * str) :=
  match json.scan_int_part s0 with
  | None => None
  | Some (int_part, r0) =>
      let '(fraction, r1) := json.scan_fraction r0 in
      let '(exponent, r2) := json.scan_exponent r1 in
      match fraction ++ exponent with
      | [] =>
          let n := Z.of_N (json.digits_to_N 0 int_part) in
          Some (PInt (if negative then (- n)%Z else n), r2)
      | _ =>
          Some (PFloat (float_of_literal
                          ((if negative then [45%N] else []) ++ int_part
                             ++ fraction ++ exponent)), r2)
      end
  end.


(** The first character of an encoded value. *)
Definition value_start (c : char) : bool :=
  ascii_isdigit c
  || (c =? 45)%N || (c =? 34)%N || (c =? 91)%N || (c =? 123)%N
  || (c =? 110)%N || (c =? 116)%N || (c =? 102)%N
  || (c =? 78)%N || (c =? 73)%N.


(** A character that passes through the file unchanged: not a
    carriage return, and within what UTF-8 encodes. *)
Definition plain_char (c : char) : bool :=
  negb (c =? 13)%N && ((c <? 0x110000)%N && negb (utf8.is_surrogate c)).


Section Scans.
Context {F : FloatLib}.
Import json.

(** A value is read back from its encoding, whatever follows it. *)
Definition scans (v : pyval) : Prop :=
  forall (level fuel : nat) (rest : str),
    storable v = true ->
    (length (encode level v) <= fuel)%nat ->
    number_safe rest = true ->
    scan_once fuel (encode level v ++ rest) = Some (v, rest).

End Scans.

(** The call of the model that [name_evaluator] makes for [name] when
    it has no Teamwork matches to show. *)
Definition call_without_context (name : str) : event :=
  Llm {| chain := "korean_to_english_evaluator.evaluation_prompt|llm";
         variables := [("name", name);
                       ("teamwork_context", korean_to_english_evaluator.no_previous)] |}.

(** A record for [name] whose [teamwork_verification] is the flag. *)
Definition carries_flag (flag : bool) (name : str) (r : pyval) : Prop :=
  exists d, r = PDict d
            /\ dict_find d (lit "name") = Some (PStr name)
            /\ dict_find d (lit "teamwork_verification") = Some (PBool flag).

(** A record for [name]. *)
Definition entry_for (name : str) (r : pyval) : Prop :=
  exists d, r = PDict d /\ dict_find d (lit "name") = Some (PStr name).

(* ================================================================= *)
(** ** Worlds for the examples *)

(** The name a call of the model is about. *)
Definition call_name (c : llm_call) : str :=
  match find (fun kv => String.eqb (fst kv) "name") (variables c) with
  | Some kv => snd kv
  | None => []
  end.

(** A world given by the answers of the model and of the Teamwork
    service and by the Teamwork key of the environment; every write
    succeeds, tracing is not installed, the Teamwork module is. *)
Definition world (text : llm_call -> outcome str)
           (structured : llm_call -> outcome chain_value)
           (get : endpoint -> outcome response)
           (teamwork_key : option str) : Outside :=
  {| llm_text := fun _ => text;
     llm_structured := fun _ => structured;
     requests_get := fun _ => get;
     perform := fun _ _ => Return tt;
     read_lines := fun _ _ => Return [];
     LANGSMITH_AVAILABLE := false;
     available_local_resources := 0;
     mean_score := fun _ => Return 0%Z;
     openai_client := Return tt;
     environ := fun k => if String.eqb k "TEAMWORK_API_KEY" then teamwork_key else None;
     TEAMWORK_AVAILABLE := true;
     format_value := fun v => match v with PStr s => s | _ => [] end |}.

Definition connection_error : exn := mk_exn ConnectionError "Connection error.".

Definition no_network : endpoint -> outcome response :=
  fun _ => Raise connection_error.

(** The model answers every call with [answer]; structured extraction
    is refused, so that the plain answer is used. *)
Definition answering (answer : str) : Outside :=
  world (fun _ => Return answer)
        (fun _ => Raise (mk_exn ValueError "no structured output"))
        no_network None.

(** The model cannot be reached for the name [bad] and answers
    [answer] for every other name. *)
Definition unreachable_for (bad answer : str) : Outside :=
  world (fun c => if str_eqb (call_name c) bad
                  then Raise connection_error else Return answer)
        (fun c => if str_eqb (call_name c) bad
                  then Raise connection_error
                  else Return (Model [ (lit "name", PStr (call_name c));
                                       (lit "compliant", PBool true);
                                       (lit "overall_score", PInt 90) ]))
        no_network None.

(** Teamwork answers every request with the status [code] and no
    usable body. *)
Definition teamwork_status (code : Z) : Outside :=
  world (fun _ => Return [])
        (fun _ => Raise (mk_exn ValueError "no structured output"))
        (fun _ => Return {| status_code := code;
                            json := Raise (mk_exn JSONDecodeError "Expecting value") |})
        (Some (lit "twp_key")).

(** Teamwork lists one project and fails with status 500 on its
    tasks. *)
Definition tasks_unavailable : Outside :=
  world (fun _ => Return [])
        (fun _ => Raise (mk_exn ValueError "no structured output"))
        (fun e => match e with
                  | ProjectTasksJson _ _ =>
                      Return {| status_code := 500;
                                json := Raise (mk_exn JSONDecodeError "Expecting value") |}
                  | _ =>
                      Return {| status_code := 200;
                                json := Return (PDict
                                  [ (lit "projects",
                                     PList [PDict [ (lit "id", PStr (lit "101"));
                                                    (lit "name", PStr (lit "Names")) ]]) ]) |}
                  end)
        (Some (lit "twp_key")).

(* ================================================================= *)
(** ** Notions used in the further statements *)

(** A name the detector classifies as Korean. *)
Definition detects_korean (name : str) : bool :=
  match name_eval_system.detect_language name with
  | Return ko => true
  | _ => false
  end.

(** A record that the summaries count as compliant:
    [r.get("compliant", False)] is true. *)
Definition judged_compliant (r : pyval) : Prop :=
  exists c, py_get r (lit "compliant") (PBool false) = Return c /\ truthy c = true.

(** An entry of [evaluate_english_names] for [name]: a record about
    the name which either has no error string, or has one and is then
    not compliant with the score 0. *)
Definition english_entry (name : str) (r : pyval) : Prop :=
  exists d,
    r = PDict d
    /\ dict_find d (lit "name") = Some (PStr name)
    /\ (dict_find d (lit "error") = None
        \/ exists msg, dict_find d (lit "error") = Some (PStr msg)
                       /\ dict_find d (lit "compliant") = Some (PBool false)
                       /\ dict_find d (lit "overall_score") = Some (PInt 0)).

(** A task that mentions [query] in its content or its description,
    whatever the case of the letters, and that names its project. *)
Definition task_mentions {U : UnicodeTables} (query : str) (task : pyval) : Prop :=
  exists d content description,
    task = PDict d
    /\ dict_get d (lit "content") (PStr []) = PStr content
    /\ dict_get d (lit "description") (PStr []) = PStr description
    /\ contains (py_lower query) (py_lower content)
       || contains (py_lower query) (py_lower description) = true
    /\ dict_has d (lit "projectName") = true.

(** A computation that adds nothing but requests to the trace. *)
Definition only_requests {A : Type} (m : M A) : Prop :=
  forall t, exists es, snd (m t) = t ++ map HttpGet es.

(** Teamwork lists one project with two tasks, one of which mentions
    "김지원". *)
Definition teamwork_with_task : Outside :=
  world (fun _ => Return (lit "Compliance score: 92"))
        (fun _ => Raise (mk_exn ValueError "no structured output"))
        (fun e => match e with
                  | ProjectTasksJson _ _ =>
                      Return {| status_code := 200;
                                json := Return (PDict
                                  [ (lit "todo-items",
                                     PList [ PDict [ (lit "id", PStr (lit "7"));
                                                     (lit "content",
                                                      PStr ([0xAE40; 0xC9C0; 0xC6D0]%N
                                                              ++ lit " (Kim Ji-won)"));
                                                     (lit "description", PStr []) ];
                                             PDict [ (lit "id", PStr (lit "8"));
                                                     (lit "content", PStr (lit "Budget"));
                                                     (lit "description", PStr []) ] ]) ]) |}
                  | _ =>
                      Return {| status_code := 200;
                                json := Return (PDict
                                  [ (lit "projects",
                                     PList [PDict [ (lit "id", PStr (lit "101"));
                                                    (lit "name", PStr (lit "Names")) ]]) ]) |}
                  end)
        (Some (lit "twp_key")).

(** A clock that always shows the same time. *)
Definition fixed_clock : real_person_name_verifier.Clock :=
  {| real_person_name_verifier.now_isoformat := fun _ => lit "2025-01-01T09:00:00" |}.

(** A world like [w] in which every file of names has the lines
    [lines]. *)
Definition with_file (lines : list str) (w : Outside) : Outside :=
  {| llm_text := @llm_text w;
     llm_structured := @llm_structured w;
     requests_get := @requests_get w;
     perform := @perform w;
     read_lines := fun _ _ => Return lines;
     LANGSMITH_AVAILABLE := @LANGSMITH_AVAILABLE w;
     available_local_resources := @available_local_resources w;
     mean_score := @mean_score w;
     openai_client := @openai_client w;
     environ := @environ w;
     TEAMWORK_AVAILABLE := @TEAMWORK_AVAILABLE w;
     format_value := @format_value w |}.

(** The pattern of a literal given by its characters, and the loop of
    a repetition, named so that statements can speak of them; [re_lit]
    and [re_run] are these by computation. *)
Definition lit_re (p : str) : re :=
  fold_right (fun c r => Seq (Chr (chr_eqb c)) r) Eps p.

Definition star_loop (A : Type) (greedy : bool) (a : re)
           (k : str -> option str -> option A)
  : nat -> str -> option str -> option A :=
  fix loop (fuel : nat) (s : str) (cap : option str) {struct fuel} : option A :=
    match fuel with
    | O => k s cap
    | S fuel' =>
        let again (_ : unit) :=
          re_run a s cap
            (fun s' cap' =>
               if (length s' <? length s)%nat then loop fuel' s' cap' else None) in
        if greedy
        then match again tt with Some x => Some x | None => k s cap end
        else match k s cap with Some x => Some x | None => again tt end
    end.

(* ################################################################# *)
(** * Properties *)

(* ================================================================= *)
(** ** Text *)

Lemma str_eqb_eq (a b : str) : str_eqb a b = true <-> a = b.
Proof.
  revert b; induction a as [|x a IH]; intros [|y b]; simpl; split; intro H;
    try reflexivity; try discriminate.
  - apply andb_true_iff in H as [Hx Hr].
    apply N.eqb_eq in Hx. apply IH in Hr. now subst.
  - injection H as -> ->. apply andb_true_iff; split.
    + apply N.eqb_refl.
    + now apply IH.
Qed.

Lemma str_eqb_refl (a : str) : str_eqb a a = true.
Proof. now apply str_eqb_eq. Qed.

Lemma str_eqb_neq (a b : str) : str_eqb a b = false <-> a <> b.
Proof.
  split.
  - intros H E. apply str_eqb_eq in E. congruence.
  - intro H. destruct (str_eqb a b) eqn:E; [|reflexivity].
    apply str_eqb_eq in E. contradiction.
Qed.

(* ================================================================= *)
(** ** Language detection *)

Section Detection.
Import name_eval_system.

Lemma korean_chars_le (name : str) :
  (korean_chars name <= N.of_nat (length name))%N.
Proof.
  unfold korean_chars. pose proof (filter_length_le is_hangul name). lia.
Qed.

Lemma korean_chars_all (name : str) :
  forallb is_hangul name = true -> korean_chars name = N.of_nat (length name).
Proof.
  intro H. unfold korean_chars. f_equal.
  induction name as [|c name IH]; simpl in *; [reflexivity|].
  apply andb_true_iff in H as [Hc Hn]. rewrite Hc. simpl. now rewrite IH.
Qed.

Lemma ascii_letter_not_hangul (c : char) :
  is_ascii_letter c = true -> is_hangul c = false.
Proof.
  unfold is_ascii_letter, is_hangul. intro H.
  apply andb_false_iff. left. apply N.leb_gt.
  apply orb_true_iff in H as [H|H]; apply andb_true_iff in H as [_ H];
    apply N.leb_le in H; lia.
Qed.

Lemma korean_chars_none (name : str) :
  forallb is_ascii_letter name = true -> korean_chars name = 0%N.
Proof.
  intro H. unfold korean_chars.
  induction name as [|c name IH]; simpl in *; [reflexivity|].
  apply andb_true_iff in H as [Hc Hn].
  rewrite (ascii_letter_not_hangul _ Hc). now apply IH.
Qed.

(** The verdict as a function of the two counts. *)
Lemma detect_language_counts (name : str) :
  name <> [] ->
  detect_language name =
    Return (if (14411518807585589 * N.of_nat (length name)
                <? korean_chars name * 2 ^ 56)%N then ko else en).
Proof.
  intro Hne. unfold detect_language, truediv_gt_0_2.
  destruct name as [|c name]; [contradiction|].
  replace (N.of_nat (length (c :: name)) =? 0)%N with false
    by (symmetry; apply N.eqb_neq; simpl length; lia).
  now destruct (_ <? _)%N.
Qed.

Lemma threshold_exact (k n : N) :
  (0 < n)%N -> (k <= n)%N -> (n < 2 ^ 52)%N ->
  (14411518807585589 * n <? k * 2 ^ 56)%N = (n <? 5 * k)%N.
Proof.
  intros Hn Hk Hb.
  change (2 ^ 52)%N with 4503599627370496%N in Hb.
  change (2 ^ 56)%N with 72057594037927936%N.
  destruct (n <? 5 * k)%N eqn:E.
  - apply N.ltb_lt in E. apply N.ltb_lt. lia.
  - apply N.ltb_ge in E. apply N.ltb_ge. lia.
Qed.

End Detection.

(** C1 (the code contradicts the claim).  For the empty name both
    copies of [detect_language] raise [ZeroDivisionError]: there is no
    guard and no default to English, and [auto_detect_names] lets the
    exception through. *)
Theorem detect_language_empty_raises :
  name_eval_system.detect_language []
    = Raise (mk_exn ZeroDivisionError "division by zero")
  /\ real_person_name_verifier.detect_language []
    = Raise (mk_exn ZeroDivisionError "division by zero")
  /\ forall others,
       name_eval_system.auto_detect_names ([] :: others)
         = Raise (mk_exn ZeroDivisionError "division by zero").
Proof. repeat split. Qed.

(** C6.  A non-empty name made of Hangul syllables only is Korean, a
    non-empty name made of ASCII letters only is English, and a
    non-empty name (of fewer than 2^52 characters, where the rounding
    of the quotient cannot matter) is Korean exactly when more than a
    fifth of its characters are Hangul syllables.  Both copies of the
    detector agree. *)
Theorem detect_language_classifies (name : str) :
  name <> [] ->
  (forallb is_hangul name = true ->
   name_eval_system.detect_language name = Return ko)
  /\ (forallb is_ascii_letter name = true ->
      name_eval_system.detect_language name = Return en)
  /\ ((N.of_nat (length name) < 2 ^ 52)%N ->
      (name_eval_system.detect_language name = Return ko
       <-> (N.of_nat (length name) < 5 * name_eval_system.korean_chars name)%N)
      /\ (name_eval_system.detect_language name = Return en
          <-> (5 * name_eval_system.korean_chars name <= N.of_nat (length name))%N))
  /\ real_person_name_verifier.detect_language name
     = name_eval_system.detect_language name.
Proof.
  intro Hne.
  assert (Hpos : (0 < N.of_nat (length name))%N)
    by (destruct name; [contradiction | simpl length; lia]).
  rewrite (detect_language_counts Hne).
  repeat split.
  - intro H. rewrite (korean_chars_all _ H).
    replace (_ <? _)%N with true; [reflexivity|].
    symmetry. apply N.ltb_lt.
    change (2 ^ 56)%N with 72057594037927936%N. lia.
  - intro H. rewrite (korean_chars_none _ H).
    replace (_ <? _)%N with false; [reflexivity|].
    symmetry. apply N.ltb_ge. lia.
  - rewrite (threshold_exact Hpos (korean_chars_le name) H).
    destruct (_ <? _)%N eqn:E; [now apply N.ltb_lt in E | discriminate].
  - rewrite (threshold_exact Hpos (korean_chars_le name) H).
    intro L. now apply N.ltb_lt in L as ->.
  - rewrite (threshold_exact Hpos (korean_chars_le name) H).
    destruct (_ <? _)%N eqn:E; [discriminate|]. now apply N.ltb_ge in E.
  - rewrite (threshold_exact Hpos (korean_chars_le name) H).
    intro L. now apply N.ltb_ge in L as ->.
  - rewrite <- (detect_language_counts Hne). reflexivity.
Qed.

(** "김지원" is Korean, "John" is English, and "Kim 김" (one syllable
    in five characters) is English. *)
Lemma detect_language_classifies_witness :
  name_eval_system.detect_language [0xAE40; 0xC9C0; 0xC6D0]%N = Return ko
  /\ name_eval_system.detect_language (lit "John") = Return en
  /\ (name_eval_system.detect_language (lit "Kim " ++ [0xAE40%N]) = Return en
      <-> (5 * name_eval_system.korean_chars (lit "Kim " ++ [0xAE40%N])
           <= N.of_nat (length (lit "Kim " ++ [0xAE40%N])))%N).
Proof.
  split; [|split].
  - destruct (detect_language_classifies (name := [0xAE40; 0xC9C0; 0xC6D0]%N))
      as (H & _); [discriminate|].
    apply H. reflexivity.
  - destruct (detect_language_classifies (name := lit "John"))
      as (_ & H & _); [discriminate|].
    apply H. reflexivity.
  - destruct (detect_language_classifies (name := lit "Kim " ++ [0xAE40%N]))
      as (_ & _ & H & _); [discriminate|].
    apply H. vm_compute. reflexivity.
Defined.

(* ================================================================= *)
(** ** The line scan of [evaluate_english_name] *)

Section LineScan.
Context {U : UnicodeTables}.
Import english_to_korean_evaluator.

Lemma py_int_nonneg (s : str) (n : Z) : py_int s = Return n -> (0 <= n)%Z.
Proof.
  unfold py_int. destruct s; [discriminate|].
  destruct (digits_value _ _); [|discriminate].
  intros [= <-]. lia.
Qed.

Lemma word_score_nonneg (w : str) (n : Z) : word_score w = Some n -> (0 <= n)%Z.
Proof.
  unfold word_score. destruct (is_score_word w); [|discriminate].
  destruct (py_int _) eqn:E; [|discriminate].
  intros [= <-]. eapply py_int_nonneg; eassumption.
Qed.

Lemma scan_words_cons (w : str) (words : list str) (st : extraction) :
  score_state (scan_words (w :: words) st) =
    match word_score w with
    | Some n => (n, (80 <=? n)%Z)
    | None => score_state (scan_words words st)
    end.
Proof.
  simpl. unfold word_score.
  destruct (is_score_word w); [|reflexivity].
  now destruct (py_int _).
Qed.

Lemma scan_words_state (words : list str) (st : extraction) :
  score_state (scan_words words st) =
    match filter (fun w => match word_score w with Some _ => true | None => false end)
                 words with
    | w :: _ => match word_score w with
                | Some n => (n, (80 <=? n)%Z)
                | None => score_state st
                end
    | [] => score_state st
    end.
Proof.
  induction words as [|w words IH]; [reflexivity|].
  rewrite scan_words_cons. simpl filter.
  destruct (word_score w) eqn:E; [now rewrite E | exact IH].
Qed.

Lemma scan_words_keeps (words : list str) (st : extraction) :
  korean_notation (scan_words words st) = korean_notation st
  /\ verification_process (scan_words words st) = verification_process st
  /\ recommendations (scan_words words st) = recommendations st
  /\ sources (scan_words words st) = sources st.
Proof.
  induction words as [|w words IH]; simpl; [now repeat split|].
  destruct (is_score_word w); [|exact IH].
  destruct (py_int _); [now repeat split | exact IH].
Qed.

Lemma extract_notation_state (line : str) (following : list str) (st : extraction) :
  score_state (extract_notation line following st) = score_state st.
Proof.
  unfold extract_notation.
  destruct (_ && _); [|reflexivity].
  destruct (contains _ _).
  - now destruct (snd _).
  - destruct following as [|next ?]; [reflexivity|].
    now destruct (existsb _ _).
Qed.

Lemma scan_line_state (raw : str) (following : list str) (st : extraction) :
  score_state (scan_line raw following st) = step_score (score_state st) raw.
Proof.
  unfold scan_line, step_score, line_score, extract_score.
  change (score_state (extract_lists ?l ?f ?x)) with (score_state x).
  destruct (mentions_score (strip raw)).
  - rewrite scan_words_state, extract_notation_state.
    destruct (filter _ _) as [|w ws]; [reflexivity|].
    now destruct (word_score w).
  - apply extract_notation_state.
Qed.

(** The score and the flag after the scan: the last line that yields a
    score decides. *)
Lemma scan_lines_state (lines : list str) (st : extraction) :
  score_state (scan_lines lines st) = fold_left step_score lines (score_state st).
Proof.
  revert st. induction lines as [|raw following IH]; intro st; simpl; [reflexivity|].
  now rewrite IH, scan_line_state.
Qed.

Lemma fold_step_score_none (post : list str) (acc : Z * bool) :
  Forall (fun l => line_score l = None) post ->
  fold_left step_score post acc = acc.
Proof.
  intro H. revert acc. induction H as [|l post Hl _ IH]; intro acc; simpl; [reflexivity|].
  unfold step_score at 2. rewrite Hl. apply IH.
Qed.

Lemma fold_step_score_last (pre post : list str) (raw : str) (n : Z) (acc : Z * bool) :
  line_score raw = Some n ->
  Forall (fun l => line_score l = None) post ->
  fold_left step_score (pre ++ raw :: post) acc = (n, (80 <=? n)%Z).
Proof.
  intros Hraw Hpost. rewrite fold_left_app. simpl.
  rewrite (fold_step_score_none _ Hpost).
  unfold step_score. now rewrite Hraw.
Qed.

Lemma line_score_nonneg (raw : str) (n : Z) : line_score raw = Some n -> (0 <= n)%Z.
Proof.
  unfold line_score. destruct (mentions_score _); [|discriminate].
  destruct (filter _ _) as [|w ws]; [discriminate|].
  apply word_score_nonneg.
Qed.

Lemma fold_step_score_nonneg (lines : list str) (acc : Z * bool) :
  (0 <= fst acc)%Z -> (0 <= fst (fold_left step_score lines acc))%Z.
Proof.
  revert acc. induction lines as [|l lines IH]; intros acc H; simpl; [exact H|].
  apply IH. unfold step_score.
  destruct (line_score l) eqn:E; [|exact H].
  simpl. eapply line_score_nonneg; eassumption.
Qed.

(** What [line_score] means: the first word of the line that is
    numeric or numeric-percent and that [int] converts. *)
Lemma line_score_first_word (raw : str) (n : Z) :
  line_score raw = Some n <->
  mentions_score (strip raw) = true
  /\ exists before word after,
       split_ws (strip raw) = before ++ word :: after
       /\ is_score_word word = true
       /\ py_int (rstrip_chr 37%N word) = Return n
       /\ Forall (fun w => is_score_word w = false
                           \/ exists e, py_int (rstrip_chr 37%N w) = Raise e) before.
Proof.
  unfold line_score. destruct (mentions_score (strip raw)).
  2:{ split; [discriminate | intros [? _]; discriminate]. }
  generalize (split_ws (strip raw)) as words. intro words.
  split.
  - intro H. split; [reflexivity|].
    induction words as [|w words IH]; simpl in H; [discriminate|].
    destruct (word_score w) eqn:E.
    + rewrite E in H. injection H as ->.
      exists [], w, words. unfold word_score in E.
      destruct (is_score_word w); [|discriminate].
      destruct (py_int _) eqn:Ei; [|discriminate].
      repeat split; try constructor. congruence.
    + destruct (IH H) as (before & word & after & -> & Hw & Hi & Hb).
      exists (w :: before), word, after. repeat split; try assumption.
      constructor; [|assumption].
      unfold word_score in E. destruct (is_score_word w); [|now left].
      destruct (py_int _) eqn:Ei; [discriminate|]. right. eauto.
  - intros [_ (before & word & after & -> & Hw & Hi & Hb)].
    assert (Ew : word_score word = Some n)
      by (unfold word_score; now rewrite Hw, Hi).
    induction Hb as [|w before Hwb _ IH]; cbn [app filter].
    + now rewrite Ew.
    + assert (E : word_score w = None).
      { unfold word_score. destruct Hwb as [-> | [e ->]]; [reflexivity|].
        now destruct (is_score_word w). }
      rewrite E. exact IH.
Qed.

End LineScan.

(** C4 (as amended).  The lines "Compliance score: 92" and
    "Compliance: 45%" yield the scores 92 and 45.  When a line of the
    answer yields a score and no later line yields one, that score is
    the extracted [overall_score], and [compliant] says whether it is
    at least 80.  A line yields the score of its first
    whitespace-delimited word that is numeric or numeric-percent and
    that [int] converts, provided the line mentions "score" or
    "compliance" together with a digit. *)
Theorem last_scoring_line_sets_score (U : UnicodeTables) :
  line_score (lit "Compliance score: 92") = Some 92%Z
  /\ line_score (lit "Compliance: 45%") = Some 45%Z
  /\ (forall (response : str) (pre post : list str) (raw : str) (n : Z),
        split_on 10%N response = pre ++ raw :: post ->
        line_score raw = Some n ->
        Forall (fun l => line_score l = None) post ->
        let x := english_to_korean_evaluator.parse_evaluation response in
        english_to_korean_evaluator.compliance_score x = n
        /\ english_to_korean_evaluator.compliant x = (80 <=? n)%Z)
  /\ (forall (raw : str) (n : Z),
        line_score raw = Some n <->
        english_to_korean_evaluator.mentions_score (strip raw) = true
        /\ exists before word after,
             split_ws (strip raw) = before ++ word :: after
             /\ english_to_korean_evaluator.is_score_word word = true
             /\ py_int (rstrip_chr 37%N word) = Return n
             /\ Forall (fun w => english_to_korean_evaluator.is_score_word w = false
                                 \/ exists e, py_int (rstrip_chr 37%N w) = Raise e)
                       before).
Proof.
  split; [vm_compute; reflexivity|].
  split; [vm_compute; reflexivity|].
  split; [|apply line_score_first_word].
  intros response pre post raw n Hlines Hraw Hpost x.
  pose proof (scan_lines_state (split_on 10%N response)
                               english_to_korean_evaluator.initial) as H.
  rewrite Hlines, (fold_step_score_last pre raw _ Hraw Hpost) in H.
  unfold score_state in H. rewrite <- Hlines in H.
  now injection H.
Qed.

(** An answer of three lines whose second line is the only one with a
    score: 92 and compliant; and the same with 45%: not compliant. *)
Lemma last_scoring_line_sets_score_witness :
  (let x := @english_to_korean_evaluator.parse_evaluation plain_tables
              (lit "Evaluation" ++ [10%N] ++ lit "Compliance score: 92"
                 ++ [10%N] ++ lit "Thank you.") in
   english_to_korean_evaluator.compliance_score x = 92%Z
   /\ english_to_korean_evaluator.compliant x = true)
  /\ (let x := @english_to_korean_evaluator.parse_evaluation plain_tables
                 (lit "Evaluation" ++ [10%N] ++ lit "Compliance: 45%"
                    ++ [10%N] ++ lit "Thank you.") in
      english_to_korean_evaluator.compliance_score x = 45%Z
      /\ english_to_korean_evaluator.compliant x = false).
Proof.
  destruct (last_scoring_line_sets_score plain_tables) as (_ & _ & H & _).
  split.
  - apply (H _ [lit "Evaluation"] [lit "Thank you."] (lit "Compliance score: 92") 92%Z);
      [reflexivity | reflexivity | repeat constructor].
  - apply (H _ [lit "Evaluation"] [lit "Thank you."] (lit "Compliance: 45%") 45%Z);
      [reflexivity | reflexivity | repeat constructor].
Defined.

(** C4 as stated fails: an answer that contains the line "Compliance
    score: 92" followed by "Romanization score: 70 / 100" gets the
    score 70 and is not compliant, because every later line that
    yields a score overwrites the earlier one. *)
Lemma score_line_overwritten_by_later_line :
  ~ (forall (U : UnicodeTables) (response : str),
       In (lit "Compliance score: 92") (split_on 10%N response) ->
       let x := english_to_korean_evaluator.parse_evaluation response in
       english_to_korean_evaluator.compliance_score x = 92%Z
       /\ english_to_korean_evaluator.compliant x = true).
Proof.
  intro H.
  specialize (H plain_tables
                (lit "Compliance score: 92" ++ [10%N]
                   ++ lit "Romanization score: 70 / 100")).
  destruct H as [H _]; [left; reflexivity|].
  vm_compute in H. discriminate.
Qed.

(* ================================================================= *)
(** ** Dictionaries *)

Lemma dict_find_set (d : dict) (k k' : str) (v : pyval) :
  dict_find (dict_set d k v) k' =
    if str_eqb k k' then Some v else dict_find d k'.
Proof.
  induction d as [|[k0 v0] d IH]; simpl; [reflexivity|].
  destruct (str_eqb k0 k) eqn:E0; simpl.
  - apply str_eqb_eq in E0. subst k0. now destruct (str_eqb k k').
  - rewrite IH. destruct (str_eqb k0 k') eqn:E1; [|reflexivity].
    apply str_eqb_eq in E1. subst k0. apply str_eqb_neq in E0.
    replace (str_eqb k k') with false; [reflexivity|].
    symmetry. apply str_eqb_neq. congruence.
Qed.

Lemma dict_find_set_same (d : dict) (k : str) (v : pyval) :
  dict_find (dict_set d k v) k = Some v.
Proof. now rewrite dict_find_set, str_eqb_refl. Qed.

Lemma dict_find_set_other (d : dict) (k k' : str) (v : pyval) :
  str_eqb k k' = false -> dict_find (dict_set d k v) k' = dict_find d k'.
Proof. intro H. now rewrite dict_find_set, H. Qed.

(* ================================================================= *)
(** ** The response interpreter of [name_evaluator] *)

Section Interpreter.
Context {U : UnicodeTables} {J : JsonLib}.
Import korean_to_english_evaluator.

Lemma append_note_find (ev : dict) (s k : str) :
  str_eqb (lit "notes") k = false ->
  dict_find (append_note ev s) k = dict_find ev k.
Proof.
  intro H. unfold append_note.
  destruct (dict_find ev (lit "notes")) as [[]|]; try reflexivity.
  now apply dict_find_set_other.
Qed.

Lemma set_from_match_cases (r : re) (text : str) (key : string)
      (conv : str -> outcome pyval) (ev : dict) :
  fst (set_from_match r text key conv ev) = ev
  \/ exists g v, conv g = Return v
                 /\ set_from_match r text key conv ev = (dict_set ev (lit key) v, None).
Proof.
  unfold set_from_match.
  destruct (re_search r text) as [[g|]|]; try (now left).
  destruct (conv g) eqn:E; [right; eauto | now left].
Qed.

(** What holds before the regex fallback and is kept by each of its
    assignments holds after it. *)
Lemma regex_fallback_keeps (Q : dict -> Prop) :
  (forall ev s, Q ev -> Q (append_note ev s)) ->
  (forall ev s, Q ev -> Q (dict_set ev (lit "english_notation") (PStr s))) ->
  (forall ev b, Q ev -> Q (dict_set ev (lit "compliant") (PBool b))) ->
  (forall ev g z, py_int g = Return z ->
                  Q ev -> Q (dict_set ev (lit "overall_score") (PInt z))) ->
  forall ev text, Q ev -> Q (regex_fallback ev text).
Proof.
  intros Hnote Heng Hcomp Hscore ev text H0.
  unfold regex_fallback, regex_error.
  assert (H1 : Q (fst (set_from_match english_re text "english_notation"
                         (fun g => Return (PStr (strip g))) ev))).
  { destruct (set_from_match_cases english_re text "english_notation"
                (fun g => Return (PStr (strip g))) ev) as [-> | (g & v & Hc & ->)];
      [assumption|].
    injection Hc as <-. simpl. now apply Heng. }
  destruct (set_from_match english_re _ _ _ _) as [ev1 [e|]]; simpl in H1;
    [now apply Hnote|].
  assert (H2 : Q (fst (set_from_match compliant_re text "compliant"
                         (fun g => Return (PBool (str_eqb (py_lower g) (lit "true"))))
                         ev1))).
  { destruct (set_from_match_cases compliant_re text "compliant"
                (fun g => Return (PBool (str_eqb (py_lower g) (lit "true")))) ev1)
      as [-> | (g & v & Hc & ->)]; [assumption|].
    injection Hc as <-. simpl. now apply Hcomp. }
  destruct (set_from_match compliant_re _ _ _ _) as [ev2 [e|]]; simpl in H2;
    [now apply Hnote|].
  assert (H3 : Q (fst (set_from_match score_re text "overall_score"
                         (fun g => z <~ py_int g ;; Return (PInt z)) ev2))).
  { destruct (set_from_match_cases score_re text "overall_score"
                (fun g => z <~ py_int g ;; Return (PInt z)) ev2)
      as [-> | (g & v & Hc & ->)]; [assumption|].
    destruct (py_int g) eqn:Ei; simpl in Hc; [|discriminate].
    injection Hc as <-. simpl. eapply Hscore; eassumption. }
  destruct (set_from_match score_re _ _ _ _) as [ev3 [e|]]; simpl in H3;
    [now apply Hnote | assumption].
Qed.

(** The fallback touches four keys only. *)
Lemma regex_fallback_find (ev : dict) (text k : str) :
  str_eqb (lit "notes") k = false ->
  str_eqb (lit "english_notation") k = false ->
  str_eqb (lit "compliant") k = false ->
  str_eqb (lit "overall_score") k = false ->
  dict_find (regex_fallback ev text) k = dict_find ev k.
Proof.
  intros Hn He Hc Hs.
  apply (regex_fallback_keeps (fun ev' => dict_find ev' k = dict_find ev k));
    intros; try reflexivity.
  - now rewrite append_note_find.
  - now rewrite dict_find_set_other.
  - now rewrite dict_find_set_other.
  - now rewrite dict_find_set_other.
Qed.

Lemma regex_fallback_score_nonneg (ev : dict) (text : str) :
  score_nonneg ev -> score_nonneg (regex_fallback ev text).
Proof.
  apply regex_fallback_keeps; unfold score_nonneg.
  - intros ev' s (z & H & Hz). exists z. now rewrite append_note_find.
  - intros ev' s (z & H & Hz). exists z. now rewrite dict_find_set_other.
  - intros ev' b (z & H & Hz). exists z. now rewrite dict_find_set_other.
  - intros ev' g z Hi _. exists z. rewrite dict_find_set_same.
    split; [reflexivity|]. eapply py_int_nonneg; eassumption.
Qed.

(** When the [try] block succeeds, [data] was a dictionary and the
    record is the default one updated with its fields. *)
Lemma parse_json_return (ev : dict) (response_text json_text : str) (d : dict) :
  fenced_json_text response_text = Return json_text ->
  json_loads json_text = Return (PDict d) ->
  exists fields,
    parsed_fields (PDict d) = Return fields
    /\ parse_json ev response_text = Return (dict_update ev fields).
Proof.
  intros Hf Hj. eexists. split; [reflexivity|].
  unfold parse_json. rewrite Hf. simpl. rewrite Hj. reflexivity.
Qed.

(** The [try] block raises exactly when the fence group is missing,
    when [json.loads] raises, or when it returns something that is not
    a dictionary (which has no [get]). *)
Lemma parse_json_raise (ev : dict) (response_text : str) (e : exn) :
  parse_json ev response_text = Raise e <->
  fenced_json_text response_text = Raise e
  \/ exists json_text,
       fenced_json_text response_text = Return json_text
       /\ (json_loads json_text = Raise e
           \/ exists v, json_loads json_text = Return v
                        /\ (forall d, v <> PDict d)
                        /\ e = mk_exn AttributeError "object has no attribute 'get'").
Proof.
  unfold parse_json.
  destruct (fenced_json_text response_text) as [json_text|e0]; simpl.
  2:{ split; [intros [= ->]; now left|].
      intros [[= ->] | (t & [=] & _)]. reflexivity. }
  destruct (json_loads json_text) as [v|e0] eqn:Ej; simpl.
  2:{ split.
      - intros [= ->]. right. exists json_text. split; [reflexivity|now left].
      - intros [[=] | (t & [= <-] & [H | (v & H & _)])]; congruence. }
  split.
  - intro H. right. exists json_text. split; [reflexivity|]. right. exists v.
    split; [exact Ej|].
    destruct v; simpl in H; try (injection H as <-; split; [discriminate|reflexivity]).
    discriminate.
  - intros [[=] | (t & [= <-] & [H | (v' & H & Hnd & ->)])]; [congruence|].
    rewrite Ej in H. injection H as <-.
    destruct v; try reflexivity. now elim (Hnd d).
Qed.

End Interpreter.

(* ================================================================= *)
(** ** The JSON report read back *)

Ltac nbool :=
  repeat match goal with
  | H : (_ <? _)%N = true |- _ => apply N.ltb_lt in H
  | H : (_ <? _)%N = false |- _ => apply N.ltb_ge in H
  | H : (_ <=? _)%N = true |- _ => apply N.leb_le in H
  | H : (_ <=? _)%N = false |- _ => apply N.leb_gt in H
  | H : (_ =? _)%N = true |- _ => apply N.eqb_eq in H
  | H : (_ =? _)%N = false |- _ => apply N.eqb_neq in H
  | H : (_ && _) = true |- _ => apply andb_true_iff in H; destruct H
  | H : (_ || _) = false |- _ => apply orb_false_iff in H; destruct H
  | H : negb _ = true |- _ => apply negb_true_iff in H
  | H : negb _ = false |- _ => apply negb_false_iff in H
  end.

(** Decide the comparisons of a goal by arithmetic. *)
Ltac ncase :=
  repeat match goal with
  | |- context [(?a <? ?b)%N] =>
      let E := fresh "E" in
      destruct (a <? b)%N eqn:E; nbool; try (exfalso; lia)
  | |- context [(?a <=? ?b)%N] =>
      let E := fresh "E" in
      destruct (a <=? b)%N eqn:E; nbool; try (exfalso; lia)
  | |- context [(?a =? ?b)%N] =>
      let E := fresh "E" in
      destruct (a =? b)%N eqn:E; nbool; try (exfalso; lia)
  end.

#[local] Arguments N.add : simpl never.
#[local] Arguments N.mul : simpl never.
#[local] Arguments N.sub : simpl never.
#[local] Arguments N.div : simpl never.
#[local] Arguments N.modulo : simpl never.
#[local] Arguments N.pow : simpl never.
#[local] Arguments N.ltb : simpl never.
#[local] Arguments N.leb : simpl never.
#[local] Arguments N.eqb : simpl never.

Section Numbers.
Import json.

Lemma digits_to_N_app (a : N) (ds1 ds2 : str) :
  digits_to_N a (ds1 ++ ds2) = digits_to_N (digits_to_N a ds1) ds2.
Proof.
  revert a. induction ds1 as [|c ds1 IH]; intro a; simpl; [reflexivity|apply IH].
Qed.

Lemma div10_lt (n x : N) : (n < 2 * x)%N -> (n / 10 < x)%N.
Proof.
  intro H. pose proof (N.Div0.mul_div_le n 10). lia.
Qed.

Lemma isdigit_48 (r : N) : (r < 10)%N -> ascii_isdigit (48 + r)%N = true.
Proof.
  intro H. unfold ascii_isdigit.
  apply andb_true_iff; split; apply N.leb_le; lia.
Qed.

Lemma digits_of_S (f : nat) (n : N) (acc : str) :
  digits_of (S f) n acc =
    if (n <? 10)%N then (48 + n mod 10)%N :: acc
    else digits_of f (n / 10) ((48 + n mod 10)%N :: acc).
Proof. reflexivity. Qed.

Lemma digits_of_small (f : nat) (n : N) (acc : str) :
  (n < 10)%N ->
  exists d ds,
    digits_of (S f) n acc = d :: ds ++ acc
    /\ forallb ascii_isdigit (d :: ds) = true
    /\ (n = 0%N -> d = 48%N /\ ds = [])
    /\ ((0 < n)%N -> (49 <= d)%N)
    /\ digits_to_N 0 (d :: ds) = n.
Proof.
  intro Hn. exists (48 + n)%N, [].
  assert (Hm : (n mod 10 = n)%N) by (apply N.mod_small; lia).
  rewrite digits_of_S, Hm.
  replace (n <? 10)%N with true by (symmetry; apply N.ltb_lt; lia).
  split; [reflexivity|].
  split; [cbn [forallb]; now rewrite isdigit_48|].
  split; [intros ->; now split|].
  split; [lia|].
  cbn [digits_to_N]. lia.
Qed.

(** The digits written for [n]: at least one, all of them digits, no
    leading zero unless [n = 0], and their value is [n]. *)
Lemma digits_of_spec (f : nat) :
  forall (n : N) (acc : str),
    (n < 2 ^ N.of_nat (S f))%N ->
    exists d ds,
      digits_of (S f) n acc = d :: ds ++ acc
      /\ forallb ascii_isdigit (d :: ds) = true
      /\ (n = 0%N -> d = 48%N /\ ds = [])
      /\ ((0 < n)%N -> (49 <= d)%N)
      /\ digits_to_N 0 (d :: ds) = n.
Proof.
  induction f as [|f IH]; intros n acc Hn.
  - change (2 ^ N.of_nat 1)%N with 2%N in Hn. apply digits_of_small. lia.
  - destruct (n <? 10)%N eqn:E; nbool; [now apply digits_of_small|].
    assert (Hq : (n / 10 < 2 ^ N.of_nat (S f))%N).
    { apply div10_lt.
      replace (2 * 2 ^ N.of_nat (S f))%N with (2 ^ N.of_nat (S (S f)))%N; [exact Hn|].
      rewrite (Nat2N.inj_succ (S f)), N.pow_succ_r'. reflexivity. }
    destruct (IH (n / 10)%N ((48 + n mod 10)%N :: acc) Hq)
      as (d & ds & Heq & Hdig & _ & Hpos & Hval).
    assert (Hq0 : (0 < n / 10)%N) by (apply N.div_str_pos; lia).
    pose proof (N.mod_lt n 10 ltac:(lia)) as Hr.
    exists d, (ds ++ [(48 + n mod 10)%N]).
    split.
    { rewrite (digits_of_S (S f)).
      replace (n <? 10)%N with false by (symmetry; apply N.ltb_ge; lia).
      rewrite Heq. cbn [app]. now rewrite <- app_assoc. }
    change (d :: ds ++ [(48 + n mod 10)%N])
      with ((d :: ds) ++ [(48 + n mod 10)%N]).
    split.
    { rewrite forallb_app, Hdig. cbn [forallb andb]. now rewrite isdigit_48. }
    split; [intros ->; cbn in Hq0; lia|].
    split; [intros _; now apply Hpos|].
    rewrite digits_to_N_app, Hval. cbn [digits_to_N].
    pose proof (N.div_mod n 10 ltac:(lia)) as Hdm.
    clear - Hdm Hr. generalize dependent (n / 10)%N.
    generalize dependent (n mod 10)%N. intros. lia.
Qed.

Lemma encode_nat_spec (n : N) :
  exists d ds,
    encode_nat n = d :: ds
    /\ forallb ascii_isdigit (d :: ds) = true
    /\ (n = 0%N -> d = 48%N /\ ds = [])
    /\ ((0 < n)%N -> (49 <= d)%N)
    /\ digits_to_N 0 (d :: ds) = n.
Proof.
  unfold encode_nat.
  destruct (@digits_of_spec (N.to_nat (N.log2 n)) n []) as (d & ds & H & Hr).
  - rewrite Nat2N.inj_succ, N2Nat.id.
    destruct n as [|p]; [reflexivity|].
    apply N.log2_spec. reflexivity.
  - exists d, ds. now rewrite H, app_nil_r.
Qed.

Lemma span_digits_app (ds rest : str) :
  forallb ascii_isdigit ds = true ->
  number_safe rest = true ->
  span_digits (ds ++ rest) = (ds, rest).
Proof.
  intros Hd Hr. induction ds as [|c ds IH]; simpl in *.
  - destruct rest as [|c rest]; [reflexivity|]. simpl in *.
    destruct (ascii_isdigit c); [discriminate|reflexivity].
  - apply andb_true_iff in Hd as [Hc Hd]. rewrite Hc, (IH Hd). reflexivity.
Qed.

Lemma scan_tail_safe (rest : str) :
  number_safe rest = true ->
  scan_fraction rest = ([], rest) /\ scan_exponent rest = ([], rest).
Proof.
  destruct rest as [|c rest]; [now split|].
  cbn [number_safe scan_fraction scan_exponent]. intro H.
  apply andb_true_iff in H as [H He2]. apply andb_true_iff in H as [H He1].
  apply andb_true_iff in H as [_ Hp].
  apply negb_true_iff in Hp, He1, He2. rewrite Hp, He1, He2. now split.
Qed.

End Numbers.

Section Scanning.
Context {F : FloatLib}.
Import json.

Lemma isdigit_range (c : char) :
  ascii_isdigit c = true <-> (48 <= c <= 57)%N.
Proof.
  unfold ascii_isdigit. rewrite andb_true_iff, !N.leb_le. tauto.
Qed.

Lemma scan_int_part_encode_nat (n : N) (rest : str) :
  number_safe rest = true ->
  scan_int_part (encode_nat n ++ rest) = Some (encode_nat n, rest).
Proof.
  intro Hr.
  destruct (encode_nat_spec n) as (d & ds & -> & Hdig & Hz & Hpos & _).
  cbn [forallb] in Hdig. apply andb_true_iff in Hdig as [Hd Hds].
  apply isdigit_range in Hd.
  cbn [app scan_int_part].
  destruct (d =? 48)%N eqn:E.
  - apply N.eqb_eq in E. subst d.
    destruct (N.eq_dec n 0) as [->|Hn].
    + destruct Hz as [_ ->]; reflexivity.
    + assert (49 <= 48)%N by (apply Hpos; lia). lia.
  - apply N.eqb_neq in E.
    replace ((49 <=? d) && (d <=? 57))%N with true.
    + now rewrite (span_digits_app _ _ Hds Hr).
    + symmetry. apply andb_true_iff; split; apply N.leb_le; lia.
Qed.

Lemma scan_number_encode_nat (n : N) (rest : str) :
  number_safe rest = true ->
  scan_number (encode_nat n ++ rest) = Some (PInt (Z.of_N n), rest).
Proof.
  intro Hr. unfold scan_number.
  destruct (encode_nat_spec n) as (d & ds & E & Hdig & _ & _ & Hval).
  pose proof (scan_int_part_encode_nat n rest Hr) as Hi.
  rewrite E in *. cbn [app] in *.
  cbn [forallb] in Hdig. apply andb_true_iff in Hdig as [Hd _].
  apply isdigit_range in Hd.
  replace (d =? 45)%N with false by (symmetry; apply N.eqb_neq; lia).
  rewrite Hi.
  destruct (scan_tail_safe rest Hr) as [-> ->].
  cbn [app]. now rewrite Hval.
Qed.

Lemma scan_number_encode_int (z : Z) (rest : str) :
  number_safe rest = true ->
  scan_number (encode_int z ++ rest) = Some (PInt z, rest).
Proof.
  intro Hr. destruct z as [|p|p]; unfold encode_int.
  - now rewrite scan_number_encode_nat.
  - now rewrite scan_number_encode_nat.
  - pose proof (scan_int_part_encode_nat (Npos p) rest Hr) as Hi.
    destruct (encode_nat_spec (Npos p)) as (d & ds & E & _ & _ & _ & Hval).
    unfold scan_number. cbn [app].
    replace (45 =? 45)%N with true by reflexivity.
    rewrite Hi.
    destruct (scan_tail_safe rest Hr) as [-> ->].
    cbn [app]. rewrite E, Hval. reflexivity.
Qed.

(** ** Numbers with a fraction or an exponent *)

Lemma span_digits_spec (s : str) :
  forall ds r, span_digits s = (ds, r) ->
               s = ds ++ r /\ forallb ascii_isdigit ds = true.
Proof.
  induction s as [|c s IH]; intros ds r H; simpl in H.
  - injection H as <- <-. now split.
  - destruct (ascii_isdigit c) eqn:E.
    + destruct (span_digits s) as [ds' r'].
      injection H as <- <-.
      destruct (IH _ _ eq_refl) as [-> Hd].
      split; [reflexivity|]. simpl. now rewrite E.
    + injection H as <- <-. now split.
Qed.

(** What a scan leaves is not touched by what follows the number. *)
Lemma span_digits_more (s rest : str) :
  number_safe rest = true ->
  forall ds r, span_digits s = (ds, r) -> span_digits (s ++ rest) = (ds, r ++ rest).
Proof.
  intro Hr. induction s as [|c s IH]; intros ds r H; simpl in H.
  - injection H as <- <-. simpl.
    destruct rest as [|c rest]; [reflexivity|]. simpl in *.
    destruct (ascii_isdigit c); [discriminate|reflexivity].
  - cbn [app span_digits]. destruct (ascii_isdigit c).
    + destruct (span_digits s) as [ds' r'].
      injection H as <- <-. now rewrite (IH _ _ eq_refl).
    + now injection H as <- <-.
Qed.

Lemma scan_int_part_more (s rest ip r0 : str) :
  number_safe rest = true ->
  scan_int_part s = Some (ip, r0) ->
  scan_int_part (s ++ rest) = Some (ip, r0 ++ rest).
Proof.
  intros Hr. unfold scan_int_part. destruct s as [|c s1]; [discriminate|].
  cbn [app]. destruct (c =? 48)%N; [now intros [= <- <-]|].
  destruct ((49 <=? c) && (c <=? 57))%N; [|discriminate].
  destruct (span_digits s1) as [ds r] eqn:E.
  intros [= <- <-]. now rewrite (@span_digits_more s1 rest Hr _ _ E).
Qed.

Lemma scan_int_part_spec (s ip r0 : str) :
  scan_int_part s = Some (ip, r0) ->
  s = ip ++ r0
  /\ exists d ds, ip = d :: ds /\ forallb ascii_isdigit (d :: ds) = true.
Proof.
  unfold scan_int_part. destruct s as [|c s1]; [discriminate|].
  destruct (c =? 48)%N eqn:E0.
  - intros [= <- <-]. split; [reflexivity|]. exists c, []. split; [reflexivity|].
    apply N.eqb_eq in E0. now subst c.
  - destruct ((49 <=? c) && (c <=? 57))%N eqn:E1; [|discriminate].
    destruct (span_digits s1) as [ds r] eqn:E.
    intros [= <- <-]. destruct (@span_digits_spec s1 _ _ E) as [-> Hd].
    split; [reflexivity|]. exists c, ds. split; [reflexivity|].
    cbn [forallb]. rewrite Hd, andb_true_r. apply isdigit_range.
    apply andb_true_iff in E1 as [H1 H2]. apply N.leb_le in H1, H2. lia.
Qed.

Lemma digits_are_number_chars (ds : str) :
  forallb ascii_isdigit ds = true -> forallb number_char ds = true.
Proof.
  induction ds as [|c ds IH]; [reflexivity|].
  cbn [forallb]. intro H. apply andb_true_iff in H as [Hc Hd].
  unfold number_char at 1. now rewrite Hc, IH.
Qed.

Lemma scan_fraction_more (r0 rest fr r1 : str) :
  number_safe rest = true ->
  scan_fraction r0 = (fr, r1) ->
  scan_fraction (r0 ++ rest) = (fr, r1 ++ rest).
Proof.
  intro Hr. unfold scan_fraction. destruct r0 as [|c s1].
  - intros [= <- <-]. now destruct (scan_tail_safe rest Hr).
  - cbn [app]. destruct (c =? 46)%N; [|now intros [= <- <-]].
    destruct (span_digits s1) as [ds r] eqn:E.
    rewrite (@span_digits_more s1 rest Hr _ _ E).
    destruct ds; now intros [= <- <-].
Qed.

Lemma scan_fraction_spec (r0 fr r1 : str) :
  scan_fraction r0 = (fr, r1) ->
  r0 = fr ++ r1 /\ forallb number_char fr = true.
Proof.
  unfold scan_fraction. destruct r0 as [|c s1]; [now intros [= <- <-]|].
  destruct (c =? 46)%N eqn:Ec; [|now intros [= <- <-]].
  destruct (span_digits s1) as [ds r] eqn:E.
  destruct (@span_digits_spec s1 _ _ E) as [-> Hd].
  destruct ds as [|d ds]; intros [= <- <-]; [now split|].
  split; [reflexivity|].
  change (forallb number_char (c :: d :: ds))
    with (number_char c && forallb number_char (d :: ds)).
  rewrite (digits_are_number_chars _ Hd), andb_true_r.
  unfold number_char. rewrite Ec. now rewrite orb_true_r.
Qed.

Lemma scan_exponent_unfold (e : char) (s1 : str) :
  scan_exponent (e :: s1) =
    if ((e =? 101) || (e =? 69))%N
    then match span_digits (snd (exponent_sign s1)) with
         | (d :: ds, r) => (e :: fst (exponent_sign s1) ++ d :: ds, r)
         | ([], _) => ([], e :: s1)
         end
    else ([], e :: s1).
Proof.
  unfold scan_exponent, exponent_sign.
  destruct ((e =? 101) || (e =? 69))%N; [|reflexivity].
  destruct s1 as [|g s2]; [reflexivity|].
  now destruct ((g =? 43) || (g =? 45))%N.
Qed.

Lemma exponent_sign_spec (s1 : str) :
  s1 = fst (exponent_sign s1) ++ snd (exponent_sign s1)
  /\ forallb number_char (fst (exponent_sign s1)) = true.
Proof.
  unfold exponent_sign. destruct s1 as [|g s2]; [now split|].
  destruct ((g =? 43) || (g =? 45))%N eqn:E; [|now split].
  split; [reflexivity|]. cbn [fst forallb]. rewrite andb_true_r.
  unfold number_char. apply orb_true_iff in E as [E|E]; rewrite E;
    now rewrite ?orb_true_r.
Qed.

Lemma exponent_sign_more (s1 rest : str) :
  s1 <> [] ->
  exponent_sign (s1 ++ rest)
  = (fst (exponent_sign s1), snd (exponent_sign s1) ++ rest).
Proof.
  destruct s1 as [|g s2]; [congruence|]. intros _.
  unfold exponent_sign. cbn [app].
  now destruct ((g =? 43) || (g =? 45))%N.
Qed.

Lemma scan_exponent_more (r1 rest ex : str) :
  number_safe rest = true ->
  scan_exponent r1 = (ex, []) ->
  scan_exponent (r1 ++ rest) = (ex, rest).
Proof.
  intro Hr. destruct r1 as [|e s1].
  - intros [= <-]. now destruct (scan_tail_safe rest Hr).
  - cbn [app]. rewrite !scan_exponent_unfold.
    destruct ((e =? 101) || (e =? 69))%N; [|discriminate].
    destruct s1 as [|g s2]; [discriminate|].
    change (g :: s2 ++ rest) with ((g :: s2) ++ rest).
    rewrite exponent_sign_more by discriminate. cbn [fst snd].
    destruct (span_digits (snd (exponent_sign (g :: s2)))) as [ds r] eqn:E.
    rewrite (@span_digits_more _ rest Hr _ _ E).
    destruct ds; [discriminate|]. now intros [= <- ->].
Qed.

Lemma scan_exponent_spec (r1 ex r2 : str) :
  scan_exponent r1 = (ex, r2) ->
  r1 = ex ++ r2 /\ forallb number_char ex = true.
Proof.
  destruct r1 as [|e s1]; [now intros [= <- <-]|].
  rewrite scan_exponent_unfold.
  destruct ((e =? 101) || (e =? 69))%N eqn:Ee; [|now intros [= <- <-]].
  destruct (exponent_sign_spec s1) as [Es Hs].
  destruct (span_digits (snd (exponent_sign s1))) as [ds r] eqn:E.
  destruct (@span_digits_spec _ _ _ E) as [Er Hd].
  destruct ds as [|d ds]; intros [= <- <-]; [now split|].
  split.
  - cbn [app]. f_equal. rewrite <- app_assoc. cbn [app] in Er |- *.
    now rewrite <- Er.
  - cbn [forallb]. rewrite forallb_app, Hs, (digits_are_number_chars _ Hd).
    rewrite !andb_true_r. unfold number_char.
    apply orb_true_iff in Ee as [Ee|Ee]; rewrite Ee; now rewrite ?orb_true_r.
Qed.

Lemma scan_number_unfold (s : str) :
  scan_number s =
    match s with
    | c :: s' => if (c =? 45)%N then scan_unsigned true s' else scan_unsigned false s
    | [] => None
    end.
Proof.
  unfold scan_number, scan_unsigned. destruct s as [|c s']; [reflexivity|].
  now destruct (c =? 45)%N.
Qed.

Lemma scan_unsigned_more (negative : bool) (s0 rest : str) (v : pyval) :
  number_safe rest = true ->
  scan_unsigned negative s0 = Some (v, []) ->
  scan_unsigned negative (s0 ++ rest) = Some (v, rest).
Proof.
  intro Hr. unfold scan_unsigned.
  destruct (scan_int_part s0) as [[ip r0]|] eqn:Ei; [|discriminate].
  rewrite (@scan_int_part_more s0 rest ip r0 Hr Ei).
  destruct (scan_fraction r0) as [fr r1] eqn:Ef.
  rewrite (@scan_fraction_more r0 rest fr r1 Hr Ef).
  destruct (scan_exponent r1) as [ex r2] eqn:Ee.
  assert (Hr2 : forall x : pyval, Some (x, r2) = Some (v, []) -> r2 = [])
    by (now intros x [= _ ->]).
  intro H.
  assert (r2 = []) as ->
    by (destruct (fr ++ ex); simpl in H; exact (Hr2 _ H)).
  rewrite (@scan_exponent_more r1 rest ex Hr Ee).
  destruct (fr ++ ex); now injection H as <-.
Qed.

(** A number read to its end is read the same way in front of any
    text that cannot continue it. *)
Lemma scan_number_more (s rest : str) (v : pyval) :
  number_safe rest = true ->
  scan_number s = Some (v, []) ->
  scan_number (s ++ rest) = Some (v, rest).
Proof.
  intro Hr. rewrite !scan_number_unfold.
  destruct s as [|c s']; [discriminate|]. cbn [app].
  destruct (c =? 45)%N.
  - now apply scan_unsigned_more.
  - intro H. now apply (@scan_unsigned_more false (c :: s') rest v Hr).
Qed.

Lemma scan_unsigned_spec (negative : bool) (s0 : str) (v : pyval) :
  scan_unsigned negative s0 = Some (v, []) ->
  forallb number_char s0 = true
  /\ exists d X, s0 = d :: X /\ ascii_isdigit d = true.
Proof.
  unfold scan_unsigned.
  destruct (scan_int_part s0) as [[ip r0]|] eqn:Ei; [|discriminate].
  destruct (@scan_int_part_spec s0 ip r0 Ei) as (-> & d & ds & -> & Hd).
  destruct (scan_fraction r0) as [fr r1] eqn:Ef.
  destruct (@scan_fraction_spec r0 fr r1 Ef) as (-> & Hf).
  destruct (scan_exponent r1) as [ex r2] eqn:Ee.
  destruct (@scan_exponent_spec r1 ex r2 Ee) as (-> & He).
  intro H.
  assert (r2 = []) as ->
    by (destruct (fr ++ ex); simpl in H; now injection H as _ ->).
  split.
  - rewrite !forallb_app, (digits_are_number_chars _ Hd), Hf, He. reflexivity.
  - exists d, (ds ++ fr ++ ex ++ []). split; [reflexivity|].
    cbn [forallb] in Hd. now apply andb_true_iff in Hd as [Hd' _].
Qed.

(** The characters of a number read to its end, and how it starts. *)
Lemma scan_number_spec (s : str) (v : pyval) :
  scan_number s = Some (v, []) ->
  forallb number_char s = true
  /\ exists c X,
       s = c :: X
       /\ (ascii_isdigit c = true
           \/ (c = 45%N /\ exists d X', X = d :: X' /\ ascii_isdigit d = true)).
Proof.
  rewrite scan_number_unfold. destruct s as [|c s']; [discriminate|].
  destruct (c =? 45)%N eqn:Ec.
  - intro H. destruct (scan_unsigned_spec _ _ H) as (Hn & d & X & -> & Hd).
    apply N.eqb_eq in Ec. subst c. split.
    + change (forallb number_char (45%N :: d :: X))
        with (number_char 45%N && forallb number_char (d :: X)).
      now rewrite Hn.
    + exists 45%N, (d :: X). split; [reflexivity|]. right. eauto.
  - intro H. destruct (scan_unsigned_spec _ _ H) as (Hn & d & X & [= -> ->] & Hd).
    split; [exact Hn|]. exists d, X. split; [reflexivity|]. now left.
Qed.

(** ** Strings *)

Lemma hex_value_digit (n : N) : (n < 16)%N -> hex_value (hex_digit n) = Some n.
Proof.
  intro H. unfold hex_digit, hex_value.
  destruct (n <? 10)%N eqn:E; nbool.
  - replace ((48 <=? 48 + n) && (48 + n <=? 57))%N with true
      by (symmetry; apply andb_true_iff; split; apply N.leb_le; lia).
    f_equal. lia.
  - replace ((48 <=? 87 + n) && (87 + n <=? 57))%N with false
      by (symmetry; apply andb_false_iff; right; apply N.leb_gt; lia).
    replace ((97 <=? 87 + n) && (87 + n <=? 102))%N with true
      by (symmetry; apply andb_true_iff; split; apply N.leb_le; lia).
    f_equal. lia.
Qed.

(** Reading back one escaped character. *)
Lemma scanstring_escape_char (c : char) (X : str) :
  scanstring None (escape_char c ++ X) = prepend [c] (scanstring None X).
Proof.
  unfold escape_char.
  destruct (c =? 34)%N eqn:E34; [apply N.eqb_eq in E34; now subst|].
  destruct (c =? 92)%N eqn:E92; [apply N.eqb_eq in E92; now subst|].
  destruct (c =? 10)%N eqn:E10; [apply N.eqb_eq in E10; now subst|].
  destruct (c =? 13)%N eqn:E13; [apply N.eqb_eq in E13; now subst|].
  destruct (c =? 9)%N eqn:E9; [apply N.eqb_eq in E9; now subst|].
  destruct (c =? 8)%N eqn:E8; [apply N.eqb_eq in E8; now subst|].
  destruct (c =? 12)%N eqn:E12; [apply N.eqb_eq in E12; now subst|].
  destruct (c <? 32)%N eqn:E32.
  - apply N.ltb_lt in E32.
    cbn [app scanstring].
    replace (92 =? 34)%N with false by reflexivity.
    replace (92 =? 92)%N with true by reflexivity.
    replace (117 =? 117)%N with true by reflexivity.
    unfold hex4.
    change (hex_value 48%N) with (Some 0%N).
    assert (Hhi : (c / 16 < 16)%N) by (apply N.Div0.div_lt_upper_bound; lia).
    assert (Hlo : (c mod 16 < 16)%N) by (apply N.mod_lt; lia).
    rewrite (hex_value_digit Hhi), (hex_value_digit Hlo).
    replace (((0 * 16 + 0) * 16 + c / 16) * 16 + c mod 16)%N with c
      by (pose proof (N.div_mod c 16 ltac:(lia)); lia).
    unfold is_high_surrogate.
    replace (55296 <=? c)%N with false by (symmetry; apply N.leb_gt; lia).
    reflexivity.
  - cbn [app scanstring]. now rewrite E34, E92, E32.
Qed.

Lemma scanstring_escaped (s rest : str) :
  scanstring None (flat_map escape_char s ++ quote :: rest) = Some (s, rest).
Proof.
  induction s as [|c s IH]; [reflexivity|].
  cbn [flat_map]. rewrite <- app_assoc, scanstring_escape_char, IH. reflexivity.
Qed.

(** ** White space *)

Lemma skip_ws_spaces (k : nat) (X : str) : skip_ws (repeat 32%N k ++ X) = skip_ws X.
Proof. induction k as [|k IH]; [reflexivity|exact IH]. Qed.

Lemma skip_ws_indent (level : nat) (X : str) :
  skip_ws (newline_indent level ++ X) = skip_ws X.
Proof. unfold newline_indent. cbn [app skip_ws]. apply skip_ws_spaces. Qed.

Lemma skip_ws_stop (c : char) (X : str) :
  is_ws c = false -> skip_ws (c :: X) = c :: X.
Proof. intro H. cbn [skip_ws]. now rewrite H. Qed.

End Scanning.

Section RoundTrip.
Context {F : FloatLib}.
Import json.

Lemma value_start_facts (c : char) :
  value_start c = true ->
  is_ws c = false /\ (c =? 93)%N = false /\ (c =? 125)%N = false.
Proof.
  unfold value_start, is_ws, ascii_isdigit. intro H.
  repeat (apply orb_true_iff in H as [H|H]); nbool; subst;
    repeat split; try reflexivity;
    try (apply N.eqb_neq; lia);
    repeat (apply orb_false_iff; split); apply N.eqb_neq; lia.
Qed.

Lemma encode_list_unfold (level : nat) (x : pyval) (xs : list pyval) :
  encode level (PList (x :: xs)) =
    91%N :: newline_indent (S level) ++ encode (S level) x
      ++ encode_items (S level) xs ++ newline_indent level ++ [93%N].
Proof.
  cbn [encode]. change (lit "[") with [91%N]. change (lit "]") with [93%N].
  cbn [app]. do 3 f_equal.
  induction xs as [|y ys IH]; [reflexivity|].
  unfold encode_items in *. cbn [flat_map]. rewrite <- !app_assoc.
  now rewrite IH.
Qed.

Lemma encode_dict_unfold (level : nat) (k : str) (x : pyval) (kvs : dict) :
  encode level (PDict ((k, x) :: kvs)) =
    123%N :: newline_indent (S level)
      ++ encode_string k ++ [58%N; 32%N] ++ encode (S level) x
      ++ encode_pairs (S level) kvs ++ newline_indent level ++ [125%N].
Proof.
  cbn [encode]. change (lit "{") with [123%N]. change (lit "}") with [125%N].
  change (lit ": ") with [58%N; 32%N].
  cbn [app]. do 6 f_equal.
  induction kvs as [|[k' y] kvs IH]; [reflexivity|].
  unfold encode_pairs in *. cbn [flat_map fst snd].
  change (lit ": ") with [58%N; 32%N]. change (lit ",") with [44%N].
  cbn [app]. rewrite <- ?app_assoc. cbn [app]. rewrite <- ?app_assoc.
  do 6 f_equal. exact IH.
Qed.

Lemma encode_int_head (z : Z) :
  exists c X,
    encode_int z = c :: X
    /\ (ascii_isdigit c = true
        \/ (c = 45%N /\ exists d X', X = d :: X' /\ ascii_isdigit d = true)).
Proof.
  destruct z as [|p|p]; unfold encode_int.
  - destruct (encode_nat_spec (Z.to_N 0)) as (d & ds & -> & Hd & _).
    cbn [forallb] in Hd. apply andb_true_iff in Hd as [Hd _]. eauto.
  - destruct (encode_nat_spec (Z.to_N (Zpos p))) as (d & ds & -> & Hd & _).
    cbn [forallb] in Hd. apply andb_true_iff in Hd as [Hd _]. eauto.
  - destruct (encode_nat_spec (Npos p)) as (d & ds & -> & Hd & _).
    cbn [forallb] in Hd. apply andb_true_iff in Hd as [Hd _].
    exists 45%N, (d :: ds). split; [reflexivity|]. right. eauto.
Qed.

(** What is written for a float the file carries. *)
Lemma float_storable_cases (bits : N) :
  float_storable bits = true ->
  (floatstr bits = lit "NaN" /\ bits = nan_bits)
  \/ (floatstr bits = lit "Infinity" /\ bits = inf_bits)
  \/ (floatstr bits = lit "-Infinity" /\ bits = neg_inf_bits)
  \/ (floatstr bits = float_repr bits
      /\ scan_number (float_repr bits) = Some (PFloat bits, [])).
Proof.
  unfold float_storable, floatstr.
  destruct (is_nan bits).
  { intro H. apply N.eqb_eq in H. now left. }
  destruct (bits =? inf_bits)%N eqn:Ei.
  { intros _. apply N.eqb_eq in Ei. right. now left. }
  destruct (bits =? neg_inf_bits)%N eqn:En.
  { intros _. apply N.eqb_eq in En. right. right. now left. }
  cbn [orb].
  destruct (scan_number (float_repr bits)) as [[[| | |b| | |] [|]]|];
    try discriminate.
  intro H. apply N.eqb_eq in H. subst b. now repeat right.
Qed.

Lemma encode_head (level : nat) (v : pyval) :
  storable v = true ->
  exists c X, encode level v = c :: X /\ value_start c = true.
Proof.
  destruct v as [|[|]|z|bits|s|[|x xs]|[|[k x] kvs]]; intro Hs;
    try (eexists _, _; split; reflexivity).
  - destruct (encode_int_head z) as (c & X & E & [Hc | [Hc _]]);
      exists c, X; (split; [exact E|]); unfold value_start.
    + now rewrite Hc.
    + subst c. reflexivity.
  - cbn [encode].
    destruct (float_storable_cases bits Hs)
      as [[-> _] | [[-> _] | [[-> _] | [-> Hn]]]];
      try (eexists _, _; split; reflexivity).
    destruct (scan_number_spec _ Hn) as (_ & c & X & -> & [Hc | [-> _]]);
      exists c, X + exists 45%N, X; (split; [reflexivity|]); unfold value_start.
    + now rewrite Hc.
    + reflexivity.
Qed.

Lemma skip_ws_encode (level : nat) (v : pyval) (X : str) :
  storable v = true ->
  skip_ws (encode level v ++ X) = encode level v ++ X.
Proof.
  intro Hs. destruct (encode_head level v Hs) as (c & Y & -> & Hc).
  apply skip_ws_stop. now apply value_start_facts.
Qed.

Lemma encode_length_pos (level : nat) (v : pyval) :
  storable v = true -> (1 <= length (encode level v))%nat.
Proof.
  intro Hs. destruct (encode_head level v Hs) as (c & Y & -> & _).
  cbn [length]. lia.
Qed.

(** A number starts with a digit, or with a minus sign and a digit;
    [scan_once] then leaves it to [scan_number]. *)
Lemma scan_once_number (f : nat) (c : char) (X : str) :
  ascii_isdigit c = true
  \/ (c = 45%N /\ exists d X', X = d :: X' /\ ascii_isdigit d = true) ->
  scan_once (S f) (c :: X) = scan_number (c :: X).
Proof.
  intro H. cbn [scan_once].
  change (lit "null") with [110; 117; 108; 108]%N.
  change (lit "true") with [116; 114; 117; 101]%N.
  change (lit "false") with [102; 97; 108; 115; 101]%N.
  change (lit "NaN") with [78; 97; 78]%N.
  change (lit "Infinity") with [73; 110; 102; 105; 110; 105; 116; 121]%N.
  change (lit "-Infinity") with [45; 73; 110; 102; 105; 110; 105; 116; 121]%N.
  cbn [startswith]. unfold chr_eqb.
  destruct H as [Hc | (-> & d & X' & -> & Hd)].
  - apply isdigit_range in Hc.
    repeat match goal with
           | |- context [(?a =? c)%N] =>
               replace (a =? c)%N with false by (symmetry; apply N.eqb_neq; lia)
           | |- context [(c =? ?a)%N] =>
               replace (c =? a)%N with false by (symmetry; apply N.eqb_neq; lia)
           end.
    reflexivity.
  - apply isdigit_range in Hd. cbn [startswith].
    replace (73 =? d)%N with false by (symmetry; apply N.eqb_neq; lia).
    reflexivity.
Qed.

End RoundTrip.

Section Decoding.
Context {F : FloatLib}.
Import json.

Lemma scan_items_encoded (level : nat) :
  forall (xs : list pyval) (x : pyval) (acc : list pyval) (f : nat) (rest : str),
    Forall scans (x :: xs) ->
    forallb storable (x :: xs) = true ->
    (length (encode (S level) x ++ encode_items (S level) xs
               ++ newline_indent level ++ [93%N]) <= f)%nat ->
    scan_items f (encode (S level) x ++ encode_items (S level) xs
                    ++ newline_indent level ++ 93%N :: rest) acc
      = Some (PList (acc ++ x :: xs), rest).
Proof.
  induction xs as [|y ys IH]; intros x acc f rest HP Hst Hlen.
  - inversion HP as [|? ? Hx _]; subst.
    cbn [forallb] in Hst. apply andb_true_iff in Hst as [Hsx _].
    pose proof (encode_length_pos (S level) x Hsx) as Hpos.
    rewrite !length_app in Hlen. cbn [length] in Hlen.
    destruct f as [|f']; [lia|].
    cbn [scan_items encode_items flat_map app].
    rewrite (Hx (S level) f'); [|assumption|lia|reflexivity].
    rewrite skip_ws_indent, skip_ws_stop by reflexivity.
    reflexivity.
  - inversion HP as [|? ? Hx HPr]; subst.
    cbn [forallb] in Hst. apply andb_true_iff in Hst as [Hsx Hsr].
    pose proof Hsr as Hsy. cbn [forallb] in Hsy.
    apply andb_true_iff in Hsy as [Hsy _].
    pose proof (encode_length_pos (S level) x Hsx) as Hpos.
    unfold encode_items in Hlen |- *. cbn [flat_map] in Hlen |- *.
    fold (encode_items (S level) ys) in Hlen |- *.
    change (lit ",") with [44%N] in Hlen |- *.
    rewrite <- ?app_assoc in Hlen |- *. cbn [app] in Hlen |- *.
    rewrite <- ?app_assoc in Hlen |- *.
    rewrite length_app in Hlen. cbn [length] in Hlen.
    rewrite length_app in Hlen.
    destruct f as [|f']; [lia|].
    cbn [scan_items].
    rewrite (Hx (S level) f'); [|assumption|lia|reflexivity].
    rewrite skip_ws_stop by reflexivity.
    replace (44 =? 93)%N with false by reflexivity.
    replace (44 =? 44)%N with true by reflexivity.
    rewrite skip_ws_indent, skip_ws_encode by assumption.
    rewrite (IH y (acc ++ [x]) f' rest HPr Hsr ltac:(lia)).
    now rewrite <- app_assoc.
Qed.

Lemma scan_pairs_encoded (level : nat) :
  forall (kvs : dict) (k : str) (x : pyval) (acc : dict) (f : nat) (rest : str),
    Forall (fun kv => scans (snd kv)) ((k, x) :: kvs) ->
    forallb (fun kv => let '(k, x) := kv in encodable k && storable x)
            ((k, x) :: kvs) = true ->
    (length (encode_string k ++ [58%N; 32%N] ++ encode (S level) x
               ++ encode_pairs (S level) kvs ++ newline_indent level ++ [125%N])
     <= f)%nat ->
    scan_pairs f (encode_string k ++ [58%N; 32%N] ++ encode (S level) x
                    ++ encode_pairs (S level) kvs
                    ++ newline_indent level ++ 125%N :: rest) acc
      = Some (PDict (dict_update acc ((k, x) :: kvs)), rest).
Proof.
  induction kvs as [|[k' y] kvs IH]; intros k x acc f rest HP Hst Hlen.
  - inversion HP as [|? ? Hx _]; subst. cbn [snd] in Hx.
    cbn [forallb] in Hst. apply andb_true_iff in Hst as [Hsx _].
    apply andb_true_iff in Hsx as [_ Hsx].
    pose proof (encode_length_pos (S level) x Hsx) as Hpos.
    unfold encode_string in Hlen |- *.
    cbn [app encode_pairs flat_map] in Hlen |- *.
    rewrite <- ?app_assoc in Hlen |- *. cbn [app] in Hlen |- *.
    cbn [length] in Hlen. rewrite !length_app in Hlen. cbn [length] in Hlen.
    rewrite ?length_app in Hlen.
    destruct f as [|f']; [lia|].
    cbn [scan_pairs].
    replace (quote =? 34)%N with true by reflexivity. cbn [negb].
    rewrite scanstring_escaped.
    rewrite skip_ws_stop by reflexivity.
    replace (58 =? 58)%N with true by reflexivity. cbn [negb].
    cbn [skip_ws]. replace (is_ws 32%N) with true by reflexivity.
    rewrite skip_ws_encode by assumption.
    rewrite (Hx (S level) f'); [|assumption|lia|reflexivity].
    rewrite skip_ws_indent, skip_ws_stop by reflexivity.
    reflexivity.
  - inversion HP as [|? ? Hx HPr]; subst. cbn [snd] in Hx.
    cbn [forallb] in Hst. apply andb_true_iff in Hst as [Hsx Hsr].
    apply andb_true_iff in Hsx as [_ Hsx].
    pose proof (encode_length_pos (S level) x Hsx) as Hpos.
    unfold encode_pairs in Hlen |- *. cbn [flat_map fst snd] in Hlen |- *.
    fold (encode_pairs (S level) kvs) in Hlen |- *.
    change (lit ",") with [44%N] in Hlen |- *.
    change (lit ": ") with [58%N; 32%N] in Hlen |- *.
    unfold encode_string at 1 in Hlen. unfold encode_string at 1.
    cbn [app] in Hlen |- *.
    rewrite <- ?app_assoc in Hlen |- *. cbn [app] in Hlen |- *.
    rewrite <- ?app_assoc in Hlen |- *. cbn [app] in Hlen |- *.
    cbn [length] in Hlen. rewrite length_app in Hlen. cbn [length] in Hlen.
    rewrite length_app in Hlen. cbn [length] in Hlen.
    rewrite length_app in Hlen.
    destruct f as [|f']; [lia|].
    cbn [scan_pairs].
    replace (quote =? 34)%N with true by reflexivity. cbn [negb].
    rewrite scanstring_escaped.
    rewrite skip_ws_stop by reflexivity.
    replace (58 =? 58)%N with true by reflexivity. cbn [negb].
    cbn [skip_ws]. replace (is_ws 32%N) with true by reflexivity.
    rewrite skip_ws_encode by assumption.
    rewrite (Hx (S level) f'); [|assumption|lia|reflexivity].
    rewrite skip_ws_stop by reflexivity.
    replace (44 =? 125)%N with false by reflexivity.
    replace (44 =? 44)%N with true by reflexivity.
    rewrite skip_ws_indent.
    assert (Hl : (length (encode_string k' ++ [58%N; 32%N] ++ encode (S level) y
                            ++ encode_pairs (S level) kvs
                            ++ newline_indent level ++ [125%N]) <= f')%nat).
    { repeat first [rewrite length_app in Hlen | progress cbn [length] in Hlen].
      repeat first [rewrite length_app | progress cbn [length]]. lia. }
    exact (IH k' y (dict_set acc k x) f' rest HPr Hsr Hl).
Qed.

End Decoding.

Section ReadBack.
Context {F : FloatLib}.
Import json.

Lemma dict_find_app (a b : dict) (k : str) :
  dict_find (a ++ b) k =
    match dict_find a k with Some v => Some v | None => dict_find b k end.
Proof.
  induction a as [|[k0 v0] a IH]; [reflexivity|].
  cbn [app dict_find]. now destruct (str_eqb k0 k).
Qed.

Lemma dict_set_fresh (d : dict) (k : str) (v : pyval) :
  dict_find d k = None -> dict_set d k v = d ++ [(k, v)].
Proof.
  induction d as [|[k0 v0] d IH]; [reflexivity|].
  cbn [dict_find dict_set app].
  destruct (str_eqb k0 k); [discriminate|].
  intro H. now rewrite IH.
Qed.

(** Inserting pairs whose keys are new and pairwise different appends
    them. *)
Lemma dict_update_fresh (d acc : dict) :
  unique_keys d = true ->
  (forall k v, In (k, v) d -> dict_find acc k = None) ->
  dict_update acc d = acc ++ d.
Proof.
  revert acc. induction d as [|[k v] d IH]; intros acc Hu Hf.
  - unfold dict_update. cbn [fold_left]. now rewrite app_nil_r.
  - cbn [unique_keys] in Hu. apply andb_true_iff in Hu as [Hk Hu].
    apply negb_true_iff in Hk. unfold dict_has in Hk.
    assert (Hk' : dict_find d k = None) by (destruct (dict_find d k); congruence).
    unfold dict_update. cbn [fold_left fst snd].
    fold (dict_update (dict_set acc k v) d).
    rewrite (dict_set_fresh acc k v) by (apply (Hf k v); now left).
    rewrite IH; [now rewrite <- app_assoc | assumption |].
    intros k1 v1 Hin. rewrite dict_find_app.
    rewrite (Hf k1 v1) by (now right).
    cbn [dict_find].
    destruct (str_eqb k k1) eqn:E; [|reflexivity].
    apply str_eqb_eq in E. subst k1.
    clear - Hk' Hin. induction d as [|[k0 v0] d IHd]; [contradiction|].
    cbn [dict_find] in Hk'. destruct (str_eqb k0 k) eqn:E0; [discriminate|].
    destruct Hin as [Heq|Hin].
    + injection Heq as -> _. rewrite str_eqb_refl in E0. discriminate.
    + now apply IHd.
Qed.

(** Every storable value is read back from its encoding. *)
Lemma scans_all (v : pyval) : scans v.
Proof.
  induction v using pyval_induction; unfold scans;
    intros level fuel rest Hs Hlen Hr.
  - destruct fuel; [vm_compute in Hlen; lia | reflexivity].
  - destruct b; (destruct fuel; [vm_compute in Hlen; lia | reflexivity]).
  - cbn [encode] in *.
    destruct (encode_int_head z) as (c & X & E & Hc).
    rewrite E in Hlen. cbn [length] in Hlen.
    destruct fuel as [|f]; [lia|].
    rewrite <- (scan_number_encode_int z rest Hr).
    rewrite E. cbn [app]. apply scan_once_number.
    destruct Hc as [Hc | (-> & d & X' & -> & Hd)]; [now left|].
    right. split; [reflexivity|]. exists d, (X' ++ rest). now split.
  - cbn [encode] in *.
    destruct (float_storable_cases bits Hs)
      as [[E ->] | [[E ->] | [[E ->] | [E Hn]]]]; rewrite E in *.
    + destruct fuel; [vm_compute in Hlen; lia | reflexivity].
    + destruct fuel; [vm_compute in Hlen; lia | reflexivity].
    + destruct fuel; [vm_compute in Hlen; lia | reflexivity].
    + destruct (scan_number_spec _ Hn) as (_ & c & X & Ec & Hc).
      rewrite Ec in Hlen. cbn [length] in Hlen.
      destruct fuel as [|f]; [lia|].
      rewrite <- (@scan_number_more F (float_repr bits) rest (PFloat bits) Hr Hn).
      rewrite Ec. cbn [app]. apply scan_once_number.
      destruct Hc as [Hc | (-> & d & X' & -> & Hd)]; [now left|].
      right. split; [reflexivity|]. exists d, (X' ++ rest). now split.
  - cbn [encode] in *. unfold encode_string in *. cbn [length] in Hlen.
    destruct fuel as [|f]; [lia|].
    cbn [app scan_once]. replace (quote =? 34)%N with true by reflexivity.
    rewrite <- app_assoc. cbn [app]. now rewrite scanstring_escaped.
  - destruct l as [|x xs].
    + destruct fuel; [vm_compute in Hlen; lia | reflexivity].
    + rewrite encode_list_unfold in *. cbn [length] in Hlen.
      destruct fuel as [|f]; [lia|].
      cbn [storable] in Hs.
      cbn [app scan_once].
      replace (91 =? 34)%N with false by reflexivity.
      replace (91 =? 123)%N with false by reflexivity.
      replace (91 =? 91)%N with true by reflexivity.
      rewrite <- !app_assoc, skip_ws_indent.
      assert (Hsx : storable x = true)
        by (cbn [forallb] in Hs; now apply andb_true_iff in Hs as [? _]).
      destruct (encode_head (S level) x Hsx) as (c & Y & Ex & Hc).
      destruct (value_start_facts c Hc) as (Hws & H93 & _).
      rewrite Ex at 1. cbn [app]. rewrite skip_ws_stop by assumption.
      rewrite H93.
      change (c :: Y ++ ?Z) with ((c :: Y) ++ Z). rewrite <- Ex. cbn [app].
      erewrite scan_items_encoded; [reflexivity | exact H | exact Hs |].
      rewrite length_app in Hlen. lia.
  - destruct d as [|[k x] kvs].
    + destruct fuel; [vm_compute in Hlen; lia | reflexivity].
    + rewrite encode_dict_unfold in *. cbn [length] in Hlen.
      destruct fuel as [|f]; [lia|].
      cbn [storable] in Hs. apply andb_true_iff in Hs as [Hu Hs].
      cbn [app scan_once].
      replace (123 =? 34)%N with false by reflexivity.
      replace (123 =? 123)%N with true by reflexivity.
      rewrite <- !app_assoc, skip_ws_indent.
      unfold encode_string at 1. cbn [app].
      rewrite skip_ws_stop by reflexivity.
      replace (quote =? 125)%N with false by reflexivity.
      change (quote :: (flat_map escape_char k ++ [quote]) ++ ?Z)
        with (encode_string k ++ Z).
      assert (HL : (length (encode_string k ++ [58%N; 32%N] ++ encode (S level) x
                              ++ encode_pairs (S level) kvs
                              ++ newline_indent level ++ [125%N]) <= f)%nat).
      { repeat first [rewrite length_app in Hlen | progress cbn [length] in Hlen].
        repeat first [rewrite length_app | progress cbn [length]]. lia. }
      cbn [app]. rewrite <- ?app_assoc. cbn [app].
      pose proof (@scan_pairs_encoded F level kvs k x [] f rest H Hs HL) as Hp.
      rewrite dict_update_fresh in Hp; [exact Hp | exact Hu | reflexivity].
Qed.

(** [json.loads] undoes [json.dumps] on storable values. *)
Lemma loads_dumps (v : pyval) :
  storable v = true -> loads (dumps v) = Return v.
Proof.
  intro Hs. unfold loads, dumps.
  pose proof (scans_all v) as Hv. unfold scans in Hv.
  specialize (Hv 0%nat (S (length (encode 0 v))) [] Hs ltac:(lia) eq_refl).
  pose proof (@skip_ws_encode F 0 v [] Hs) as Hw.
  rewrite app_nil_r in Hv, Hw. now rewrite Hw, Hv.
Qed.

End ReadBack.

Section FileText.
Context {F : FloatLib}.
Import json.

Lemma plain_char_range (c : char) :
  (c < 13 \/ 13 < c < 0xD800)%N -> plain_char c = true.
Proof.
  intro H. unfold plain_char, utf8.is_surrogate.
  apply andb_true_iff; split; [apply negb_true_iff, N.eqb_neq; lia|].
  apply andb_true_iff; split; [apply N.ltb_lt; lia|].
  apply negb_true_iff, andb_false_iff. left. apply N.leb_gt. lia.
Qed.

Lemma plain_hex_digit (n : N) : (n < 16)%N -> plain_char (hex_digit n) = true.
Proof.
  intro H. unfold hex_digit.
  destruct (n <? 10)%N; apply plain_char_range; right; split; lia.
Qed.

Lemma plain_escape_char (c : char) :
  (c <? 0x110000)%N && negb (utf8.is_surrogate c) = true ->
  forallb plain_char (escape_char c) = true.
Proof.
  intro Hc. unfold escape_char.
  repeat match goal with
         | |- context [if (c =? ?a)%N then _ else _] =>
             destruct (c =? a)%N eqn:?; [reflexivity|]
         end.
  destruct (c <? 32)%N eqn:E32.
  - apply N.ltb_lt in E32.
    assert (Hhi : (c / 16 < 16)%N) by (apply N.Div0.div_lt_upper_bound; lia).
    assert (Hlo : (c mod 16 < 16)%N) by (apply N.mod_lt; lia).
    cbn [forallb].
    rewrite (plain_hex_digit Hhi), (plain_hex_digit Hlo). reflexivity.
  - cbn [forallb]. rewrite andb_true_r. unfold plain_char.
    rewrite Hc, andb_true_r. apply negb_true_iff. assumption.
Qed.

Lemma plain_encode_string (s : str) :
  encodable s = true -> forallb plain_char (encode_string s) = true.
Proof.
  intro Hs. unfold encode_string. cbn [forallb].
  rewrite forallb_app. cbn [forallb].
  replace (plain_char quote) with true by reflexivity. cbn [andb].
  rewrite andb_true_r.
  induction s as [|c s IH]; [reflexivity|].
  cbn [encodable forallb] in Hs. apply andb_true_iff in Hs as [Hc Hs].
  cbn [flat_map]. rewrite forallb_app, (plain_escape_char c Hc). now apply IH.
Qed.

Lemma plain_encode_int (z : Z) : forallb plain_char (encode_int z) = true.
Proof.
  assert (Hn : forall n, forallb plain_char (encode_nat n) = true).
  { intro n. destruct (encode_nat_spec n) as (d & ds & -> & Hd & _).
    revert Hd. generalize (d :: ds). intros l Hl.
    induction l as [|c l IH]; [reflexivity|].
    cbn [forallb] in *. apply andb_true_iff in Hl as [Hc Hl].
    apply isdigit_range in Hc.
    rewrite (IH Hl), andb_true_r. apply plain_char_range. lia. }
  destruct z; unfold encode_int; cbn [forallb]; now rewrite Hn.
Qed.

Lemma plain_number_chars (s : str) :
  forallb number_char s = true -> forallb plain_char s = true.
Proof.
  induction s as [|c s IH]; [reflexivity|].
  cbn [forallb]. intro H. apply andb_true_iff in H as [Hc Hs].
  rewrite (IH Hs), andb_true_r.
  unfold number_char in Hc.
  repeat (apply orb_true_iff in Hc as [Hc|Hc]);
    try (apply N.eqb_eq in Hc; now subst c).
  apply isdigit_range in Hc. apply plain_char_range. lia.
Qed.

Lemma plain_indent (level : nat) : forallb plain_char (newline_indent level) = true.
Proof.
  unfold newline_indent. cbn [forallb].
  replace (plain_char 10%N) with true by reflexivity. cbn [andb].
  induction (2 * level)%nat as [|k IH]; [reflexivity|exact IH].
Qed.

(** The text of a report of storable values consists of such
    characters. *)
Lemma plain_encode (v : pyval) :
  forall level, storable v = true -> forallb plain_char (encode level v) = true.
Proof.
  induction v using pyval_induction; intros level Hs.
  - reflexivity.
  - now destruct b.
  - apply plain_encode_int.
  - cbn [encode].
    destruct (float_storable_cases bits Hs)
      as [[-> _] | [[-> _] | [[-> _] | [-> Hn]]]]; try reflexivity.
    apply plain_number_chars. now destruct (scan_number_spec _ Hn).
  - now apply plain_encode_string.
  - destruct l as [|x xs]; [reflexivity|].
    rewrite encode_list_unfold. cbn [storable] in Hs.
    cbn [forallb]. replace (plain_char 91%N) with true by reflexivity.
    cbn [andb]. rewrite !forallb_app, !plain_indent.
    cbn [forallb] in Hs. apply andb_true_iff in Hs as [Hsx Hsr].
    inversion H as [|? ? Hx Hr]; subst.
    rewrite (Hx _ Hsx). cbn [andb]. rewrite andb_true_r.
    clear - Hr Hsr. induction xs as [|y ys IH]; [reflexivity|].
    cbn [forallb] in Hsr. apply andb_true_iff in Hsr as [Hsy Hsr].
    inversion Hr as [|? ? Hy Hr']; subst.
    unfold encode_items. cbn [flat_map]. fold (encode_items (S level) ys).
    rewrite !forallb_app, plain_indent, (Hy _ Hsy), (IH Hsr Hr').
    reflexivity.
  - destruct d as [|[k x] kvs]; [reflexivity|].
    rewrite encode_dict_unfold. cbn [storable] in Hs.
    apply andb_true_iff in Hs as [_ Hs].
    cbn [forallb]. replace (plain_char 123%N) with true by reflexivity.
    cbn [andb]. rewrite !forallb_app, !plain_indent.
    cbn [forallb] in Hs. apply andb_true_iff in Hs as [Hsx Hsr].
    apply andb_true_iff in Hsx as [Hk Hsx].
    inversion H as [|? ? Hx Hr]; subst. cbn [snd] in Hx.
    rewrite (plain_encode_string k Hk), (Hx _ Hsx). cbn [andb forallb].
    replace (plain_char 58%N) with true by reflexivity.
    replace (plain_char 32%N) with true by reflexivity.
    replace (plain_char 125%N) with true by reflexivity.
    cbn [andb]. rewrite andb_true_r.
    clear - Hr Hsr. induction kvs as [|[k' y] kvs IH]; [reflexivity|].
    cbn [forallb] in Hsr. apply andb_true_iff in Hsr as [Hsy Hsr].
    apply andb_true_iff in Hsy as [Hk' Hsy].
    inversion Hr as [|? ? Hy Hr']; subst. cbn [snd] in Hy.
    unfold encode_pairs. cbn [flat_map fst snd]. fold (encode_pairs (S level) kvs).
    rewrite !forallb_app, plain_indent, (plain_encode_string k' Hk'),
      (Hy _ Hsy), (IH Hsr Hr').
    reflexivity.
Qed.

Lemma universal_newlines_plain (s : str) :
  forallb plain_char s = true -> universal_newlines s = s.
Proof.
  induction s as [|c s IH]; [reflexivity|].
  cbn [forallb universal_newlines]. intro H.
  apply andb_true_iff in H as [Hc Hs].
  unfold plain_char in Hc. apply andb_true_iff in Hc as [Hc _].
  apply negb_true_iff in Hc. rewrite Hc. now rewrite IH.
Qed.

End FileText.

Section Utf8.
Import utf8.

(** Settle the comparisons of the goal by linear arithmetic. *)
Ltac settle :=
  repeat match goal with
  | |- context [(?a <? ?b)%N] =>
      first [ replace (a <? b)%N with true by (symmetry; apply N.ltb_lt; lia)
            | replace (a <? b)%N with false by (symmetry; apply N.ltb_ge; lia) ]
  | |- context [(?a <=? ?b)%N] =>
      first [ replace (a <=? b)%N with true by (symmetry; apply N.leb_le; lia)
            | replace (a <=? b)%N with false by (symmetry; apply N.leb_gt; lia) ]
  end.

Lemma decode_1 (c : N) (X : list byte) :
  (c < 0x80)%N -> decode (c :: X) = more c (decode X).
Proof. intro H. cbn [decode]. settle. reflexivity. Qed.

Lemma decode_2 (q r : N) (X : list byte) :
  (2 <= q < 32)%N -> (r < 64)%N ->
  decode ((0xC0 + q) :: (0x80 + r) :: X)%N = more (q * 64 + r)%N (decode X).
Proof.
  intros Hq Hr. cbn [decode]. unfold is_continuation. settle. cbn [andb].
  replace ((192 + q - 192) * 64 + (128 + r - 128))%N with (q * 64 + r)%N by lia.
  reflexivity.
Qed.

Lemma decode_3 (q r2 r1 : N) (X : list byte) :
  (q < 16)%N -> (r2 < 64)%N -> (r1 < 64)%N ->
  (0x800 <= q * 4096 + r2 * 64 + r1)%N ->
  is_surrogate (q * 4096 + r2 * 64 + r1)%N = false ->
  decode ((0xE0 + q) :: (0x80 + r2) :: (0x80 + r1) :: X)%N
    = more (q * 4096 + r2 * 64 + r1)%N (decode X).
Proof.
  intros Hq H2 H1 Hlow Hsur. cbn [decode].
  replace ((224 + q - 224) * 4096 + (128 + r2 - 128) * 64 + (128 + r1 - 128))%N
    with (q * 4096 + r2 * 64 + r1)%N by lia.
  rewrite Hsur. unfold is_continuation. settle. reflexivity.
Qed.

Lemma decode_4 (q r3 r2 r1 : N) (X : list byte) :
  (r3 < 64)%N -> (r2 < 64)%N -> (r1 < 64)%N ->
  (0x10000 <= q * 262144 + r3 * 4096 + r2 * 64 + r1 < 0x110000)%N ->
  decode ((0xF0 + q) :: (0x80 + r3) :: (0x80 + r2) :: (0x80 + r1) :: X)%N
    = more (q * 262144 + r3 * 4096 + r2 * 64 + r1)%N (decode X).
Proof.
  intros H3 H2 H1 Hc. cbn [decode].
  replace ((240 + q - 240) * 262144 + (128 + r3 - 128) * 4096
           + (128 + r2 - 128) * 64 + (128 + r1 - 128))%N
    with (q * 262144 + r3 * 4096 + r2 * 64 + r1)%N by lia.
  unfold is_continuation. settle. reflexivity.
Qed.

(** The base-64 digits of a code point. *)
Lemma sextets (c : N) :
  exists q r3 r2 r1 : N,
    (r3 < 64 /\ r2 < 64 /\ r1 < 64)%N
    /\ (c mod 64 = r1 /\ (c / 64) mod 64 = r2 /\ (c / 4096) mod 64 = r3
        /\ c / 262144 = q)%N
    /\ (c / 64 = (q * 64 + r3) * 64 + r2)%N
    /\ (c / 4096 = q * 64 + r3)%N
    /\ c = (q * 262144 + r3 * 4096 + r2 * 64 + r1)%N.
Proof.
  exists (c / 262144)%N, ((c / 4096) mod 64)%N, ((c / 64) mod 64)%N, (c mod 64)%N.
  pose proof (N.mod_lt c 64 ltac:(lia)).
  pose proof (N.mod_lt (c / 64) 64 ltac:(lia)).
  pose proof (N.mod_lt (c / 4096) 64 ltac:(lia)).
  pose proof (N.div_mod c 64 ltac:(lia)) as E1.
  pose proof (N.div_mod (c / 64) 64 ltac:(lia)) as E2.
  pose proof (N.div_mod (c / 4096) 64 ltac:(lia)) as E3.
  replace (c / 64 / 64)%N with (c / 4096)%N in E2
    by (rewrite N.Div0.div_div; reflexivity).
  replace (c / 4096 / 64)%N with (c / 262144)%N in E3
    by (rewrite N.Div0.div_div; reflexivity).
  repeat split; try assumption; lia.
Qed.

Lemma decode_encode_char (c : char) (X : list byte) :
  (c <? 0x110000)%N && negb (is_surrogate c) = true ->
  exists bs, encode_char c = Some bs /\ decode (bs ++ X) = more c (decode X).
Proof.
  intro H. apply andb_true_iff in H as [Hmax Hsur].
  apply N.ltb_lt in Hmax. apply negb_true_iff in Hsur.
  destruct (sextets c) as (q & r3 & r2 & r1 & (H3 & H2 & H1)
                             & (E1 & E2 & E3 & Eq) & D64 & D4096 & Ec).
  unfold encode_char. rewrite Hsur, E1, E2, E3, Eq, D64, D4096.
  destruct (c <? 128)%N eqn:L1; [apply N.ltb_lt in L1|apply N.ltb_ge in L1].
  { eexists. split; [reflexivity|]. now apply decode_1. }
  destruct (c <? 2048)%N eqn:L2; [apply N.ltb_lt in L2|apply N.ltb_ge in L2].
  { eexists. split; [reflexivity|]. cbn [app].
    assert (q = 0 /\ r3 = 0)%N as [-> ->] by lia.
    rewrite decode_2 by lia. do 2 f_equal. lia. }
  destruct (c <? 65536)%N eqn:L3; [apply N.ltb_lt in L3|apply N.ltb_ge in L3].
  { eexists. split; [reflexivity|]. cbn [app].
    assert (q = 0)%N as -> by lia.
    assert (Ec' : c = (r3 * 4096 + r2 * 64 + r1)%N) by lia.
    replace (0 * 64 + r3)%N with r3 by lia.
    rewrite decode_3; try lia; [now rewrite <- Ec' | now rewrite <- Ec']. }
  replace (c <? 1114112)%N with true by (symmetry; apply N.ltb_lt; lia).
  eexists. split; [reflexivity|]. cbn [app].
  rewrite decode_4; try lia. now rewrite <- Ec.
Qed.

(** Encoding to UTF-8 and decoding gives the text back. *)
Lemma decode_encode (s : str) :
  encodable s = true ->
  exists bytes, encode s = Return bytes /\ decode bytes = Some s.
Proof.
  induction s as [|c s IH]; intro H.
  - exists []. now split.
  - cbn [encodable forallb] in H. apply andb_true_iff in H as [Hc Hs].
    destruct (IH Hs) as (rest & Er & Dr).
    destruct (decode_encode_char c rest Hc) as (bs & Eb & Db).
    exists (bs ++ rest). cbn [encode]. rewrite Eb, Er. split; [reflexivity|].
    now rewrite Db, Dr.
Qed.

End Utf8.

(** Plain characters are encodable. *)
Lemma plain_encodable (s : str) :
  forallb plain_char s = true -> encodable s = true.
Proof.
  unfold encodable. induction s as [|c s IH]; [reflexivity|].
  cbn [forallb]. intro H. apply andb_true_iff in H as [Hc Hs].
  unfold plain_char in Hc. apply andb_true_iff in Hc as [_ Hc].
  now rewrite Hc, IH.
Qed.

(** Text with a character that UTF-8 does not encode, a lone
    surrogate for one, cannot be written. *)
Lemma utf8_encode_raises (s : str) :
  encodable s = false ->
  utf8.encode s = Raise (mk_exn UnicodeEncodeError "surrogates not allowed").
Proof.
  induction s as [|c s IH]; [discriminate|].
  cbn [encodable forallb utf8.encode]. intro H.
  destruct (utf8.encode_char c) as [bs|] eqn:Ec; [|reflexivity].
  apply andb_false_iff in H as [H|H].
  - exfalso. revert Ec. unfold utf8.encode_char.
    apply andb_false_iff in H as [H|H].
    + apply N.ltb_ge in H.
      replace (c <? 0x80)%N with false by (symmetry; apply N.ltb_ge; lia).
      replace (c <? 0x800)%N with false by (symmetry; apply N.ltb_ge; lia).
      replace (c <? 0x10000)%N with false by (symmetry; apply N.ltb_ge; lia).
      replace (c <? 0x110000)%N with false by (symmetry; apply N.ltb_ge; lia).
      discriminate.
    + apply negb_false_iff in H. rewrite H.
      unfold utf8.is_surrogate in H. apply andb_true_iff in H as [H1 H2].
      apply N.leb_le in H1, H2.
      replace (c <? 0x80)%N with false by (symmetry; apply N.ltb_ge; lia).
      replace (c <? 0x800)%N with false by (symmetry; apply N.ltb_ge; lia).
      replace (c <? 0x10000)%N with true by (symmetry; apply N.ltb_lt; lia).
      discriminate.
  - fold (encodable s) in H. now rewrite (IH H).
Qed.

Section Unencodable.
Context {F : FloatLib}.
Import json.

Lemma encodable_app (a b : str) : encodable (a ++ b) = encodable a && encodable b.
Proof. unfold encodable. apply forallb_app. Qed.

Lemma encodable_cons (c : char) (s : str) :
  encodable (c :: s) = encodable [c] && encodable s.
Proof. apply (encodable_app [c] s). Qed.

(** A character that UTF-8 does not encode is written as it is. *)
Lemma escape_char_unencodable (c : char) :
  encodable [c] = false -> escape_char c = [c].
Proof.
  unfold encodable, utf8.is_surrogate. cbn [forallb]. rewrite andb_true_r.
  intro H. assert (Hc : (0xD800 <= c)%N).
  { apply andb_false_iff in H as [H|H].
    - apply N.ltb_ge in H. lia.
    - apply negb_false_iff, andb_true_iff in H as [H _]. now apply N.leb_le in H. }
  unfold escape_char.
  repeat match goal with
         | |- context [(c =? ?a)%N] =>
             replace (c =? a)%N with false by (symmetry; apply N.eqb_neq; lia)
         end.
  now replace (c <? 32)%N with false by (symmetry; apply N.ltb_ge; lia).
Qed.

Lemma encode_string_unencodable (s : str) :
  encodable s = false -> encodable (encode_string s) = false.
Proof.
  intro H. unfold encode_string.
  rewrite encodable_cons, encodable_app.
  replace (encodable (flat_map escape_char s)) with false;
    [now rewrite andb_false_r|].
  symmetry. induction s as [|c s IH]; [discriminate|].
  rewrite encodable_cons in H. cbn [flat_map]. rewrite encodable_app.
  destruct (encodable [c]) eqn:Ec.
  - rewrite IH by exact H. apply andb_false_r.
  - now rewrite (escape_char_unencodable c Ec), Ec.
Qed.

(** The text written for a value holds the text of the value. *)
Lemma encode_unencodable (v : pyval) :
  forall level, text_encodable v = false -> encodable (encode level v) = false.
Proof.
  induction v using pyval_induction; intros level Hs; try discriminate.
  - now apply encode_string_unencodable.
  - destruct l as [|x xs]; [discriminate|].
    rewrite encode_list_unfold, encodable_cons, !encodable_app.
    cbn [text_encodable forallb] in Hs.
    inversion H as [|? ? Hx Hr]; subst.
    destruct (text_encodable x) eqn:Ex.
    + replace (encodable (encode_items (S level) xs)) with false;
        [now rewrite ?andb_false_r|].
      symmetry. cbn [andb] in Hs. clear - Hs Hr.
      induction xs as [|y ys IH]; [discriminate|].
      cbn [forallb] in Hs. inversion Hr as [|? ? Hy Hr']; subst.
      unfold encode_items. cbn [flat_map]. fold (encode_items (S level) ys).
      rewrite !encodable_app.
      destruct (text_encodable y) eqn:Ey.
      * rewrite (IH Hs Hr'). now rewrite ?andb_false_r.
      * rewrite (Hy _ eq_refl). now rewrite ?andb_false_r.
    + rewrite (Hx _ eq_refl). now rewrite ?andb_false_r.
  - destruct d as [|[k x] kvs]; [discriminate|].
    rewrite encode_dict_unfold, encodable_cons, !encodable_app.
    cbn [text_encodable forallb fst snd] in Hs.
    inversion H as [|? ? Hx Hr]; subst. cbn [snd] in Hx.
    destruct (encodable k) eqn:Ek.
    2:{ rewrite (encode_string_unencodable k Ek). now rewrite ?andb_false_r. }
    destruct (text_encodable x) eqn:Ex.
    2:{ rewrite (Hx _ eq_refl). now rewrite ?andb_false_r. }
    replace (encodable (encode_pairs (S level) kvs)) with false;
      [now rewrite ?andb_false_r|].
    symmetry. cbn [andb] in Hs. clear - Hs Hr.
    induction kvs as [|[k' y] kvs IH]; [discriminate|].
    cbn [forallb fst snd] in Hs. inversion Hr as [|? ? Hy Hr']; subst.
    cbn [snd] in Hy.
    unfold encode_pairs. cbn [flat_map fst snd]. fold (encode_pairs (S level) kvs).
    rewrite !encodable_app.
    destruct (encodable k') eqn:Ek'.
    2:{ rewrite (encode_string_unencodable k' Ek'). now rewrite ?andb_false_r. }
    destruct (text_encodable y) eqn:Ey.
    + rewrite (IH Hs Hr'). now rewrite ?andb_false_r.
    + rewrite (Hy _ eq_refl). now rewrite ?andb_false_r.
Qed.

End Unencodable.




(** The record of that answer and what becomes of the write. *)
Lemma lone_surrogate_record_and_write :
  let record :=
    @korean_to_english_evaluator.interpret_response
      plain_tables (@python_json no_floats) [0xAE40; 0xC9C0; 0xC6D0]%N PNone
      (lit "{" ++ quoted "english_notation" ++ lit ": "
           ++ quoted "Kim \ud83d" ++ lit "}") in
  dict_find record (lit "english_notation")
  = Some (PStr (lit "Kim " ++ [0xD83D%N]))
  /\ @write_report no_floats (PList [PDict record])
     = Raise (mk_exn UnicodeEncodeError "surrogates not allowed").
Proof. split; vm_compute; reflexivity. Qed.

(* ================================================================= *)
(** ** The overall score *)

Section Scores.
Context {U : UnicodeTables} {J : JsonLib}.
Import korean_to_english_evaluator.

(** The state of the line scan is always a score with the flag derived
    from it. *)
Lemma fold_step_score_derived (lines : list str) (acc : Z * bool) :
  snd acc = (80 <=? fst acc)%Z ->
  snd (fold_left step_score lines acc) = (80 <=? fst (fold_left step_score lines acc))%Z.
Proof.
  revert acc. induction lines as [|l lines IH]; intros acc H; simpl; [exact H|].
  apply IH. unfold step_score. now destruct (line_score l).
Qed.

(** Without a match of the score pattern the fallback leaves the score
    alone. *)
Lemma regex_fallback_score_kept (ev : dict) (text : str) :
  re_search score_re text = None ->
  dict_find (regex_fallback ev text) (lit "overall_score")
  = dict_find ev (lit "overall_score").
Proof.
  intro Hs.
  assert (Hnote : forall ev' s,
             dict_find (regex_error ev' s) (lit "overall_score")
             = dict_find ev' (lit "overall_score")).
  { intros. unfold regex_error. now rewrite append_note_find. }
  unfold regex_fallback.
  destruct (set_from_match_cases english_re text "english_notation"
              (fun g => Return (PStr (strip g))) ev) as [H1 | (g1 & v1 & _ & H1)].
  - destruct (set_from_match english_re _ _ _ _) as [ev1 err1]. simpl in H1. subst ev1.
    destruct err1; [apply Hnote|].
    destruct (set_from_match_cases compliant_re text "compliant"
                (fun g => Return (PBool (str_eqb (py_lower g) (lit "true")))) ev)
      as [H2 | (g2 & v2 & _ & H2)].
    + destruct (set_from_match compliant_re _ _ _ _) as [ev2 err2]. simpl in H2. subst ev2.
      destruct err2; [apply Hnote|].
      unfold set_from_match. now rewrite Hs.
    + rewrite H2. unfold set_from_match at 1. rewrite Hs.
      now rewrite dict_find_set_other.
  - rewrite H1.
    destruct (set_from_match_cases compliant_re text "compliant"
                (fun g => Return (PBool (str_eqb (py_lower g) (lit "true"))))
                (dict_set ev (lit "english_notation") v1))
      as [H2 | (g2 & v2 & _ & H2)].
    + destruct (set_from_match compliant_re _ _ _ _) as [ev2 err2]. simpl in H2. subst ev2.
      destruct err2; [rewrite Hnote; now rewrite dict_find_set_other|].
      unfold set_from_match. rewrite Hs. now rewrite dict_find_set_other.
    + rewrite H2. unfold set_from_match at 1. rewrite Hs.
      now rewrite !dict_find_set_other.
Qed.

(** The fields of a record built from a JSON object. *)
Lemma interpret_response_json (name : str) (teamwork_results : pyval)
      (response_text json_text : str) (d : dict) :
  fenced_json_text response_text = Return json_text ->
  json_loads json_text = Return (PDict d) ->
  let result := interpret_response name teamwork_results response_text in
  dict_find result (lit "english_notation")
    = Some (dict_get d (lit "english_notation") (PStr []))
  /\ dict_find result (lit "compliant")
     = Some (dict_get d (lit "compliant") (PBool false))
  /\ dict_find result (lit "overall_score")
     = Some (dict_get d (lit "overall_score") (PInt 0))
  /\ dict_find result (lit "name") = Some (PStr name)
  /\ dict_find result (lit "teamwork_verification") = Some teamwork_results.
Proof.
  intros Hf Hj result. subst result. unfold interpret_response.
  destruct (parse_json_return (default_evaluation name teamwork_results response_text)
              response_text Hf Hj) as (fields & Hp & ->).
  simpl in Hp. injection Hp as <-.
  repeat split; reflexivity.
Qed.

(** The fields the fallback leaves as they were. *)
Lemma interpret_response_fallback (name : str) (teamwork_results : pyval)
      (response_text : str) (e : exn) :
  parse_json (default_evaluation name teamwork_results response_text) response_text
    = Raise e ->
  let result := interpret_response name teamwork_results response_text in
  result = regex_fallback
             (append_note (default_evaluation name teamwork_results response_text)
                          ([10%N] ++ lit "JSON parsing error: " ++ exn_str e))
             response_text
  /\ dict_find result (lit "name") = Some (PStr name)
  /\ dict_find result (lit "teamwork_verification") = Some teamwork_results.
Proof.
  intros Hp result. subst result. unfold interpret_response. rewrite Hp.
  split; [reflexivity|].
  split; rewrite regex_fallback_find by reflexivity; reflexivity.
Qed.

End Scores.

(** C2 (as amended).  The [overall_score] of a parsed evaluation starts
    at 0 and is never negative after the free-text line scan or after
    the regex fallback; it stays 0 when no line yields a score, and in
    the fallback when the score pattern does not match.  After the line
    scan [compliant] is derived from it (at least 80).  When the answer
    parses as a JSON object the score is the value of its
    [overall_score] field as given (0 when the field is absent).  No
    path bounds the score by 100. *)
Theorem overall_score_default_and_sign (U : UnicodeTables) (J : JsonLib) :
  (forall response : str,
      let x := english_to_korean_evaluator.parse_evaluation response in
      (0 <= english_to_korean_evaluator.compliance_score x)%Z
      /\ english_to_korean_evaluator.compliant x
         = (80 <=? english_to_korean_evaluator.compliance_score x)%Z
      /\ (Forall (fun l => line_score l = None) (split_on 10%N response) ->
          english_to_korean_evaluator.compliance_score x = 0%Z))
  /\ (forall (name : str) (teamwork_results : pyval) (response : str) (e : exn),
        korean_to_english_evaluator.parse_json
          (korean_to_english_evaluator.default_evaluation name teamwork_results response)
          response = Raise e ->
        let result :=
          korean_to_english_evaluator.interpret_response name teamwork_results response in
        (exists z, dict_find result (lit "overall_score") = Some (PInt z) /\ (0 <= z)%Z)
        /\ (re_search korean_to_english_evaluator.score_re response = None ->
            dict_find result (lit "overall_score") = Some (PInt 0)))
  /\ (forall (name : str) (teamwork_results : pyval) (response json_text : str) (d : dict),
        korean_to_english_evaluator.fenced_json_text response = Return json_text ->
        json_loads json_text = Return (PDict d) ->
        dict_find
          (korean_to_english_evaluator.interpret_response name teamwork_results response)
          (lit "overall_score")
        = Some (dict_get d (lit "overall_score") (PInt 0))).
Proof.
  split; [|split].
  - intros response x.
    pose proof (scan_lines_state (split_on 10%N response)
                                 english_to_korean_evaluator.initial) as H.
    fold (english_to_korean_evaluator.parse_evaluation response) in H. fold x in H.
    unfold score_state at 1 in H.
    assert (E1 : english_to_korean_evaluator.compliance_score x
                 = fst (fold_left step_score (split_on 10%N response)
                                  (score_state english_to_korean_evaluator.initial)))
      by now rewrite <- H.
    assert (E2 : english_to_korean_evaluator.compliant x
                 = snd (fold_left step_score (split_on 10%N response)
                                  (score_state english_to_korean_evaluator.initial)))
      by now rewrite <- H.
    split; [|split].
    + rewrite E1. apply fold_step_score_nonneg. simpl. lia.
    + rewrite E1, E2. now apply fold_step_score_derived.
    + intro Hnone. rewrite E1, (fold_step_score_none _ Hnone). reflexivity.
  - intros name tw response e Hp result.
    destruct (interpret_response_fallback name tw response Hp) as (Hr & _).
    fold result in Hr. split.
    + change (score_nonneg result). rewrite Hr.
      apply regex_fallback_score_nonneg.
      exists 0%Z. rewrite append_note_find by reflexivity. split; [reflexivity|lia].
    + intro Hs. rewrite Hr, regex_fallback_score_kept by exact Hs.
      now rewrite append_note_find.
  - intros name tw response json_text d Hf Hj.
    now destruct (interpret_response_json name tw response Hf Hj) as (_ & _ & H & _).
Qed.

(** An answer without a score, an answer that is not JSON and has no
    score field, and a JSON object whose score is 97. *)
Lemma overall_score_default_and_sign_witness :
  english_to_korean_evaluator.compliance_score
    (@english_to_korean_evaluator.parse_evaluation plain_tables
       (lit "The notation is fine." ++ [10%N] ++ lit "No number was given.")) = 0%Z
  /\ dict_find
       (@korean_to_english_evaluator.interpret_response plain_tables
          (@python_json no_floats) (lit "Kim") PNone (lit "The name looks fine."))
       (lit "overall_score") = Some (PInt 0)
  /\ dict_find
       (@korean_to_english_evaluator.interpret_response plain_tables
          (@python_json no_floats) (lit "Kim") PNone
          (lit "{" ++ quoted "overall_score" ++ lit ": 97}"))
       (lit "overall_score") = Some (PInt 97).
Proof.
  destruct (overall_score_default_and_sign plain_tables (@python_json no_floats))
    as (Hscan & Hfallback & Hjson).
  split; [|split].
  - apply Hscan. repeat constructor.
  - apply (Hfallback (lit "Kim") PNone (lit "The name looks fine.")
                     (mk_exn JSONDecodeError "Expecting value"));
      vm_compute; reflexivity.
  - apply (Hjson (lit "Kim") PNone (lit "{" ++ quoted "overall_score" ++ lit ": 97}")
                 (lit "{" ++ quoted "overall_score" ++ lit ": 97}")
                 [(lit "overall_score", PInt 97)]);
      vm_compute; reflexivity.
Defined.

(** C2 as stated fails: the line "Compliance score: 250" gives the
    score 250; nothing coerces a score into the interval from 0 to
    100. *)
Lemma line_scan_score_above_100 :
  ~ (forall (U : UnicodeTables) (response : str),
       let x := english_to_korean_evaluator.parse_evaluation response in
       (0 <= english_to_korean_evaluator.compliance_score x <= 100)%Z).
Proof.
  intro H. specialize (H plain_tables (lit "Compliance score: 250")).
  vm_compute in H. destruct H as [_ H]. now apply H.
Qed.

(** The same on the other two paths: a JSON object with the score 250,
    a JSON object whose score is a string, and a malformed object that
    the regex fallback reads. *)
Lemma json_and_regex_scores_not_coerced :
  dict_find
    (@korean_to_english_evaluator.interpret_response plain_tables
       (@python_json no_floats) (lit "Kim") PNone
       (lit "{" ++ quoted "overall_score" ++ lit ": 250}"))
    (lit "overall_score") = Some (PInt 250)
  /\ dict_find
       (@korean_to_english_evaluator.interpret_response plain_tables
          (@python_json no_floats) (lit "Kim") PNone
          (lit "{" ++ quoted "overall_score" ++ lit ": " ++ quoted "high" ++ lit "}"))
       (lit "overall_score") = Some (PStr (lit "high"))
  /\ dict_find
       (@korean_to_english_evaluator.interpret_response plain_tables
          (@python_json no_floats) (lit "Kim") PNone
          (lit "{" ++ quoted "overall_score" ++ lit ": 250,}"))
       (lit "overall_score") = Some (PInt 250).
Proof. repeat split; vm_compute; reflexivity. Qed.

(* ================================================================= *)
(** ** Substrings and the code fence *)

Section Substrings.

Lemma startswith_app (p q s : str) :
  startswith (p ++ q) s = true -> startswith p s = true.
Proof.
  revert s. induction p as [|x p IH]; intros s H; [now destruct s|].
  destruct s as [|y s]; simpl in *; [discriminate|].
  apply andb_true_iff in H as [Hxy H]. now rewrite Hxy, (IH s H).
Qed.

Lemma startswith_drop (p q s : str) :
  startswith (p ++ q) s = true -> startswith q (skipn (length p) s) = true.
Proof.
  revert s. induction p as [|x p IH]; intros s H; [exact H|].
  destruct s as [|y s]; simpl in *; [discriminate|].
  apply andb_true_iff in H as [_ H]. now apply IH.
Qed.

Lemma contains_skipn (q s : str) (n : nat) :
  contains q (skipn n s) = true -> contains q s = true.
Proof.
  revert s. induction n as [|n IH]; intros s H; [exact H|].
  destruct s as [|y s]; [exact H|].
  simpl in H. apply IH in H. simpl. rewrite H. apply orb_true_r.
Qed.

Lemma contains_startswith (q s : str) : startswith q s = true -> contains q s = true.
Proof. intro H. destruct s; simpl in *; now rewrite H. Qed.

(** A text that contains [p ++ q] contains [q]. *)
Lemma contains_tail (p q s : str) :
  contains (p ++ q) s = true -> contains q s = true.
Proof.
  induction s as [|y s IH]; intro H.
  - simpl in H. rewrite orb_false_r in H.
    apply startswith_drop in H. rewrite skipn_nil in H.
    now apply contains_startswith.
  - simpl in H. apply orb_true_iff in H as [H|H].
    + apply startswith_drop in H.
      apply (contains_skipn q (y :: s) (length p)).
      now apply contains_startswith.
    + simpl. rewrite (IH H). apply orb_true_r.
Qed.

End Substrings.

Section Fence.

Lemma re_run_star (A : Type) (greedy : bool) (a : re) (s : str) (cap : option str)
      (k : str -> option str -> option A) :
  re_run (Star greedy a) s cap k = star_loop greedy a k (length s) s cap.
Proof. reflexivity. Qed.

(** A literal reads itself. *)
Lemma re_run_lit (A : Type) (p s : str) (cap : option str)
      (k : str -> option str -> option A) :
  re_run (lit_re p) (p ++ s) cap k = k s cap.
Proof.
  induction p as [|c p IH]; [reflexivity|].
  simpl. unfold chr_eqb. now rewrite N.eqb_refl.
Qed.

(** A literal does not match a text that starts with another
    character. *)
Lemma re_run_lit_other (A : Type) (c x : char) (p s : str) (cap : option str)
      (k : str -> option str -> option A) :
  chr_eqb c x = false -> re_run (lit_re (c :: p)) (x :: s) cap k = None.
Proof. intro H. simpl. now rewrite H. Qed.

Lemma re_run_lit_empty (A : Type) (c : char) (p : str) (cap : option str)
      (k : str -> option str -> option A) :
  re_run (lit_re (c :: p)) [] cap k = None.
Proof. reflexivity. Qed.

(** A literal does not match a text that does not start with it. *)
Lemma re_run_lit_mismatch (A : Type) (p s : str) (cap : option str)
      (k : str -> option str -> option A) :
  startswith p s = false -> re_run (lit_re p) s cap k = None.
Proof.
  revert s. induction p as [|c p IH]; intros s H; [now destruct s|].
  destruct s as [|x s]; [reflexivity|].
  simpl in *. destruct (chr_eqb c x); [apply IH; exact H | reflexivity].
Qed.

(** The lazy repetition of any character stops at the first place
    where the rest of the pattern matches. *)
Lemma lazy_any_stops (A : Type) (k : str -> option str -> option A)
      (s : str) (cap : option str) (x : A) :
  k s cap = Some x ->
  forall (body : str) (fuel : nat),
    (length body <= fuel)%nat ->
    (forall b1 c b2, body = b1 ++ c :: b2 -> k (c :: b2 ++ s) cap = None) ->
    star_loop false korean_to_english_evaluator.re_any k fuel (body ++ s) cap = Some x.
Proof.
  intros Hk body. induction body as [|c body IH]; intros fuel Hfuel Hnone.
  - destruct fuel; simpl; now rewrite Hk.
  - destruct fuel as [|fuel]; [simpl in Hfuel; lia|].
    cbn [star_loop app]. rewrite (Hnone [] c body eq_refl).
    cbn [re_run korean_to_english_evaluator.re_any].
    replace (length (body ++ s) <? length (c :: body ++ s))%nat with true
      by (symmetry; apply Nat.ltb_lt; simpl; lia).
    apply IH; [simpl in Hfuel; lia|].
    intros b1 c' b2 ->. apply (Hnone (c :: b1) c' b2). reflexivity.
Qed.

Lemma startswith_without (p b x : str) (c0 : char) :
  ~ In c0 p -> startswith p (b ++ c0 :: x) = true -> startswith p b = true.
Proof.
  revert b. induction p as [|y p IH]; intros b Hp H; [reflexivity|].
  destruct b as [|z b]; simpl in *.
  - apply andb_true_iff in H as [H _]. unfold chr_eqb in H.
    apply N.eqb_eq in H. subst. elim Hp. now left.
  - apply andb_true_iff in H as [Hz H]. rewrite Hz. simpl.
    apply IH with (b := b); [tauto | exact H].
Qed.

Lemma re_run_seq A a b s cap (k : str -> option str -> option A) :
  re_run (Seq a b) s cap k = re_run a s cap (fun s' cap' => re_run b s' cap' k).
Proof. reflexivity. Qed.

Lemma re_run_alt A a b s cap (k : str -> option str -> option A) :
  re_run (Alt a b) s cap k
  = match re_run a s cap k with Some x => Some x | None => re_run b s cap k end.
Proof. reflexivity. Qed.

Lemma re_run_group A a s cap (k : str -> option str -> option A) :
  re_run (Group a) s cap k
  = re_run a s cap (fun s' _ => k s' (Some (firstn (length s - length s') s))).
Proof. reflexivity. Qed.

Lemma re_run_eps A s cap (k : str -> option str -> option A) :
  re_run Eps s cap k = k s cap.
Proof. reflexivity. Qed.

Lemma startswith_long (p x y : str) :
  (length p <= length x)%nat -> startswith p (x ++ y) = startswith p x.
Proof.
  revert x. induction p as [|c p IH]; intros x H; [reflexivity|].
  destruct x as [|z x]; simpl in *; [lia|].
  rewrite IH by lia. reflexivity.
Qed.

Lemma contains_after (q b s : str) :
  contains q (b ++ s) = false -> contains q s = false.
Proof.
  intro H. destruct (contains q s) eqn:E; [|reflexivity].
  rewrite <- H. symmetry. apply (contains_skipn q (b ++ s) (length b)).
  now rewrite skipn_app, skipn_all, Nat.sub_diag.
Qed.

(** Where no run of three backticks starts inside [x], even when
    backticks follow it, none starts at a character of [x] in front
    of a fence. *)
Lemma no_fence_inside (x : str) :
  contains (lit "```") (x ++ lit "``") = false ->
  forall b1 c b2 y,
    x = b1 ++ c :: b2 ->
    startswith (lit "```") (c :: b2 ++ lit "```" ++ y) = false.
Proof.
  intros H b1 c b2 y ->.
  rewrite <- app_assoc in H. apply contains_after in H.
  assert (E : c :: b2 ++ lit "```" ++ y = ((c :: b2) ++ lit "``") ++ lit "`" ++ y)
    by (rewrite <- app_assoc; reflexivity).
  rewrite E, startswith_long by (rewrite length_app; simpl; lia).
  destruct (startswith (lit "```") ((c :: b2) ++ lit "``")) eqn:Es; [|reflexivity].
  apply contains_startswith in Es. congruence.
Qed.

(** A text without backticks is such a text. *)
Lemma no_backtick_no_fence (x : str) :
  ~ In 96%N x -> contains (lit "```") (x ++ lit "``") = false.
Proof.
  induction x as [|c x IH]; intro H; [reflexivity|].
  cbn [app contains]. rewrite IH by (intro; apply H; now right).
  rewrite orb_false_r.
  change (startswith (lit "```") (c :: x ++ lit "``"))
    with (chr_eqb 96%N c && startswith (lit "``") (x ++ lit "``")).
  destruct (chr_eqb 96%N c) eqn:E; [|reflexivity].
  unfold chr_eqb in E. apply N.eqb_eq in E. elim H. now left.
Qed.

(** The group and the closing fence, at the start of the inside. *)
Lemma fence_body_matches (body rest : str) (cap0 : option str) :
  contains (lit "```") (body ++ lit "``") = false ->
  re_run (Seq (Group (Star false korean_to_english_evaluator.re_any))
              (lit_re (lit "```")))
         (body ++ lit "```" ++ rest) cap0 (fun _ cap => Some cap)
  = Some (Some body).
Proof.
  intro Hbody.
  rewrite re_run_seq, re_run_group, re_run_star. apply lazy_any_stops.
  - rewrite re_run_lit. f_equal. f_equal.
    rewrite length_app.
    replace (length body + length (lit "```" ++ rest) - length (lit "```" ++ rest))%nat
      with (length body) by lia.
    rewrite firstn_app, firstn_all, Nat.sub_diag. simpl. apply app_nil_r.
  - rewrite length_app. lia.
  - intros b1 c b2 E. apply re_run_lit_mismatch.
    apply (@no_fence_inside body Hbody b1 c b2 rest E).
Qed.

(** The fence pattern at an opening fence. *)
Lemma fence_re_matches (tagged : bool) (body rest : str) :
  contains (lit "```") (body ++ lit "``") = false ->
  (tagged = false -> startswith (lit "json") body = false) ->
  re_run korean_to_english_evaluator.fence_re
         (lit "```" ++ (if tagged then lit "json" else []) ++ body ++ lit "```" ++ rest)
         None (fun _ cap => Some cap)
  = Some (Some body).
Proof.
  intros Hbody Htag.
  change korean_to_english_evaluator.fence_re with
    (Seq (lit_re (lit "```"))
         (Seq (Alt (lit_re (lit "json")) Eps)
              (Seq (Group (Star false korean_to_english_evaluator.re_any))
                   (lit_re (lit "```"))))).
  rewrite re_run_seq, re_run_lit. cbv beta.
  rewrite re_run_seq, re_run_alt.
  destruct tagged.
  - rewrite re_run_lit. cbv beta.
    now rewrite (@fence_body_matches body rest None Hbody).
  - cbn [app]. rewrite re_run_lit_mismatch.
    + rewrite re_run_eps. cbv beta. apply (@fence_body_matches body rest None Hbody).
    + destruct (startswith (lit "json") (body ++ lit "```" ++ rest)) eqn:E; [|reflexivity].
      apply (startswith_without (lit "json") body (lit "``" ++ rest) 96%N) in E.
      * now rewrite Htag in E.
      * simpl. intros [H|[H|[H|[H|[]]]]]; discriminate.
Qed.

(** [re.search] stops at the first position where the pattern matches. *)
Lemma re_search_found r s cap :
  re_run r s None (fun _ cap => Some cap) = Some cap -> re_search r s = Some cap.
Proof. intro H. destruct s; cbn [re_search]; now rewrite H. Qed.

(** The fence pattern matches only where three backticks start. *)
Lemma fence_re_needs_backticks (s : str) :
  startswith (lit "```") s = false ->
  re_run korean_to_english_evaluator.fence_re s None (fun _ cap => Some cap) = None.
Proof.
  intro H.
  change korean_to_english_evaluator.fence_re with
    (Seq (lit_re (lit "```"))
         (Seq (Alt (lit_re (lit "json")) Eps)
              (Seq (Group (Star false korean_to_english_evaluator.re_any))
                   (lit_re (lit "```"))))).
  rewrite re_run_seq. now apply re_run_lit_mismatch.
Qed.

(** [re.search] passes over the text in front of the first fence. *)
Lemma re_search_fence_skips (pre y : str) :
  contains (lit "```") (pre ++ lit "``") = false ->
  re_search korean_to_english_evaluator.fence_re (pre ++ lit "```" ++ y)
  = re_search korean_to_english_evaluator.fence_re (lit "```" ++ y).
Proof.
  induction pre as [|c pre IH]; intro Hpre; [reflexivity|].
  cbn [app re_search].
  rewrite fence_re_needs_backticks
    by (apply (@no_fence_inside (c :: pre) Hpre [] c pre y eq_refl)).
  apply IH. apply (@contains_after (lit "```") [c] _ Hpre).
Qed.

(** In a text without three backticks in a row [re.search] finds no
    fence. *)
Lemma re_search_no_fence (s : str) :
  contains (lit "```") s = false ->
  re_search korean_to_english_evaluator.fence_re s = None.
Proof.
  induction s as [|c s IH]; intro H; [reflexivity|].
  cbn [contains] in H. apply orb_false_iff in H as [H1 H2].
  cbn [re_search]. rewrite fence_re_needs_backticks by exact H1.
  now apply IH.
Qed.

(** The text handed to [json.loads] for a fenced answer. *)
Lemma fenced_json_text_fenced {U : UnicodeTables} (pre body rest : str) (tagged : bool) :
  contains (lit "```") (pre ++ lit "``") = false ->
  contains (lit "```") (body ++ lit "``") = false ->
  (tagged = false -> startswith (lit "json") body = false) ->
  korean_to_english_evaluator.fenced_json_text
    (pre ++ lit "```" ++ (if tagged then lit "json" else []) ++ body ++ lit "```" ++ rest)
  = Return (strip body).
Proof.
  intros Hpre Hbody Htag.
  unfold korean_to_english_evaluator.fenced_json_text.
  rewrite re_search_fence_skips by exact Hpre.
  rewrite (re_search_found _ _ (@fence_re_matches tagged body rest Hbody Htag)).
  reflexivity.
Qed.

End Fence.

(* ================================================================= *)
(** ** JSON first, regular expressions second *)



(** The same object with a trailing comma is not JSON: the regular
    expressions read the three fields. *)
Lemma regex_fallback_reads_malformed_json :
  let response_text :=
    lit "{" ++ quoted "english_notation" ++ lit ": " ++ quoted "Kim Ji-won"
      ++ lit ", " ++ quoted "compliant" ++ lit ": True, "
      ++ quoted "overall_score" ++ lit ": 97,}" in
  let result :=
    @korean_to_english_evaluator.interpret_response plain_tables
      (@python_json no_floats) [0xAE40; 0xC9C0; 0xC6D0]%N PNone response_text in
  dict_find result (lit "english_notation") = Some (PStr (lit "Kim Ji-won"))
  /\ dict_find result (lit "compliant") = Some (PBool true)
  /\ dict_find result (lit "overall_score") = Some (PInt 97).
Proof. repeat split; vm_compute; reflexivity. Qed.

(* ================================================================= *)
(** ** The batch of [evaluate_korean_names] *)

Section Batch.
Context {U : UnicodeTables} {J : JsonLib} {W : Outside}.
Import korean_to_english_evaluator.

(** With a flag for [teamwork_results], [name_evaluator] makes one
    call of the model, without Teamwork context. *)
Lemma name_evaluator_flag (name : str) (flag : bool) (t : trace) :
  name_evaluator name (PBool flag) t =
    (match llm_text t {| chain := "korean_to_english_evaluator.evaluation_prompt|llm";
                         variables := [("name", name);
                                       ("teamwork_context", no_previous)] |} with
     | Return response_text =>
         Return (interpret_response name (PBool flag) response_text)
     | Raise e => Raise e
     end, t ++ [call_without_context name]).
Proof.
  unfold name_evaluator, bind, lift, invoke_text, ret. simpl.
  now destruct (llm_text t _).
Qed.

Lemma parse_json_return_inv (ev : dict) (response_text : str) (updated : dict) :
  parse_json ev response_text = Return updated ->
  exists json_text d,
    fenced_json_text response_text = Return json_text
    /\ json_loads json_text = Return (PDict d).
Proof.
  unfold parse_json.
  destruct (fenced_json_text response_text) as [json_text|]; simpl; [|discriminate].
  destruct (json_loads json_text) as [v|] eqn:Ej; simpl; [|discriminate].
  destruct v; simpl; try discriminate. intros _.
  exists json_text, d. split; [reflexivity | exact Ej].
Qed.

(** Every record keeps the name and what was passed as
    [teamwork_results]. *)
Lemma interpret_response_keeps (name : str) (teamwork_results : pyval)
      (response_text : str) :
  dict_find (interpret_response name teamwork_results response_text) (lit "name")
    = Some (PStr name)
  /\ dict_find (interpret_response name teamwork_results response_text)
               (lit "teamwork_verification")
     = Some teamwork_results.
Proof.
  destruct (parse_json (default_evaluation name teamwork_results response_text)
                       response_text) as [updated|e] eqn:E.
  - destruct (parse_json_return_inv _ _ E) as (json_text & d & Hf & Hj).
    now destruct (interpret_response_json name teamwork_results response_text Hf Hj)
      as (_ & _ & _ & Hn & Ht).
  - now destruct (interpret_response_fallback name teamwork_results response_text E)
      as (_ & Hn & Ht).
Qed.

(** One turn of the loop. *)
Lemma evaluate_each_step (name : str) (names : list str) (flag : bool)
      (results : list pyval) (t : trace) :
  evaluate_each (name :: names) flag results t =
    match llm_text t {| chain := "korean_to_english_evaluator.evaluation_prompt|llm";
                        variables := [("name", name);
                                      ("teamwork_context", no_previous)] |} with
    | Return response_text =>
        evaluate_each names flag
          (results ++ [PDict (interpret_response name (PBool flag) response_text)])
          (t ++ [call_without_context name])
    | Raise e => (Raise e, t ++ [call_without_context name])
    end.
Proof.
  cbn [evaluate_each]. unfold bind. rewrite name_evaluator_flag.
  now destruct (llm_text t _).
Qed.

(** The loop: the calls made are those for a prefix of the names, all
    without Teamwork context; when it returns, every name was called
    for and has its record, which carries the flag. *)
Lemma evaluate_each_flag (names : list str) (flag : bool) :
  forall (results : list pyval) (t : trace),
  exists called rest,
    names = called ++ rest
    /\ snd (evaluate_each names flag results t) = t ++ map call_without_context called
    /\ match fst (evaluate_each names flag results t) with
       | Return all =>
           rest = []
           /\ exists entries, all = results ++ entries
                              /\ Forall2 (carries_flag flag) names entries
       | Raise _ => called <> []
       end.
Proof.
  induction names as [|name names IH]; intros results t.
  - exists [], []. simpl. rewrite app_nil_r. repeat split.
    exists []. now rewrite app_nil_r.
  - rewrite evaluate_each_step.
    destruct (llm_text t _) as [response_text|e].
    + destruct (IH (results ++ [PDict (interpret_response name (PBool flag) response_text)])
                   (t ++ [call_without_context name]))
        as (called & rest & Hn & Ht & Ho).
      exists (name :: called), rest. split; [now rewrite Hn|].
      split; [rewrite Ht, <- app_assoc; reflexivity|].
      destruct (fst (evaluate_each names flag _ _)) as [all|e]; [|discriminate].
      destruct Ho as (Hr & entries & Ha & Hf). split; [exact Hr|].
      exists (PDict (interpret_response name (PBool flag) response_text) :: entries).
      split; [rewrite Ha, <- app_assoc; reflexivity|].
      constructor; [|exact Hf].
      destruct (interpret_response_keeps name (PBool flag) response_text) as [H1 H2].
      eexists. repeat split; eassumption.
    + exists [name], names. repeat split. discriminate.
Qed.

(** The loop returns when the model answers. *)
Lemma evaluate_each_returns (names : list str) (flag : bool) :
  (forall t c, exists answer, llm_text t c = Return answer) ->
  forall (results : list pyval) (t : trace),
  exists all, fst (evaluate_each names flag results t) = Return all.
Proof.
  intro Hllm. induction names as [|name names IH]; intros results t.
  - now exists results.
  - rewrite evaluate_each_step.
    destruct (Hllm t {| chain := "korean_to_english_evaluator.evaluation_prompt|llm";
                        variables := [("name", name);
                                      ("teamwork_context", no_previous)] |})
      as [answer ->].
    apply IH.
Qed.

End Batch.



(* ================================================================= *)
(** ** A transport failure in a batch *)

Section Failures.
Context {U : UnicodeTables} {W : Outside}.

(** A record returned by [evaluate_english_name] is about the name. *)
Lemma evaluate_english_name_entry (name : str) (check_teamwork : bool)
      (t t' : trace) (r : dict) :
  english_to_korean_evaluator.evaluate_english_name name check_teamwork t = (Return r, t') ->
  dict_find r (lit "name") = Some (PStr name).
Proof.
  unfold english_to_korean_evaluator.evaluate_english_name, bind, lift, ret, invoke_text.
  destruct openai_client; [|discriminate].
  destruct (teamwork_block.consult name check_teamwork t) as [[tw|] t1]; [|discriminate].
  destruct (llm_text t1 _); [|discriminate].
  now intros [= <- _].
Qed.

(** One turn of the loop of [evaluate_english_names]: what the
    evaluation of a name raises is recorded, and the loop goes on. *)
Lemma evaluate_english_each_step (name : str) (names : list str)
      (check_teamwork : bool) (results : list pyval) (t : trace) :
  english_to_korean_evaluator.evaluate_each (name :: names) check_teamwork results t =
    match english_to_korean_evaluator.evaluate_english_name name check_teamwork t with
    | (Return r, t') =>
        english_to_korean_evaluator.evaluate_each
          names check_teamwork (results ++ [PDict r]) t'
    | (Raise e, t') =>
        english_to_korean_evaluator.evaluate_each
          names check_teamwork
          (results ++ [PDict (english_to_korean_evaluator.error_entry name e)]) t'
    end.
Proof.
  cbn [english_to_korean_evaluator.evaluate_each].
  unfold bind, try_except, ret.
  now destruct (english_to_korean_evaluator.evaluate_english_name name check_teamwork t)
    as [[r|e] t'].
Qed.

(** The loop of [evaluate_english_names] never raises and records one
    entry for each name. *)
Lemma evaluate_english_each_entries (names : list str) (check_teamwork : bool) :
  forall (results : list pyval) (t : trace),
  exists entries,
    fst (english_to_korean_evaluator.evaluate_each names check_teamwork results t)
    = Return (results ++ entries)
    /\ Forall2 entry_for names entries.
Proof.
  induction names as [|name names IH]; intros results t.
  - exists []. simpl. rewrite app_nil_r. split; [reflexivity | constructor].
  - rewrite evaluate_english_each_step.
    destruct (english_to_korean_evaluator.evaluate_english_name name check_teamwork t)
      as [[r|e] t'] eqn:E.
    + destruct (IH (results ++ [PDict r]) t') as (entries & -> & Hf).
      exists (PDict r :: entries). rewrite <- app_assoc. split; [reflexivity|].
      constructor; [|exact Hf].
      exists r. split; [reflexivity|]. eapply evaluate_english_name_entry; eassumption.
    + destruct (IH (results ++ [PDict (english_to_korean_evaluator.error_entry name e)]) t')
        as (entries & -> & Hf).
      exists (PDict (english_to_korean_evaluator.error_entry name e) :: entries).
      rewrite <- app_assoc. split; [reflexivity|].
      constructor; [|exact Hf].
      eexists. split; reflexivity.
Qed.

(** One turn of the loop of [batch_evaluate_names]. *)
Lemma batch_evaluate_each_step (name : str) (names : list str) (direction : str)
      (check_teamwork : bool) (results : list pyval) (t : trace) :
  korean_name_evaluator.evaluate_each (name :: names) direction check_teamwork results t =
    match korean_name_evaluator.evaluate_name name direction check_teamwork t with
    | (Return r, t') =>
        korean_name_evaluator.evaluate_each
          names direction check_teamwork (results ++ [korean_name_evaluator.as_entry r]) t'
    | (Raise e, t') =>
        korean_name_evaluator.evaluate_each
          names direction check_teamwork
          (results ++ [PDict (korean_name_evaluator.error_entry name e)]) t'
    end.
Proof.
  cbn [korean_name_evaluator.evaluate_each].
  unfold bind, try_except, ret.
  now destruct (korean_name_evaluator.evaluate_name name direction check_teamwork t)
    as [[r|e] t'].
Qed.

(** The loop of [batch_evaluate_names] never raises and records one
    entry for each name. *)
Lemma batch_evaluate_each_entries (names : list str) (direction : str)
      (check_teamwork : bool) :
  forall (results : list pyval) (t : trace),
  exists entries,
    fst (korean_name_evaluator.evaluate_each names direction check_teamwork results t)
    = Return (results ++ entries)
    /\ length entries = length names.
Proof.
  induction names as [|name names IH]; intros results t.
  - exists []. simpl. now rewrite app_nil_r.
  - rewrite batch_evaluate_each_step.
    destruct (korean_name_evaluator.evaluate_name name direction check_teamwork t)
      as [[r|e] t'].
    + destruct (IH (results ++ [korean_name_evaluator.as_entry r]) t')
        as (entries & -> & Hl).
      exists (korean_name_evaluator.as_entry r :: entries).
      rewrite <- app_assoc. simpl. now rewrite Hl.
    + destruct (IH (results ++ [PDict (korean_name_evaluator.error_entry name e)]) t')
        as (entries & -> & Hl).
      exists (PDict (korean_name_evaluator.error_entry name e) :: entries).
      rewrite <- app_assoc. simpl. now rewrite Hl.
Qed.

End Failures.

(** C3.  With the model out of reach for the first of two names,
    [evaluate_korean_names] raises the connection error: it returns no
    entries, does not evaluate the second name and writes no report,
    because nothing around its call of the evaluator catches an
    exception.  On the same input [evaluate_english_names] and
    [batch_evaluate_names] return two entries, the first with the error
    string and [compliant] false, the second for the second name. *)
Theorem korean_batch_aborts_on_transport_failure :
  let kim := [0xAE40; 0xC9C0; 0xC6D0]%N in
  let lee := [0xC774; 0xBBFC; 0xD638]%N in
  let answer := lit "Compliance score: 92" in
  let failed := PDict [ (lit "name", PStr kim);
                        (lit "error", PStr (lit "Connection error."));
                        (lit "compliant", PBool false);
                        (lit "overall_score", PInt 0) ] in
  @korean_to_english_evaluator.evaluate_korean_names
     plain_tables (@python_json no_floats) (unreachable_for kim answer) [kim; lee] true []
  = (Raise connection_error, [call_without_context kim])
  /\ (exists entry,
         fst (@english_to_korean_evaluator.evaluate_english_names
                plain_tables (unreachable_for kim answer) [kim; lee] true [])
         = Return [failed; entry]
         /\ entry_for lee entry)
  /\ (exists entry,
         fst (@korean_name_evaluator.batch_evaluate_names
                plain_tables (unreachable_for kim answer) [kim; lee] (lit "KO-EN") true [])
         = Return [failed; entry]
         /\ entry_for lee entry).
Proof.
  intros kim lee answer failed. split; [vm_compute; reflexivity|].
  split.
  - eexists. split; [vm_compute; reflexivity|].
    eexists. split; reflexivity.
  - eexists. split; [vm_compute; reflexivity|].
    eexists. split; reflexivity.
Qed.

(* ================================================================= *)
(** ** The exit status *)

Section ExitStatus.
Context {U : UnicodeTables} {J : JsonLib} {W : Outside}.

(** When [name_eval_system.main] gets as far as evaluating names and
    nothing raises, it returns, whatever the records say: the status
    is 0.  (Status 1 is the refusal to run without local resources.) *)
Lemma evaluate_and_report_status (args : name_eval_system.arguments)
      (ns : list str) (t : trace) :
  match fst (name_eval_system.evaluate_and_report args ns t) with
  | Return status =>
      status = 0%Z
      \/ (status = 1%Z
          /\ name_eval_system.local_only args = true
          /\ available_local_resources = 0%nat)
  | Raise _ => True
  end.
Proof.
  unfold name_eval_system.evaluate_and_report.
  destruct (name_eval_system.local_only args) eqn:El; simpl.
  - destruct (available_local_resources =? 0)%nat eqn:Ea; simpl.
    + right. apply Nat.eqb_eq in Ea. now repeat split.
    + unfold bind. destruct (name_eval_system.process_names _ _ _ _ _ _ _ _ _)
        as [[r|e] t1]; [|exact I].
      destruct (name_eval_system.ko_en_results r); unfold ret, lift; simpl.
      * destruct (name_eval_system.en_ko_results r); simpl; [now left|].
        destruct (py_get _ _ _); simpl; [|exact I].
        destruct (compliant_count _); simpl; [now left | exact I].
      * destruct (py_get _ _ _); simpl; [|exact I].
        destruct (compliant_count _); simpl; [|exact I].
        destruct (name_eval_system.en_ko_results r); simpl; [now left|].
        destruct (py_get _ _ _); simpl; [|exact I].
        destruct (compliant_count _); simpl; [now left | exact I].
  - unfold bind. destruct (name_eval_system.process_names _ _ _ _ _ _ _ _ _)
      as [[r|e] t1]; [|exact I].
    destruct (name_eval_system.ko_en_results r); unfold ret, lift; simpl.
    + destruct (name_eval_system.en_ko_results r); simpl; [now left|].
      destruct (py_get _ _ _); simpl; [|exact I].
      destruct (compliant_count _); simpl; [now left | exact I].
    + destruct (py_get _ _ _); simpl; [|exact I].
      destruct (compliant_count _); simpl; [|exact I].
      destruct (name_eval_system.en_ko_results r); simpl; [now left|].
      destruct (py_get _ _ _); simpl; [|exact I].
      destruct (compliant_count _); simpl; [now left | exact I].
Qed.

End ExitStatus.

(** C9.  A run of [name_eval_system.py] on the name "John Smith" in the
    direction EN-KO, with an answer of the model that has no score,
    produces one record with [compliant] false and ends with the exit
    status 0: [main] prints the summary and returns, and no status is
    derived from the records.  The run of [korean_name_cli.py] on the
    same name ends with the status 1. *)
Theorem name_eval_system_exit_status_ignores_compliance :
  let john := lit "John Smith" in
  let W := answering (lit "The notation could not be checked.") in
  let args :=
    {| name_eval_system.names := [john];
       name_eval_system.file := None;
       name_eval_system.show_resources := false;
       name_eval_system.show_local_resources := false;
       name_eval_system.direction := Some (lit "EN-KO");
       name_eval_system.auto_detect := false;
       name_eval_system.output_dir := lit "reports";
       name_eval_system.local_only := false;
       name_eval_system.disable_tracing := false;
       name_eval_system.verify_in_teamwork := false;
       name_eval_system.post_to_teamwork := false;
       name_eval_system.teamwork_project_id := None;
       name_eval_system.no_teamwork := false |} in
  let cli_args :=
    {| korean_name_cli.names := [john];
       korean_name_cli.file := None;
       korean_name_cli.show_resources := false;
       korean_name_cli.direction := lit "EN-KO";
       korean_name_cli.output := lit "reports/name_evaluation_report.html";
       korean_name_cli.json_output := korean_name_cli.default_json_output |} in
  (exists record r t',
      @name_eval_system.process_names plain_tables (@python_json no_floats) W
        [john] (Some (lit "EN-KO")) (lit "reports") false true false false None []
      = (Return r, t')
      /\ name_eval_system.en_ko_results r = [PDict record]
      /\ name_eval_system.ko_en_results r = []
      /\ dict_find record (lit "compliant") = Some (PBool false)
      /\ compliant_count (name_eval_system.en_ko_results r) = Return 0%nat)
  /\ exit_status
       (fst (@name_eval_system.main plain_tables (@python_json no_floats) W args [])) = 0%Z
  /\ exit_status (fst (@korean_name_cli.main plain_tables W cli_args [])) = 1%Z.
Proof.
  intros john W args cli_args. split; [|split].
  - eexists _, _, _. split; [vm_compute; reflexivity|].
    repeat split.
  - vm_compute. reflexivity.
  - vm_compute. reflexivity.
Qed.

(* ================================================================= *)
(** ** The Teamwork client *)

Section Teamwork.
Context {U : UnicodeTables} {W : Outside}.
Import teamwork_integration.

(** [get_projects] by the status of the response. *)
Lemma get_projects_cases (c : TeamworkClient) (status : str) (t : trace) :
  get_projects c status t =
    (match requests_get t (ProjectsJson (base_url c) status) with
     | Raise e => Raise e
     | Return r =>
         if (status_code r =? 200)%Z
         then body <~ json r ;; py_get body (lit "projects") (PList [])
         else if ((400 <=? status_code r) && (status_code r <? 600))%Z
              then Raise (mk_exn HTTPError "Client or Server Error")
              else Return PNone
     end, t ++ [HttpGet (ProjectsJson (base_url c) status)]).
Proof.
  unfold get_projects, bind, http_get, lift, ret, raise_for_status.
  destruct (requests_get t _) as [r|e]; [|reflexivity].
  destruct (status_code r =? 200)%Z; [reflexivity|].
  now destruct ((400 <=? status_code r) && (status_code r <? 600))%Z.
Qed.

Lemma get_tasks_by_project_cases (c : TeamworkClient) (project_id : pyval) (t : trace) :
  get_tasks_by_project c project_id t =
    (match requests_get t (ProjectTasksJson (base_url c) project_id) with
     | Raise e => Raise e
     | Return r =>
         if (status_code r =? 200)%Z
         then body <~ json r ;; py_get body (lit "todo-items") (PList [])
         else if ((400 <=? status_code r) && (status_code r <? 600))%Z
              then Raise (mk_exn HTTPError "Client or Server Error")
              else Return PNone
     end, t ++ [HttpGet (ProjectTasksJson (base_url c) project_id)]).
Proof.
  unfold get_tasks_by_project, bind, http_get, lift, ret, raise_for_status.
  destruct (requests_get t _) as [r|e]; [|reflexivity].
  destruct (status_code r =? 200)%Z; [reflexivity|].
  now destruct ((400 <=? status_code r) && (status_code r <? 600))%Z.
Qed.

(** [verify_name_in_teamwork] by the outcome of the two searches. *)
Lemma verify_name_in_teamwork_cases (name : str) (t : trace) :
  verify_name_in_teamwork name t =
    match search_name_in_teamwork name (t ++ [HttpGet DirectProjectsJson]) with
    | (Raise e, t2) => (Return (could_not_verify name e), t2)
    | (Return results, t2) =>
        match get_previous_evaluations name t2 with
        | (Raise e, t3) => (Return (could_not_verify name e), t3)
        | (Return previous_evaluations, t3) =>
            (Return
               [ (lit "name", PStr name);
                 (lit "found_in_teamwork",
                  PBool (truthy (if truthy (PList results) then PList results
                                 else PList previous_evaluations)));
                 (lit "previous_translations", PList results);
                 (lit "previous_evaluations", PList previous_evaluations);
                 (lit "verification_status",
                  PStr (verification_status results previous_evaluations)) ], t3)
        end
    end.
Proof.
  unfold verify_name_in_teamwork.
  unfold bind at 1. unfold try_except at 1. unfold bind at 1. unfold http_get, ret.
  destruct (requests_get t DirectProjectsJson) as [r0|e0]; simpl;
    unfold try_except, bind;
    destruct (search_name_in_teamwork name (t ++ [HttpGet DirectProjectsJson]))
      as [[results|e1] t2]; try reflexivity;
    destruct (get_previous_evaluations name t2) as [[previous|e2] t3]; reflexivity.
Qed.

(** A project listing with a status other than 200 makes the search
    raise after that one request. *)
Lemma search_name_without_listing (name : str) (t : trace)
      (c : TeamworkClient) (r : response) :
  TeamworkClient_init = Return c ->
  requests_get t (ProjectsJson (base_url c) (lit "active")) = Return r ->
  status_code r <> 200%Z ->
  exists e,
    search_name_in_teamwork name t
    = (Raise e, t ++ [HttpGet (ProjectsJson (base_url c) (lit "active"))])
    /\ ((400 <= status_code r < 600)%Z ->
        e = mk_exn HTTPError "Client or Server Error").
Proof.
  intros Hc Hr Hs.
  unfold search_name_in_teamwork, try_except, bind at 1, lift at 1. rewrite Hc.
  unfold search_tasks, bind at 1 2. rewrite get_projects_cases, Hr.
  apply Z.eqb_neq in Hs. rewrite Hs.
  destruct ((400 <=? status_code r) && (status_code r <? 600))%Z eqn:E.
  - eexists. split; [reflexivity|]. reflexivity.
  - eexists. split; [reflexivity|]. intro H.
    apply andb_false_iff in E. destruct E as [E|E];
      [apply Z.leb_gt in E | apply Z.ltb_ge in E]; lia.
Qed.

End Teamwork.

(** C7 (as amended).  [get_projects] and [get_tasks_by_project] raise
    an [HTTPError] when the response has a status from 400 to 599.
    [verify_name_in_teamwork] never raises.  Whenever its search
    raises, it returns the record with [found_in_teamwork] false, the
    error string and the status "Error - could not verify", and asks
    nothing again; so it does when the project listing answers with a
    status from 400 to 599, after that one listing request. *)
Theorem http_errors_and_verification_record (U : UnicodeTables) (W : Outside) :
  (forall (c : teamwork_integration.TeamworkClient) (status : str) (t : trace)
          (r : response),
      requests_get t (ProjectsJson (teamwork_integration.base_url c) status) = Return r ->
      (400 <= status_code r < 600)%Z ->
      teamwork_integration.get_projects c status t
      = (Raise (mk_exn HTTPError "Client or Server Error"),
         t ++ [HttpGet (ProjectsJson (teamwork_integration.base_url c) status)]))
  /\ (forall (c : teamwork_integration.TeamworkClient) (project_id : pyval) (t : trace)
             (r : response),
         requests_get t (ProjectTasksJson (teamwork_integration.base_url c) project_id)
         = Return r ->
         (400 <= status_code r < 600)%Z ->
         teamwork_integration.get_tasks_by_project c project_id t
         = (Raise (mk_exn HTTPError "Client or Server Error"),
            t ++ [HttpGet (ProjectTasksJson (teamwork_integration.base_url c)
                                            project_id)]))
  /\ (forall (name : str) (t : trace),
         exists d t', teamwork_integration.verify_name_in_teamwork name t = (Return d, t'))
  /\ (forall (name : str) (t t2 : trace) (e : exn),
         teamwork_integration.search_name_in_teamwork
           name (t ++ [HttpGet DirectProjectsJson]) = (Raise e, t2) ->
         teamwork_integration.verify_name_in_teamwork name t
         = (Return (teamwork_integration.could_not_verify name e), t2))
  /\ (forall (name : str) (t : trace) (c : teamwork_integration.TeamworkClient)
             (r : response),
         teamwork_integration.TeamworkClient_init = Return c ->
         requests_get (t ++ [HttpGet DirectProjectsJson])
                      (ProjectsJson (teamwork_integration.base_url c) (lit "active"))
         = Return r ->
         (400 <= status_code r < 600)%Z ->
         teamwork_integration.verify_name_in_teamwork name t
         = (Return (teamwork_integration.could_not_verify
                      name (mk_exn HTTPError "Client or Server Error")),
            t ++ [HttpGet DirectProjectsJson;
                  HttpGet (ProjectsJson (teamwork_integration.base_url c)
                                        (lit "active"))])).
Proof.
  assert (Hcode : forall r : response,
             (400 <= status_code r < 600)%Z ->
             (status_code r =? 200)%Z = false
             /\ ((400 <=? status_code r) && (status_code r <? 600))%Z = true).
  { intros r H. split; [apply Z.eqb_neq; lia|].
    apply andb_true_iff. split; [apply Z.leb_le | apply Z.ltb_lt]; lia. }
  split; [|split; [|split; [|split]]].
  - intros c status t r Hr H. destruct (Hcode r H) as [E1 E2].
    now rewrite get_projects_cases, Hr, E1, E2.
  - intros c project_id t r Hr H. destruct (Hcode r H) as [E1 E2].
    now rewrite get_tasks_by_project_cases, Hr, E1, E2.
  - intros name t. rewrite verify_name_in_teamwork_cases.
    destruct (teamwork_integration.search_name_in_teamwork _ _) as [[results|e] t2];
      [|eauto].
    destruct (teamwork_integration.get_previous_evaluations name t2)
      as [[previous|e] t3]; eauto.
  - intros name t t2 e H. now rewrite verify_name_in_teamwork_cases, H.
  - intros name t c r Hc Hr H.
    assert (Hs : status_code r <> 200%Z) by lia.
    destruct (search_name_without_listing name _ Hc Hr Hs) as (e & He & Hk).
    rewrite verify_name_in_teamwork_cases, He, (Hk H). now rewrite <- app_assoc.
Qed.

(** Teamwork answering 503: the listing raises, and the verification
    of a name returns the error record after one listing request. *)
Lemma http_errors_and_verification_record_witness :
  let kim := [0xAE40; 0xC9C0; 0xC6D0]%N in
  let c := {| teamwork_integration.api_key := lit "twp_key";
              teamwork_integration.domain := lit "cultureflipper" |} in
  let listing := HttpGet (ProjectsJson (lit "https://cultureflipper.teamwork.com")
                                       (lit "active")) in
  @teamwork_integration.get_projects (teamwork_status 503) c (lit "active") []
  = (Raise (mk_exn HTTPError "Client or Server Error"), [listing])
  /\ @teamwork_integration.verify_name_in_teamwork plain_tables (teamwork_status 503)
       kim []
     = (Return [ (lit "name", PStr kim);
                 (lit "found_in_teamwork", PBool false);
                 (lit "error", PStr (lit "Client or Server Error"));
                 (lit "verification_status", PStr (lit "Error - could not verify")) ],
        [HttpGet DirectProjectsJson; listing]).
Proof.
  intros kim c listing.
  destruct (http_errors_and_verification_record plain_tables (teamwork_status 503))
    as (Hget & _ & _ & _ & Hverify).
  split.
  - apply (Hget c (lit "active") []
                {| status_code := 503;
                   json := Raise (mk_exn JSONDecodeError "Expecting value") |}).
    + reflexivity.
    + simpl. lia.
  - apply (Hverify kim [] c
                   {| status_code := 503;
                      json := Raise (mk_exn JSONDecodeError "Expecting value") |}).
    + reflexivity.
    + reflexivity.
    + simpl. lia.
Defined.

(** C7 as stated fails: not every error ends in the error record.
    When the tasks of a project cannot be fetched (status 500),
    [get_tasks_by_project] raises, [search_tasks] catches that and
    skips the project, and the verification reports "Not found in
    Teamwork records". *)
Lemma task_errors_are_swallowed :
  ~ (forall (U : UnicodeTables) (W : Outside) (name : str)
            (c : teamwork_integration.TeamworkClient) (project_id : pyval) (e : exn),
       (forall t, fst (teamwork_integration.get_tasks_by_project c project_id t)
                  = Raise e) ->
       In (HttpGet (ProjectTasksJson (teamwork_integration.base_url c) project_id))
          (snd (teamwork_integration.verify_name_in_teamwork name [])) ->
       exists e',
         fst (teamwork_integration.verify_name_in_teamwork name [])
         = Return (teamwork_integration.could_not_verify name e')).
Proof.
  intro H.
  destruct (H plain_tables tasks_unavailable [0xAE40; 0xC9C0; 0xC6D0]%N
              {| teamwork_integration.api_key := lit "twp_key";
                 teamwork_integration.domain := lit "cultureflipper" |}
              (PStr (lit "101"))
              (mk_exn HTTPError "Client or Server Error")) as (e' & He).
  - intro t. now rewrite get_tasks_by_project_cases.
  - vm_compute. tauto.
  - vm_compute in He. discriminate.
Qed.

(** The record returned in that world. *)
Lemma task_errors_leave_not_found_record :
  let kim := [0xAE40; 0xC9C0; 0xC6D0]%N in
  fst (@teamwork_integration.verify_name_in_teamwork plain_tables tasks_unavailable kim [])
  = Return [ (lit "name", PStr kim);
             (lit "found_in_teamwork", PBool false);
             (lit "previous_translations", PList []);
             (lit "previous_evaluations", PList []);
             (lit "verification_status", PStr (lit "Not found in Teamwork records")) ].
Proof. vm_compute. reflexivity. Qed.

(** A status outside 400 to 599 does not raise: for 304 [get_projects]
    returns [None]. *)
Lemma redirect_status_does_not_raise :
  @teamwork_integration.get_projects (teamwork_status 304)
    {| teamwork_integration.api_key := lit "twp_key";
       teamwork_integration.domain := lit "cultureflipper" |}
    (lit "active") []
  = (Return PNone,
     [HttpGet (ProjectsJson (lit "https://cultureflipper.teamwork.com") (lit "active"))]).
Proof. vm_compute. reflexivity. Qed.

(* ################################################################# *)
(** * Further properties of the code *)

(* ================================================================= *)
(** ** Sorting names by language *)

(** The result of [auto_detect_names] for any list of names. *)
Lemma auto_detect_names_cases (names : list str) :
  name_eval_system.auto_detect_names names =
    if forallb nonempty names
    then Return (filter detects_korean names,
                 filter (fun name => negb (detects_korean name)) names)
    else Raise (mk_exn ZeroDivisionError "division by zero").
Proof.
  induction names as [|name names IH]; [reflexivity|].
  cbn [name_eval_system.auto_detect_names forallb filter]. rewrite IH.
  destruct name as [|c name]; [reflexivity|].
  assert (E : detects_korean (c :: name)
              = (14411518807585589 * N.of_nat (length (c :: name))
                 <? name_eval_system.korean_chars (c :: name) * 2 ^ 56)%N).
  { unfold detects_korean.
    rewrite (@detect_language_counts (c :: name)) by discriminate.
    now destruct (_ <? _)%N. }
  rewrite E, (@detect_language_counts (c :: name)) by discriminate.
  cbn [nonempty andb obind].
  destruct (forallb nonempty names); [|reflexivity].
  now destruct (_ <? _)%N.
Qed.

(** X1.  [auto_detect_names] raises the division error when some name
    is empty; otherwise it returns the names the detector classifies
    as Korean and the other names, each list in the order of the
    input. *)
Theorem auto_detect_names_partitions (names : list str) :
  name_eval_system.auto_detect_names names =
    if forallb nonempty names
    then Return (filter detects_korean names,
                 filter (fun name => negb (detects_korean name)) names)
    else Raise (mk_exn ZeroDivisionError "division by zero").
Proof. exact (auto_detect_names_cases names). Qed.

Section Stripping.
Context {U : UnicodeTables}.

Lemma lstrip_head (s : str) :
  lstrip s = [] \/ exists c r, lstrip s = c :: r /\ py_isspace c = false.
Proof.
  induction s as [|c s IH]; [now left|].
  simpl. destruct (py_isspace c) eqn:E; [exact IH|]. right. eauto.
Qed.

Lemma lstrip_fixed (c : char) (r : str) :
  py_isspace c = false -> lstrip (c :: r) = c :: r.
Proof. intro H. simpl. now rewrite H. Qed.

Lemma lstrip_idempotent (s : str) : lstrip (lstrip s) = lstrip s.
Proof.
  destruct (lstrip_head s) as [-> | (c & r & -> & H)]; [reflexivity|].
  now apply lstrip_fixed.
Qed.

Lemma lstrip_in (x : char) (s : str) : In x (lstrip s) -> In x s.
Proof.
  induction s as [|c s IH]; [easy|].
  simpl. destruct (py_isspace c); [intro H; right; now apply IH | easy].
Qed.

Lemma lstrip_keeps_last (a : str) (c : char) :
  py_isspace c = false -> exists w, lstrip (a ++ [c]) = w ++ [c].
Proof.
  intro H. induction a as [|x a IH].
  - exists []. simpl. now rewrite H.
  - simpl. destruct (py_isspace x); [exact IH|]. now exists (x :: a).
Qed.

Lemma strip_in (x : char) (s : str) : In x (strip s) -> In x s.
Proof.
  unfold strip, rstrip. intro H.
  apply lstrip_in. apply in_rev. apply lstrip_in with (s := rev (lstrip s)).
  now apply in_rev.
Qed.

Lemma strip_idempotent (s : str) : strip (strip s) = strip s.
Proof.
  unfold strip.
  assert (Hl : lstrip (rstrip (lstrip s)) = rstrip (lstrip s)).
  { destruct (lstrip_head s) as [-> | (c & r & -> & H)]; [reflexivity|].
    unfold rstrip. simpl rev.
    destruct (@lstrip_keeps_last (rev r) c H) as [w ->].
    rewrite rev_app_distr. simpl. now rewrite H. }
  rewrite Hl. unfold rstrip at 1 2. rewrite rev_involutive.
  now rewrite lstrip_idempotent.
Qed.

Lemma split_on_no_separator (sep : char) (s : str) :
  Forall (fun w => ~ In sep w) (split_on sep s).
Proof.
  induction s as [|c s IH]; simpl.
  - constructor; [easy | constructor].
  - destruct (chr_eqb c sep) eqn:E; [constructor; [easy | exact IH]|].
    destruct (split_on sep s) as [|w ws]; [constructor; [|constructor]|].
    + intros [->|[]]. unfold chr_eqb in E. now rewrite N.eqb_refl in E.
    + inversion IH as [|? ? Hw Hws]; subst. constructor; [|exact Hws].
      intros [->|H]; [|now apply Hw].
      unfold chr_eqb in E. now rewrite N.eqb_refl in E.
Qed.

(** The names taken from one [--names] argument. *)
Lemma split_argument_clean (name_arg : str) :
  Forall (fun n => n <> [] /\ ~ In 44%N n /\ strip n = n)
         (filter nonempty (map strip (split_on 44%N name_arg))).
Proof.
  pose proof (split_on_no_separator 44%N name_arg) as H.
  induction H as [|w ws Hw _ IH]; simpl; [constructor|].
  destruct (strip w) as [|c r] eqn:E; simpl; [exact IH|].
  constructor; [|exact IH]. rewrite <- E.
  split; [rewrite E; discriminate|].
  split; [intro Hin; apply Hw; now apply strip_in | apply strip_idempotent].
Qed.

End Stripping.

(** X2.  The names [main] takes from the [--names] arguments are
    split at commas and stripped: none is empty, none contains a
    comma, and stripping one again changes nothing.  So the language
    detection of these names never divides by zero. *)
Theorem split_names_are_clean (U : UnicodeTables) (name_args : list str) :
  Forall (fun n => n <> [] /\ ~ In 44%N n /\ strip n = n)
         (name_eval_system.split_names name_args)
  /\ name_eval_system.auto_detect_names (name_eval_system.split_names name_args)
     = Return (filter detects_korean (name_eval_system.split_names name_args),
               filter (fun name => negb (detects_korean name))
                      (name_eval_system.split_names name_args)).
Proof.
  assert (H : Forall (fun n => n <> [] /\ ~ In 44%N n /\ strip n = n)
                     (name_eval_system.split_names name_args)).
  { unfold name_eval_system.split_names.
    induction name_args as [|a args IH]; simpl; [constructor|].
    apply Forall_app. split; [apply split_argument_clean | exact IH]. }
  split; [exact H|].
  rewrite auto_detect_names_cases.
  replace (forallb nonempty (name_eval_system.split_names name_args)) with true;
    [reflexivity|].
  symmetry. apply forallb_forall. intros n Hn.
  rewrite Forall_forall in H. destruct (H n Hn) as [Hne _].
  now destruct n.
Qed.

(* ================================================================= *)
(** ** Batches and the exit status of [korean_name_cli.py] *)

Lemma compliant_count_spec (results : list pyval) :
  forall n, compliant_count results = Return n ->
            (n <= length results)%nat
            /\ (n = length results <-> Forall judged_compliant results).
Proof.
  induction results as [|r rest IH]; simpl; intros n H.
  - injection H as <-. split; [lia|]. split; [constructor | reflexivity].
  - destruct (py_get r (lit "compliant") (PBool false)) as [c|] eqn:Ec;
      simpl in H; [|discriminate].
    destruct (compliant_count rest) as [m|]; simpl in H; [|discriminate].
    destruct (IH m eq_refl) as [Hle Hiff].
    injection H as <-. destruct (truthy c) eqn:Et.
    + split; [lia|]. split.
      * intro E. constructor; [now exists c|]. apply Hiff. lia.
      * intro F. inversion F; subst. f_equal. now apply Hiff.
    + split; [lia|]. split; [lia|].
      intro F. inversion F as [|? ? (c' & Hc' & Ht') _]; subst.
      rewrite Ec in Hc'. injection Hc' as <-. congruence.
Qed.

Section Batches.
Context {U : UnicodeTables} {W : Outside}.

(** A record returned by [evaluate_english_name] has no error
    string. *)
Lemma evaluate_english_name_no_error (name : str) (check_teamwork : bool)
      (t t' : trace) (r : dict) :
  english_to_korean_evaluator.evaluate_english_name name check_teamwork t = (Return r, t') ->
  dict_find r (lit "error") = None.
Proof.
  unfold english_to_korean_evaluator.evaluate_english_name, bind, lift, ret, invoke_text.
  destruct openai_client; [|discriminate].
  destruct (teamwork_block.consult name check_teamwork t) as [[tw|] t1]; [|discriminate].
  destruct (llm_text t1 _); [|discriminate].
  intros [= <- _]. unfold english_to_korean_evaluator.evaluation_result.
  destruct (snd tw) as [tv|]; [|reflexivity].
  now destruct (truthy (PDict tv)).
Qed.

Lemma evaluate_english_each_english_entries (names : list str) (check_teamwork : bool) :
  forall (results : list pyval) (t : trace),
  exists entries,
    fst (english_to_korean_evaluator.evaluate_each names check_teamwork results t)
    = Return (results ++ entries)
    /\ Forall2 english_entry names entries.
Proof.
  induction names as [|name names IH]; intros results t.
  - exists []. simpl. rewrite app_nil_r. split; [reflexivity | constructor].
  - rewrite evaluate_english_each_step.
    destruct (english_to_korean_evaluator.evaluate_english_name name check_teamwork t)
      as [[r|e] t'] eqn:E.
    + destruct (IH (results ++ [PDict r]) t') as (entries & -> & Hf).
      exists (PDict r :: entries). rewrite <- app_assoc. split; [reflexivity|].
      constructor; [|exact Hf].
      exists r. split; [reflexivity|].
      split; [eapply evaluate_english_name_entry; eassumption|].
      left. eapply evaluate_english_name_no_error; eassumption.
    + destruct (IH (results ++ [PDict (english_to_korean_evaluator.error_entry name e)]) t')
        as (entries & -> & Hf).
      exists (PDict (english_to_korean_evaluator.error_entry name e) :: entries).
      rewrite <- app_assoc. split; [reflexivity|].
      constructor; [|exact Hf].
      eexists. split; [reflexivity|]. split; [reflexivity|].
      right. exists (exn_str e). repeat split.
Qed.

(** When [batch_evaluate_names] returns, it returns one entry for each
    name. *)
Lemma batch_evaluate_names_length (names : list str) (direction : str)
      (check_teamwork : bool) (t t' : trace) (results : list pyval) :
  korean_name_evaluator.batch_evaluate_names names direction check_teamwork t
  = (Return results, t') ->
  length results = length names.
Proof.
  unfold korean_name_evaluator.batch_evaluate_names, bind, lift, write, ret.
  destruct openai_client; [|discriminate].
  destruct (batch_evaluate_each_entries names direction check_teamwork [] t)
    as (entries & He & Hl).
  destruct (korean_name_evaluator.evaluate_each names direction check_teamwork [] t)
    as [[all|e] t1]; simpl in He; [|discriminate].
  injection He as ->. destruct (perform t1 _); [|discriminate].
  now intros [= <- _].
Qed.

End Batches.

(** X3.  [korean_name_cli.py], run on names: when [main] gets to its
    last line, the batch has returned one record for each name, and
    the exit status is 0 exactly when every record counts as compliant
    ([r.get("compliant", False)] is true), and 1 otherwise. *)
Theorem cli_exit_status_counts_compliant (U : UnicodeTables) (W : Outside)
        (args : korean_name_cli.arguments) (t t' : trace) (status : Z) :
  korean_name_cli.show_resources args = false ->
  korean_name_cli.names args <> [] ->
  korean_name_cli.main args t = (Return status, t') ->
  exists results,
    fst (korean_name_evaluator.batch_evaluate_names
           (korean_name_cli.names args) (korean_name_cli.direction args) true t)
    = Return results
    /\ length results = length (korean_name_cli.names args)
    /\ (status = 0%Z <-> Forall judged_compliant results)
    /\ (status = 0%Z \/ status = 1%Z).
Proof.
  intros Hshow Hnames. unfold korean_name_cli.main. rewrite Hshow.
  destruct (korean_name_cli.names args) as [|name names] eqn:En; [contradiction|].
  remember (name :: names) as ns eqn:Ens.
  unfold korean_name_cli.evaluate_and_exit.
  unfold bind at 1.
  destruct (korean_name_evaluator.batch_evaluate_names _ _ _ t) as [[results|e] t1] eqn:Eb;
    [|discriminate].
  pose proof (batch_evaluate_names_length _ _ _ _ Eb) as Hlen.
  unfold korean_name_evaluator.generate_html_report, bind, write, lift, ret.
  destruct (perform t1 _); [|discriminate].
  match goal with
  | |- context [if ?b then _ else _] => destruct b
  end.
  - destruct (perform _ _); [|discriminate].
    destruct (compliant_count results) as [count|] eqn:Ec; [|discriminate].
    destruct (compliant_count_spec results Ec) as [Hle Hiff].
    match goal with
    | |- context [obind ?o _] => destruct o; cbn [obind]; [|discriminate]
    end.
    match goal with
    | |- context [match ?o with Return _ => _ | Raise _ => _ end] =>
        destruct o; [|discriminate]
    end.
    intros [= <- _]. exists results. split; [reflexivity|]. split; [exact Hlen|].
    rewrite <- Hlen, <- Hiff.
    destruct (count =? length results)%nat eqn:Eq.
    + apply Nat.eqb_eq in Eq. split; [tauto | now left].
    + apply Nat.eqb_neq in Eq. split; [split; [discriminate | tauto] | now right].
  - destruct (compliant_count results) as [count|] eqn:Ec; [|discriminate].
    destruct (compliant_count_spec results Ec) as [Hle Hiff].
    match goal with
    | |- context [obind ?o _] => destruct o; cbn [obind]; [|discriminate]
    end.
    match goal with
    | |- context [match ?o with Return _ => _ | Raise _ => _ end] =>
        destruct o; [|discriminate]
    end.
    intros [= <- _]. exists results. split; [reflexivity|]. split; [exact Hlen|].
    rewrite <- Hlen, <- Hiff.
    destruct (count =? length results)%nat eqn:Eq.
    + apply Nat.eqb_eq in Eq. split; [tauto | now left].
    + apply Nat.eqb_neq in Eq. split; [split; [discriminate | tauto] | now right].
Qed.

(** A run on one name for which structured extraction answers with a
    compliant record: the status is 0. *)
Lemma cli_exit_status_counts_compliant_witness :
  let lee := [0xC774; 0xBBFC; 0xD638]%N in
  let W := unreachable_for [0xAE40; 0xC9C0; 0xC6D0]%N (lit "Compliant.") in
  exists results,
    fst (@korean_name_evaluator.batch_evaluate_names plain_tables W
           [lee] (lit "KO-EN") true [])
    = Return results
    /\ length results = 1%nat
    /\ (0%Z = 0%Z <-> Forall judged_compliant results)
    /\ (0%Z = 0%Z \/ 0%Z = 1%Z).
Proof.
  intros lee W.
  apply (@cli_exit_status_counts_compliant plain_tables W
           {| korean_name_cli.names := [lee];
              korean_name_cli.file := None;
              korean_name_cli.show_resources := false;
              korean_name_cli.direction := lit "KO-EN";
              korean_name_cli.output := lit "reports/name_evaluation_report.html";
              korean_name_cli.json_output := korean_name_cli.default_json_output |}
           []
           (snd (@korean_name_cli.main plain_tables W
                   {| korean_name_cli.names := [lee];
                      korean_name_cli.file := None;
                      korean_name_cli.show_resources := false;
                      korean_name_cli.direction := lit "KO-EN";
                      korean_name_cli.output := lit "reports/name_evaluation_report.html";
                      korean_name_cli.json_output := korean_name_cli.default_json_output |}
                   []))
           0%Z).
  - reflexivity.
  - discriminate.
  - vm_compute. reflexivity.
Defined.

(** X4.  [evaluate_english_names] records one entry for every name,
    in order, whatever happens while a name is evaluated: an entry is
    a record about its name, and one with an error string is not
    compliant and has the score 0.  The function returns these
    entries; it raises only when writing the report raises. *)
Theorem evaluate_english_names_one_entry_per_name
        (U : UnicodeTables) (W : Outside)
        (names : list str) (check_teamwork : bool) (t : trace) :
  exists entries,
    Forall2 english_entry names entries
    /\ (fst (english_to_korean_evaluator.evaluate_english_names names check_teamwork t)
        = Return entries
        \/ exists e t1,
             fst (english_to_korean_evaluator.evaluate_english_names
                    names check_teamwork t) = Raise e
             /\ perform t1 (WriteJson (lit "reports/english_name_evaluation_results.json")
                                      (PList entries)) = Raise e).
Proof.
  destruct (evaluate_english_each_english_entries names check_teamwork [] t)
    as (entries & He & Hf).
  exists entries. split; [exact Hf|].
  unfold english_to_korean_evaluator.evaluate_english_names, bind, write, ret.
  destruct (english_to_korean_evaluator.evaluate_each names check_teamwork [] t)
    as [[all|e] t1]; simpl in He; [|discriminate].
  injection He as ->.
  destruct (perform t1 _) as [[]|e] eqn:Ep; [now left|].
  right. exists e, t1. split; [reflexivity | exact Ep].
Qed.

(** X5.  [batch_evaluate_names] raises when the client cannot be
    built; otherwise it records one entry for every name, whatever
    happens while a name is evaluated, and returns these entries unless
    writing the report raises. *)
Theorem batch_evaluate_names_one_entry_per_name
        (U : UnicodeTables) (W : Outside)
        (names : list str) (direction : str) (check_teamwork : bool) (t : trace) :
  match openai_client with
  | Raise e =>
      korean_name_evaluator.batch_evaluate_names names direction check_teamwork t
      = (Raise e, t)
  | Return _ =>
      exists entries,
        length entries = length names
        /\ (fst (korean_name_evaluator.batch_evaluate_names
                   names direction check_teamwork t) = Return entries
            \/ exists e t1,
                 fst (korean_name_evaluator.batch_evaluate_names
                        names direction check_teamwork t) = Raise e
                 /\ perform t1 (WriteJson (lit "reports/name_evaluation_results.json")
                                          (PList entries)) = Raise e)
  end.
Proof.
  unfold korean_name_evaluator.batch_evaluate_names, bind, lift, write, ret.
  destruct openai_client as [[]|e0]; [|reflexivity].
  destruct (batch_evaluate_each_entries names direction check_teamwork [] t)
    as (entries & He & Hl).
  exists entries. split; [exact Hl|].
  destruct (korean_name_evaluator.evaluate_each names direction check_teamwork [] t)
    as [[all|e] t1]; simpl in He; [|discriminate].
  injection He as ->.
  destruct (perform t1 _) as [[]|e] eqn:Ep; [now left|].
  right. exists e, t1. split; [reflexivity | exact Ep].
Qed.

(* ================================================================= *)
(** ** Searching and verifying in Teamwork *)

Section TeamworkSearch.
Context {U : UnicodeTables} {W : Outside}.
Import teamwork_integration.

Lemma dict_get_set_other (d : dict) (k k' : str) (v default : pyval) :
  str_eqb k k' = false -> dict_get (dict_set d k v) k' default = dict_get d k' default.
Proof. intro H. unfold dict_get. now rewrite dict_find_set_other. Qed.

(** A task kept by the inner loop of [search_tasks] mentions the
    query. *)
Lemma match_task_mentions (query : str) (project task task' : pyval) :
  match_task (py_lower query) project task = Return (Some task') ->
  task_mentions query task'.
Proof.
  unfold match_task. destruct task as [| | | | | |d]; simpl; try discriminate.
  destruct (dict_get d (lit "content") (PStr [])) as [| | | |content| |] eqn:Ec;
    simpl; try discriminate.
  destruct (dict_get d (lit "description") (PStr [])) as [| | | |description| |] eqn:Ed;
    simpl; try discriminate.
  destruct (contains (py_lower query) (py_lower content)
            || contains (py_lower query) (py_lower description)) eqn:Em;
    [|discriminate].
  destruct (py_get project (lit "name") PNone) as [pname|]; simpl; [|discriminate].
  intros [= <-].
  exists (dict_set d (lit "projectName") pname), content, description.
  split; [reflexivity|].
  rewrite !dict_get_set_other by reflexivity.
  repeat split; try assumption.
  unfold dict_has. now rewrite dict_find_set_same.
Qed.

Lemma filter_tasks_mentions (query : str) (project : pyval) (tasks : list pyval) :
  forall found, filter_tasks (py_lower query) project tasks = Return found ->
                Forall (task_mentions query) found.
Proof.
  induction tasks as [|task tasks IH]; simpl; intros found H.
  - injection H as <-. constructor.
  - destruct (match_task (py_lower query) project task) as [m|] eqn:Em;
      simpl in H; [|discriminate].
    destruct (filter_tasks (py_lower query) project tasks) as [ms|];
      simpl in H; [|discriminate].
    injection H as <-. destruct m as [task'|]; [|now apply IH].
    constructor; [eapply match_task_mentions; eassumption | now apply IH].
Qed.

Lemma search_projects_mentions (c : TeamworkClient) (query : str)
      (projects : list pyval) :
  forall (acc : list pyval) (t t' : trace) (tasks : list pyval),
    Forall (task_mentions query) acc ->
    search_projects c query projects acc t = (Return tasks, t') ->
    Forall (task_mentions query) tasks.
Proof.
  induction projects as [|project projects IH]; intros acc t t' tasks Hacc.
  - simpl. unfold ret. now intros [= <- _].
  - cbn [search_projects]. unfold bind at 1, lift at 1.
    destruct (py_get project (lit "id") PNone) as [project_id|]; [|discriminate].
    unfold bind at 1, try_except.
    destruct (project_matches c query project project_id t) as [[found|e] t1] eqn:Ep.
    + apply IH. apply Forall_app. split; [exact Hacc|].
      unfold project_matches, bind, lift in Ep.
      destruct (get_tasks_by_project c project_id t) as [[ts|] t2]; [|discriminate].
      destruct (py_iter ts) as [items|]; simpl in Ep; [|discriminate].
      destruct (filter_tasks (py_lower query) project items) as [ms|] eqn:Ef;
        [|discriminate].
      injection Ep as <- _. eapply filter_tasks_mentions; eassumption.
    + unfold ret. apply IH. rewrite app_nil_r. exact Hacc.
Qed.

End TeamworkSearch.

(** X6.  Every task [search_tasks] returns mentions the query in its
    content or in its description, whatever the case of the letters,
    and carries the name of its project under [projectName]. *)
Theorem search_tasks_returns_mentions (U : UnicodeTables) (W : Outside)
        (c : teamwork_integration.TeamworkClient) (query : str)
        (t t' : trace) (tasks : list pyval) :
  teamwork_integration.search_tasks c query t = (Return tasks, t') ->
  Forall (task_mentions query) tasks.
Proof.
  unfold teamwork_integration.search_tasks, bind, lift.
  destruct (teamwork_integration.get_projects c (lit "active") t)
    as [[projects|] t1]; [|discriminate].
  destruct (py_iter projects) as [items|]; [|discriminate].
  apply search_projects_mentions. constructor.
Qed.

(** A search for "김지원" in a project with two tasks returns the one
    that mentions the name. *)
Lemma search_tasks_returns_mentions_witness :
  Forall (@task_mentions plain_tables [0xAE40; 0xC9C0; 0xC6D0]%N)
         [PDict [ (lit "id", PStr (lit "7"));
                  (lit "content",
                   PStr ([0xAE40; 0xC9C0; 0xC6D0]%N ++ lit " (Kim Ji-won)"));
                  (lit "description", PStr []);
                  (lit "projectName", PStr (lit "Names")) ]].
Proof.
  apply (@search_tasks_returns_mentions plain_tables teamwork_with_task
           {| teamwork_integration.api_key := lit "twp_key";
              teamwork_integration.domain := lit "cultureflipper" |}
           [0xAE40; 0xC9C0; 0xC6D0]%N []
           [HttpGet (ProjectsJson (lit "https://cultureflipper.teamwork.com")
                                  (lit "active"));
            HttpGet (ProjectTasksJson (lit "https://cultureflipper.teamwork.com")
                                      (PStr (lit "101")))]).
  vm_compute. reflexivity.
Defined.

Section Verification.
Context {U : UnicodeTables} {W : Outside}.
Import teamwork_integration.

(** The records [search_name_in_teamwork] returns have the seven keys
    of the formatted task, and no [title]. *)
Lemma format_task_keys (c : TeamworkClient) (task r : pyval) :
  format_task c task = Return r ->
  exists d, r = PDict d /\ dict_find d (lit "title") = None.
Proof.
  unfold format_task. destruct task; simpl; try discriminate.
  intros [= <-]. eexists. split; reflexivity.
Qed.

Lemma omap_format_task_keys (c : TeamworkClient) (tasks : list pyval) :
  forall results, omap (format_task c) tasks = Return results ->
                  Forall (fun r => exists d, r = PDict d
                                             /\ dict_find d (lit "title") = None)
                         results.
Proof.
  induction tasks as [|task tasks IH]; simpl; intros results H.
  - injection H as <-. constructor.
  - destruct (format_task c task) as [r|] eqn:Er; simpl in H; [|discriminate].
    destruct (omap (format_task c) tasks) as [rs|]; simpl in H; [|discriminate].
    injection H as <-. constructor; [eapply format_task_keys; eassumption|].
    now apply IH.
Qed.

Lemma search_name_in_teamwork_keys (name : str) (t t' : trace) (results : list pyval) :
  search_name_in_teamwork name t = (Return results, t') ->
  Forall (fun r => exists d, r = PDict d /\ dict_find d (lit "title") = None) results.
Proof.
  unfold search_name_in_teamwork, try_except, bind, lift, raise.
  destruct TeamworkClient_init as [c|]; [|discriminate].
  destruct (search_tasks c name t) as [[tasks|] t1]; [|discriminate].
  destruct (omap (format_task c) tasks) as [rs|] eqn:Eo; [|discriminate].
  intros [= <- _]. eapply omap_format_task_keys; eassumption.
Qed.

(** The records of [get_previous_evaluations] have a title and a
    date. *)
Lemma collect_evaluations_keys (tasks : list pyval) :
  forall records, collect_evaluations tasks = Return records ->
                  Forall (fun r => exists title created,
                                     py_getitem r (lit "title") = Return title
                                     /\ py_getitem r (lit "created_at") = Return created)
                         records.
Proof.
  induction tasks as [|task tasks IH]; simpl; intros records H.
  - injection H as <-. constructor.
  - destruct (evaluation_of_task task) as [m|] eqn:Em; simpl in H; [|discriminate].
    destruct (collect_evaluations tasks) as [ms|]; simpl in H; [|discriminate].
    injection H as <-. destruct m as [r|]; [|now apply IH].
    constructor; [|now apply IH].
    unfold evaluation_of_task in Em.
    destruct (py_get task (lit "content") (PStr [])) as [task_name|]; simpl in Em;
      [|discriminate].
    destruct (py_in (lit "Name Evaluation:") task_name) as [marked|]; simpl in Em;
      [|discriminate].
    destruct (if marked then Return true
              else low <~ py_lower_val task_name ;;
                   Return (contains (lit "name evaluation") low)) as [is_eval|];
      simpl in Em; [|discriminate].
    destruct is_eval; [|discriminate].
    destruct task; simpl in Em; try discriminate.
    injection Em as <-. eexists _, _. split; reflexivity.
Qed.

Lemma get_previous_evaluations_keys (name : str) (t t' : trace) (records : list pyval) :
  get_previous_evaluations name t = (Return records, t') ->
  Forall (fun r => exists title created,
                     py_getitem r (lit "title") = Return title
                     /\ py_getitem r (lit "created_at") = Return created)
         records.
Proof.
  unfold get_previous_evaluations, bind, lift.
  destruct (search_name_in_teamwork name t) as [[results|] t1]; [|discriminate].
  destruct (collect_evaluations results) as [rs|] eqn:Ec; [|discriminate].
  intros [= <- _]. eapply collect_evaluations_keys; eassumption.
Qed.

Lemma record_lines_returns (records : list pyval) :
  Forall (fun r => exists title created,
                     py_getitem r (lit "title") = Return title
                     /\ py_getitem r (lit "created_at") = Return created)
         records ->
  exists text, teamwork_block.record_lines records = Return text.
Proof.
  induction 1 as [|r rs (title & created & Ht & Hc) _ (text & IH)]; simpl.
  - eauto.
  - rewrite Ht, Hc, IH. simpl. eauto.
Qed.

Lemma Forall_firstn {A : Type} (P : A -> Prop) (n : nat) (l : list A) :
  Forall P l -> Forall P (firstn n l).
Proof.
  intro H. revert n. induction H as [|x l Hx _ IH]; intros [|n]; simpl;
    constructor; auto.
Qed.

(** The shape of what [verify_name_in_teamwork] returns. *)
Lemma verify_name_in_teamwork_shape (name : str) (t : trace) :
  (exists e t',
      verify_name_in_teamwork name t = (Return (could_not_verify name e), t'))
  \/ (exists results previous t1 t2 t',
         verify_name_in_teamwork name t
         = (Return [ (lit "name", PStr name);
                     (lit "found_in_teamwork",
                      PBool (truthy (if truthy (PList results) then PList results
                                     else PList previous)));
                     (lit "previous_translations", PList results);
                     (lit "previous_evaluations", PList previous);
                     (lit "verification_status",
                      PStr (verification_status results previous)) ], t')
         /\ search_name_in_teamwork name t1 = (Return results, t2)
         /\ get_previous_evaluations name t2 = (Return previous, t')).
Proof.
  rewrite verify_name_in_teamwork_cases.
  destruct (search_name_in_teamwork name (t ++ [HttpGet DirectProjectsJson]))
    as [[results|e] t2] eqn:Es; [|left; eauto].
  destruct (get_previous_evaluations name t2) as [[previous|e] t3] eqn:Ep;
    [|left; eauto].
  right. exists results, previous, (t ++ [HttpGet DirectProjectsJson]), t2, t3.
  repeat split; assumption.
Qed.

End Verification.

(** X7.  [verify_name_in_teamwork] always returns a record about the
    name whose flag and status agree: with [found_in_teamwork] true
    the status is "Verified - multiple evaluations found" or "Prior
    translations found - detailed verification needed"; with the flag
    false it is "Not found in Teamwork records", or it is "Error -
    could not verify" and the record has an error string. *)
Theorem verification_record_is_consistent (U : UnicodeTables) (W : Outside)
        (name : str) (t : trace) :
  exists d t' found status,
    teamwork_integration.verify_name_in_teamwork name t = (Return d, t')
    /\ dict_find d (lit "name") = Some (PStr name)
    /\ dict_find d (lit "found_in_teamwork") = Some (PBool found)
    /\ dict_find d (lit "verification_status") = Some (PStr status)
    /\ if found
       then status = lit "Verified - multiple evaluations found"
            \/ status = lit "Prior translations found - detailed verification needed"
       else status = lit "Not found in Teamwork records"
            \/ (status = lit "Error - could not verify"
                /\ exists msg, dict_find d (lit "error") = Some (PStr msg)).
Proof.
  destruct (verify_name_in_teamwork_shape name t)
    as [(e & t' & ->) | (results & previous & t1 & t2 & t' & -> & _ & _)].
  - exists (teamwork_integration.could_not_verify name e), t', false,
           (lit "Error - could not verify").
    repeat split. right. split; [reflexivity|]. now exists (exn_str e).
  - eexists _, t', _, _. split; [reflexivity|]. repeat split.
    destruct previous as [|p ps], results as [|r rs]; simpl; auto.
Qed.

(** X8.  Without a Teamwork key in the environment,
    [verify_name_in_teamwork] still sends its direct check of the
    project listing, sends nothing else, and returns the error record
    with the message "Teamwork API key is required.". *)
Theorem verification_without_api_key (U : UnicodeTables) (W : Outside)
        (name : str) (t : trace) :
  environ_truthy "TEAMWORK_API_KEY" = false ->
  teamwork_integration.verify_name_in_teamwork name t
  = (Return [ (lit "name", PStr name);
              (lit "found_in_teamwork", PBool false);
              (lit "error", PStr (lit "Teamwork API key is required."));
              (lit "verification_status", PStr (lit "Error - could not verify")) ],
     t ++ [HttpGet DirectProjectsJson]).
Proof.
  intro Hkey. rewrite verify_name_in_teamwork_cases.
  unfold teamwork_integration.search_name_in_teamwork, try_except, bind, lift, raise,
    teamwork_integration.TeamworkClient_init.
  unfold environ_truthy in Hkey.
  destruct (environ "TEAMWORK_API_KEY") as [[|c k]|]; try discriminate; reflexivity.
Qed.

Lemma verification_without_api_key_witness :
  @teamwork_integration.verify_name_in_teamwork plain_tables (answering [])
    (lit "John Smith") []
  = (Return [ (lit "name", PStr (lit "John Smith"));
              (lit "found_in_teamwork", PBool false);
              (lit "error", PStr (lit "Teamwork API key is required."));
              (lit "verification_status", PStr (lit "Error - could not verify")) ],
     [HttpGet DirectProjectsJson]).
Proof.
  apply (@verification_without_api_key plain_tables (answering []) (lit "John Smith") []).
  reflexivity.
Defined.

(* ================================================================= *)
(** ** What the evaluators make of a Teamwork record *)

Section TeamworkInfo.
Context {U : UnicodeTables} {W : Outside}.
Import teamwork_integration.

(** The text built from a record with previous translations. *)
Lemma teamwork_info_text_title (name status : str) (r : pyval) (rs previous : list pyval) :
  (exists d, r = PDict d /\ dict_find d (lit "title") = None) ->
  Forall (fun p => exists title created,
                     py_getitem p (lit "title") = Return title
                     /\ py_getitem p (lit "created_at") = Return created)
         previous ->
  teamwork_block.teamwork_info_text
    [ (lit "name", PStr name);
      (lit "found_in_teamwork",
       PBool (truthy (if truthy (PList (r :: rs)) then PList (r :: rs)
                      else PList previous)));
      (lit "previous_translations", PList (r :: rs));
      (lit "previous_evaluations", PList previous);
      (lit "verification_status", PStr status) ]
  = Raise {| exn_kind := KeyError; exn_str := lit "'title'" |}.
Proof.
  intros (d & -> & Hd) Hprev.
  unfold teamwork_block.teamwork_info_text. cbn [py_getitem dict_find str_eqb lit].
  change (py_getitem (PDict ?tv) (lit "found_in_teamwork")) with
    (Return (PBool true)).
  cbn [obind truthy].
  assert (Hevals : exists text,
             teamwork_block.found_section
               (PDict [ (lit "name", PStr name);
                        (lit "found_in_teamwork", PBool true);
                        (lit "previous_translations", PList (PDict d :: rs));
                        (lit "previous_evaluations", PList previous);
                        (lit "verification_status", PStr status) ])
               "previous_evaluations" "evaluations" = Return text).
  { unfold teamwork_block.found_section.
    change (py_getitem _ (lit "previous_evaluations")) with (Return (PList previous)).
    cbn [obind]. destruct previous as [|p ps]; [simpl; eauto|].
    cbn [truthy py_iter obind].
    destruct (record_lines_returns (Forall_firstn 3 Hprev)) as [text ->].
    simpl. eauto. }
  destruct Hevals as [text Ht]. simpl in Ht. simpl. rewrite Ht. cbn [obind].
  unfold teamwork_block.found_section.
  change (py_getitem _ (lit "previous_translations")) with
    (Return (PList (PDict d :: rs))).
  cbn [obind truthy py_iter firstn teamwork_block.record_lines py_getitem].
  rewrite Hd. reflexivity.
Qed.

End TeamworkInfo.

(** X9.  When the verification of a name finds previous translations,
    the evaluator fails to word them: the records of
    [search_name_in_teamwork] have no [title], so building
    [teamwork_info] raises [KeyError] for 'title', and the text given
    to the model is "TEAMWORK VERIFICATION ERROR: 'title'". *)
Theorem previous_translations_break_teamwork_info
        (U : UnicodeTables) (W : Outside)
        (name : str) (t t' : trace) (tv : dict) (r : pyval) (rs : list pyval) :
  teamwork_integration.verify_name_in_teamwork name t = (Return tv, t') ->
  dict_find tv (lit "previous_translations") = Some (PList (r :: rs)) ->
  teamwork_block.teamwork_info_text tv
  = Raise {| exn_kind := KeyError; exn_str := lit "'title'" |}
  /\ (TEAMWORK_AVAILABLE = true ->
      environ_truthy "TEAMWORK_API_KEY" = true ->
      teamwork_block.consult name true t
      = (Return (lit "TEAMWORK VERIFICATION ERROR: 'title'" ++ [10%N], Some tv), t')).
Proof.
  intros Hv Hfind.
  assert (Htext : teamwork_block.teamwork_info_text tv
                  = Raise {| exn_kind := KeyError; exn_str := lit "'title'" |}).
  { destruct (verify_name_in_teamwork_shape name t)
      as [(e & t0 & H) | (results & previous & t1 & t2 & t0 & H & Hs & Hp)];
      rewrite H in Hv; injection Hv as <- <-; [discriminate|].
    simpl in Hfind. injection Hfind as ->.
    pose proof (search_name_in_teamwork_keys _ _ Hs) as Hkeys.
    inversion Hkeys as [|? ? Hr _]; subst.
    apply teamwork_info_text_title; [exact Hr|].
    eapply get_previous_evaluations_keys; eassumption. }
  split; [exact Htext|].
  intros Ha Hk. unfold teamwork_block.consult. rewrite Ha, Hk. cbn [andb].
  unfold try_except, bind, ret. rewrite Hv, Htext. reflexivity.
Qed.

(** Teamwork has a task that mentions "김지원": the text for the
    model is the error text. *)
Lemma previous_translations_break_teamwork_info_witness :
  let kim := [0xAE40; 0xC9C0; 0xC6D0]%N in
  fst (@teamwork_block.consult plain_tables teamwork_with_task kim true [])
  = Return (lit "TEAMWORK VERIFICATION ERROR: 'title'" ++ [10%N],
            Some (match fst (@teamwork_integration.verify_name_in_teamwork
                               plain_tables teamwork_with_task kim []) with
                  | Return tv => tv
                  | Raise _ => []
                  end)).
Proof.
  intro kim.
  destruct (@previous_translations_break_teamwork_info
              plain_tables teamwork_with_task kim []
              (snd (@teamwork_integration.verify_name_in_teamwork
                      plain_tables teamwork_with_task kim []))
              (match fst (@teamwork_integration.verify_name_in_teamwork
                            plain_tables teamwork_with_task kim []) with
               | Return tv => tv
               | Raise _ => []
               end)
              (PDict [ (lit "id", PStr (lit "7"));
                       (lit "content", PStr (kim ++ lit " (Kim Ji-won)"));
                       (lit "description", PStr []);
                       (lit "projectId", PNone);
                       (lit "projectName", PStr (lit "Names"));
                       (lit "url", PStr (lit "https://cultureflipper.teamwork.com/tasks/7"));
                       (lit "created-on", PStr []) ])
              [])
    as [_ H].
  - vm_compute. reflexivity.
  - vm_compute. reflexivity.
  - rewrite H; reflexivity.
Defined.

(* ================================================================= *)
(** ** What the Teamwork client adds to the trace *)

Section Requests.
Context {U : UnicodeTables} {W : Outside}.
Import teamwork_integration.

Lemma only_requests_ret {A : Type} (a : A) : only_requests (ret a).
Proof. intro t. exists []. simpl. now rewrite app_nil_r. Qed.

Lemma only_requests_lift {A : Type} (o : outcome A) : only_requests (lift o).
Proof. intro t. exists []. simpl. now rewrite app_nil_r. Qed.

Lemma only_requests_raise {A : Type} (e : exn) : only_requests (@raise A e).
Proof. intro t. exists []. simpl. now rewrite app_nil_r. Qed.

Lemma only_requests_http_get (e : endpoint) : only_requests (http_get e).
Proof. intro t. now exists [e]. Qed.

Lemma only_requests_bind {A B : Type} (m : M A) (k : A -> M B) :
  only_requests m -> (forall a, only_requests (k a)) -> only_requests (bind m k).
Proof.
  intros Hm Hk t. unfold bind. destruct (Hm t) as [es He].
  destruct (m t) as [[a|e] t1]; simpl in He; subst t1.
  - destruct (Hk a (t ++ map HttpGet es)) as [es' ->].
    exists (es ++ es'). now rewrite map_app, app_assoc.
  - now exists es.
Qed.

Lemma only_requests_try {A : Type} (m : M A) (h : exn -> M A) :
  only_requests m -> (forall e, only_requests (h e)) -> only_requests (try_except m h).
Proof.
  intros Hm Hh t. unfold try_except. destruct (Hm t) as [es He].
  destruct (m t) as [[a|e] t1]; simpl in He; subst t1.
  - now exists es.
  - destruct (Hh e (t ++ map HttpGet es)) as [es' ->].
    exists (es ++ es'). now rewrite map_app, app_assoc.
Qed.

Lemma only_requests_get_projects (c : TeamworkClient) (status : str) :
  only_requests (get_projects c status).
Proof.
  intro t. rewrite get_projects_cases. now exists [ProjectsJson (base_url c) status].
Qed.

Lemma only_requests_get_tasks (c : TeamworkClient) (project_id : pyval) :
  only_requests (get_tasks_by_project c project_id).
Proof.
  intro t. rewrite get_tasks_by_project_cases.
  now exists [ProjectTasksJson (base_url c) project_id].
Qed.

Lemma only_requests_search_projects (c : TeamworkClient) (query : str)
      (projects : list pyval) :
  forall acc, only_requests (search_projects c query projects acc).
Proof.
  induction projects as [|project projects IH]; intro acc; cbn [search_projects].
  - apply only_requests_ret.
  - apply only_requests_bind; [apply only_requests_lift|]. intro project_id.
    apply only_requests_bind; [|intro found; apply IH].
    apply only_requests_try; [|intro; apply only_requests_ret].
    apply only_requests_bind; [apply only_requests_get_tasks|].
    intro tasks. apply only_requests_lift.
Qed.

Lemma only_requests_search_name (name : str) :
  only_requests (search_name_in_teamwork name).
Proof.
  apply only_requests_try; [|intro; apply only_requests_raise].
  apply only_requests_bind; [apply only_requests_lift|]. intro c.
  apply only_requests_bind; [|intro; apply only_requests_lift].
  apply only_requests_bind; [apply only_requests_get_projects|]. intro projects.
  apply only_requests_bind; [apply only_requests_lift|]. intro items.
  apply only_requests_search_projects.
Qed.

Lemma only_requests_verify (name : str) :
  only_requests (verify_name_in_teamwork name).
Proof.
  apply only_requests_bind.
  - apply only_requests_try; [|intro; apply only_requests_ret].
    apply only_requests_bind; [apply only_requests_http_get|].
    intro; apply only_requests_ret.
  - intros _. apply only_requests_try; [|intro; apply only_requests_ret].
    apply only_requests_bind; [apply only_requests_search_name|]. intro results.
    apply only_requests_bind; [|intro; apply only_requests_ret].
    apply only_requests_bind; [apply only_requests_search_name|].
    intro; apply only_requests_lift.
Qed.

(** No record of [verify_name_in_teamwork] has the key [matches]. *)
Lemma verify_name_in_teamwork_no_matches (name : str) (t t' : trace) (tv : dict) :
  verify_name_in_teamwork name t = (Return tv, t') ->
  dict_find tv (lit "matches") = None.
Proof.
  intro Hv.
  destruct (verify_name_in_teamwork_shape name t)
    as [(e & t0 & H) | (results & previous & t1 & t2 & t0 & H & _ & _)];
    rewrite H in Hv; injection Hv as <- <-; reflexivity.
Qed.

End Requests.

(** X10.  [evaluate_korean_name] calls the model at most once, and
    the Teamwork context of that call is always "No previous
    translations found in Teamwork.", whatever Teamwork holds: the
    record of [verify_name_in_teamwork] has no [matches].  Besides
    that call it only sends requests to Teamwork, and none when
    [check_teamwork] is off. *)
Theorem evaluate_korean_name_shows_no_matches
        (U : UnicodeTables) (J : JsonLib) (W : Outside)
        (name : str) (check_teamwork : bool) (t : trace) :
  exists requests calls,
    snd (korean_to_english_evaluator.evaluate_korean_name name check_teamwork t)
    = t ++ map HttpGet requests ++ calls
    /\ (calls = [] \/ calls = [call_without_context name])
    /\ (if check_teamwork then True else requests = []).
Proof.
  unfold korean_to_english_evaluator.evaluate_korean_name.
  unfold bind at 1, lift at 1.
  destruct openai_client as [[]|e0].
  2:{ exists [], []. simpl. rewrite app_nil_r. split; [reflexivity|].
      split; [now left | now destruct check_teamwork]. }
  assert (Hcall : forall (teamwork_results : pyval) (t1 : trace),
             korean_to_english_evaluator.build_teamwork_context teamwork_results
             = Return korean_to_english_evaluator.no_previous ->
             snd (korean_to_english_evaluator.name_evaluator name teamwork_results t1)
             = t1 ++ [call_without_context name]).
  { intros tr t1 Hb.
    unfold korean_to_english_evaluator.name_evaluator, bind, lift, invoke_text, ret.
    rewrite Hb. now destruct (llm_text t1 _). }
  destruct (check_teamwork && TEAMWORK_AVAILABLE && environ_truthy "TEAMWORK_API_KEY")
    eqn:Econd.
  - unfold bind, try_except, ret.
    destruct (only_requests_verify name t) as [es He].
    destruct (teamwork_integration.verify_name_in_teamwork name t) as [[tv|e] t1] eqn:Ev;
      simpl in He; subst t1.
    + exists es, [call_without_context name].
      rewrite Hcall.
      * rewrite <- app_assoc. split; [reflexivity|]. split; [now right|].
        now destruct check_teamwork.
      * unfold korean_to_english_evaluator.build_teamwork_context, dict_get.
        now rewrite (verify_name_in_teamwork_no_matches _ _ Ev).
    + exists es, [call_without_context name].
      rewrite Hcall by reflexivity.
      rewrite <- app_assoc. split; [reflexivity|]. split; [now right|].
      now destruct check_teamwork.
  - unfold bind, ret. exists [], [call_without_context name].
    rewrite Hcall by reflexivity.
    split; [reflexivity|]. split; [now right|].
    now destruct check_teamwork.
Qed.

(* ================================================================= *)
(** ** The notation found by the line scan *)

Section Notation.
Context {U : UnicodeTables}.
Import english_to_korean_evaluator.

Lemma scan_line_notation (raw : str) (following : list str) (st : extraction) :
  korean_notation (scan_line raw following st)
  = korean_notation (extract_notation (strip raw) following st).
Proof.
  unfold scan_line, extract_lists, extract_score. cbn [korean_notation].
  destruct (mentions_score (strip raw)); [|reflexivity].
  now destruct (scan_words_keeps (split_ws (strip raw))
                                 (extract_notation (strip raw) following st)) as [-> _].
Qed.

(** A notation that is set is kept by every later line. *)
Lemma scan_lines_keeps_notation (lines : list str) :
  forall st, nonempty (korean_notation st) = true ->
             korean_notation (scan_lines lines st) = korean_notation st.
Proof.
  induction lines as [|raw following IH]; intros st H; [reflexivity|].
  cbn [scan_lines].
  assert (E : korean_notation (scan_line raw following st) = korean_notation st).
  { rewrite scan_line_notation. unfold extract_notation.
    rewrite H, andb_false_r. reflexivity. }
  rewrite IH; [exact E | now rewrite E].
Qed.

(** Lines that do not mention a notation leave it unset. *)
Lemma scan_lines_skips (pre rest : list str) :
  forall st, Forall (fun l => mentions_notation (strip l) = false) pre ->
             exists st', scan_lines (pre ++ rest) st = scan_lines rest st'
                         /\ korean_notation st' = korean_notation st.
Proof.
  induction pre as [|l pre IH]; intros st H.
  - now exists st.
  - inversion H as [|? ? Hl Hpre]; subst. cbn [app scan_lines].
    destruct (IH (scan_line l (pre ++ rest) st) Hpre) as (st' & -> & E).
    exists st'. split; [reflexivity|].
    rewrite E, scan_line_notation. unfold extract_notation. now rewrite Hl.
Qed.

Lemma split_once_contains (sep : char) (s after : str) :
  snd (split_once sep s) = Some after -> contains [sep] s = true.
Proof.
  induction s as [|c s IH]; simpl; [discriminate|].
  unfold chr_eqb in *. rewrite (N.eqb_sym sep c).
  destruct (c =? sep)%N eqn:E; [intros _; reflexivity|].
  destruct (split_once sep s) as [a b]. simpl. intro H.
  simpl in IH. now rewrite (IH H).
Qed.

End Notation.

(** X11.  In the line scan of [evaluate_english_name] the first line
    that mentions a notation and has text after its first colon
    decides the Korean notation: lines before it that do not mention a
    notation leave it unset, and once it is set no later line changes
    it. *)
Theorem first_notation_line_wins (U : UnicodeTables)
        (response : str) (pre post : list str) (raw value : str) :
  split_on 10%N response = pre ++ raw :: post ->
  Forall (fun l => english_to_korean_evaluator.mentions_notation (strip l) = false) pre ->
  english_to_korean_evaluator.mentions_notation (strip raw) = true ->
  snd (split_once 58%N (strip raw)) = Some value ->
  strip value <> [] ->
  english_to_korean_evaluator.korean_notation
    (english_to_korean_evaluator.parse_evaluation response) = strip value.
Proof.
  intros Hlines Hpre Hraw Hvalue Hne.
  unfold english_to_korean_evaluator.parse_evaluation. rewrite Hlines.
  destruct (scan_lines_skips (raw :: post) english_to_korean_evaluator.initial Hpre)
    as (st & -> & Est).
  cbn [english_to_korean_evaluator.scan_lines].
  assert (E : english_to_korean_evaluator.korean_notation
                (english_to_korean_evaluator.scan_line raw post st) = strip value).
  { rewrite scan_line_notation. unfold english_to_korean_evaluator.extract_notation.
    rewrite Hraw, Est. cbn [english_to_korean_evaluator.initial
                              english_to_korean_evaluator.korean_notation
                              nonempty negb andb].
    pose proof (split_once_contains _ _ Hvalue) as Hc.
    change (contains (lit ":") (strip raw) = true) in Hc.
    rewrite Hc, Hvalue. reflexivity. }
  rewrite scan_lines_keeps_notation; [exact E|].
  rewrite E. now destruct (strip value).
Qed.

(** The second line gives the notation; the fourth line, which offers
    another one, is ignored. *)
Lemma first_notation_line_wins_witness :
  english_to_korean_evaluator.korean_notation
    (@english_to_korean_evaluator.parse_evaluation plain_tables
       (lit "Evaluation" ++ [10%N]
          ++ lit "Korean notation: " ++ [0xC874; 0x20; 0xC2A4; 0xBBF8; 0xC2A4]%N ++ [10%N]
          ++ lit "Compliance score: 92" ++ [10%N]
          ++ lit "Hangul: " ++ [0xC8E0; 0x20; 0xC2A4; 0xBBF8; 0xC2A4]%N))
  = [0xC874; 0x20; 0xC2A4; 0xBBF8; 0xC2A4]%N.
Proof.
  apply (@first_notation_line_wins plain_tables _
           [lit "Evaluation"]
           [lit "Compliance score: 92";
            lit "Hangul: " ++ [0xC8E0; 0x20; 0xC2A4; 0xBBF8; 0xC2A4]%N]
           (lit "Korean notation: " ++ [0xC874; 0x20; 0xC2A4; 0xBBF8; 0xC2A4]%N)
           (32%N :: [0xC874; 0x20; 0xC2A4; 0xBBF8; 0xC2A4]%N)).
  - reflexivity.
  - repeat constructor.
  - reflexivity.
  - reflexivity.
  - discriminate.
Defined.

(* ================================================================= *)
(** ** The record built when structured extraction fails *)


(** X12.  When structured extraction raises and the plain call of the
    model returns a text, [evaluate_name] of [korean_name_evaluator.py]
    returns a record with the score 0 whose [compliant] says whether
    the lower-cased text contains "compliant"; so a text that says
    "non-compliant" gives a compliant record. *)
Theorem fallback_record_reads_compliant_in_text
        (U : UnicodeTables) (W : Outside)
        (name direction : str) (check_teamwork : bool) (t t1 : trace)
        (tw : str * option dict) (e : exn) (evaluation_text : str) :
  let input_data :=
    [("name", name); ("direction", direction); ("teamwork_info", fst tw)] in
  let extraction :=
    {| chain := "korean_name_evaluator.extraction_chain"; variables := input_data |} in
  teamwork_block.consult name check_teamwork t = (Return tw, t1) ->
  llm_structured t1 extraction = Raise e ->
  llm_text (t1 ++ [Llm extraction])
           {| chain := "korean_name_evaluator.prompt|llm|str"; variables := input_data |}
  = Return evaluation_text ->
  exists d t',
    korean_name_evaluator.evaluate_name name direction check_teamwork t
    = (Return (Plain (PDict d)), t')
    /\ dict_find d (lit "overall_score") = Some (PInt 0)
    /\ dict_find d (lit "compliant")
       = Some (PBool (contains (lit "compliant") (py_lower evaluation_text)))
    /\ (contains (lit "non-compliant") (py_lower evaluation_text) = true ->
        dict_find d (lit "compliant") = Some (PBool true)).
Proof.
  intros input_data extraction Hc Hs Ht.
  unfold korean_name_evaluator.evaluate_name, bind at 1. rewrite Hc.
  unfold try_except, bind at 1, invoke_structured.
  fold input_data. fold extraction. rewrite Hs.
  unfold bind, invoke_text, ret. rewrite Ht.
  eexists _, _. split; [reflexivity|].
  split; [reflexivity|]. split; [reflexivity|].
  intro Hn. cbn [dict_find korean_name_evaluator.minimal_result str_eqb lit].
  change (lit "non-compliant") with (lit "non-" ++ lit "compliant") in Hn.
  now rewrite (contains_tail _ _ _ Hn).
Qed.

(** The model answers "Non-compliant: ...": the record is compliant. *)
Lemma fallback_record_reads_compliant_in_text_witness :
  exists d t',
    @korean_name_evaluator.evaluate_name plain_tables
      (answering (lit "Non-compliant: the hyphen is missing."))
      [0xAE40; 0xC9C0; 0xC6D0]%N (lit "KO-EN") false []
    = (Return (Plain (PDict d)), t')
    /\ dict_find d (lit "overall_score") = Some (PInt 0)
    /\ dict_find d (lit "compliant") = Some (PBool true).
Proof.
  destruct (@fallback_record_reads_compliant_in_text plain_tables
              (answering (lit "Non-compliant: the hyphen is missing."))
              [0xAE40; 0xC9C0; 0xC6D0]%N (lit "KO-EN") false [] []
              ([], None) (mk_exn ValueError "no structured output")
              (lit "Non-compliant: the hyphen is missing."))
    as (d & t' & He & Hs & _ & Hc); try reflexivity.
  exists d, t'. split; [exact He|]. split; [exact Hs|]. apply Hc. reflexivity.
Defined.

(* ================================================================= *)
(** ** What the answer of the model cannot change *)

Section Identity.
Context {U : UnicodeTables} {J : JsonLib}.
Import korean_to_english_evaluator.

Lemma append_note_notes (ev : dict) (base extra s : str) :
  dict_find ev (lit "notes") = Some (PStr (base ++ extra)) ->
  dict_find (append_note ev s) (lit "notes") = Some (PStr (base ++ (extra ++ s))).
Proof.
  intro H. unfold append_note. rewrite H. rewrite dict_find_set_same.
  now rewrite app_assoc.
Qed.

Lemma regex_fallback_notes (ev : dict) (text base : str) :
  (exists extra, dict_find ev (lit "notes") = Some (PStr (base ++ extra))) ->
  exists extra, dict_find (regex_fallback ev text) (lit "notes")
                = Some (PStr (base ++ extra)).
Proof.
  apply (regex_fallback_keeps
           (fun ev' => exists extra,
                dict_find ev' (lit "notes") = Some (PStr (base ++ extra)))).
  - intros ev' s (extra & H). exists (extra ++ s). now apply append_note_notes.
  - intros ev' s (extra & H). exists extra. now rewrite dict_find_set_other.
  - intros ev' b (extra & H). exists extra. now rewrite dict_find_set_other.
  - intros ev' g z _ (extra & H). exists extra. now rewrite dict_find_set_other.
Qed.

End Identity.

(** X13.  Whatever the model answers, the record [name_evaluator]
    builds has the name it was asked about, the Teamwork value it was
    given, and notes that begin with "Raw evaluation:" and the answer
    itself: a [name], [notes] or [teamwork_verification] inside the
    answer is never taken over. *)
Theorem answer_cannot_replace_name_or_notes
        (U : UnicodeTables) (J : JsonLib)
        (name : str) (teamwork_results : pyval) (response_text : str) :
  let result :=
    korean_to_english_evaluator.interpret_response name teamwork_results response_text in
  dict_find result (lit "name") = Some (PStr name)
  /\ dict_find result (lit "teamwork_verification") = Some teamwork_results
  /\ exists extra,
       dict_find result (lit "notes")
       = Some (PStr (lit "Raw evaluation:" ++ [10%N] ++ response_text ++ extra)).
Proof.
  intro result.
  destruct (interpret_response_keeps name teamwork_results response_text) as [Hn Ht].
  split; [exact Hn|]. split; [exact Ht|].
  subst result. unfold korean_to_english_evaluator.interpret_response.
  destruct (korean_to_english_evaluator.parse_json _ response_text) as [updated|e] eqn:E.
  - destruct (parse_json_return_inv _ _ E) as (json_text & d & Hf & Hj).
    destruct (parse_json_return
                (korean_to_english_evaluator.default_evaluation
                   name teamwork_results response_text)
                response_text Hf Hj) as (fields & Hp & Hu).
    rewrite Hu in E. injection E as <-. simpl in Hp. injection Hp as <-.
    exists []. rewrite app_nil_r. reflexivity.
  - destruct (@regex_fallback_notes U
                (korean_to_english_evaluator.append_note
                   (korean_to_english_evaluator.default_evaluation
                      name teamwork_results response_text)
                   ([10%N] ++ lit "JSON parsing error: " ++ exn_str e))
                response_text (lit "Raw evaluation:" ++ [10%N] ++ response_text))
      as [extra Hx].
    + exists ([] ++ ([10%N] ++ lit "JSON parsing error: " ++ exn_str e)).
      apply append_note_notes. rewrite app_nil_r. reflexivity.
    + exists extra. rewrite Hx. now rewrite <- !app_assoc.
Qed.

(* ================================================================= *)
(** ** Real person names *)

Section RealPersons.
Context {U : UnicodeTables} {J : JsonLib} {W : Outside}
        {C : real_person_name_verifier.Clock}.
Import real_person_name_verifier.

(** Every name adds one result to one of the two lists. *)
Lemma verify_each_lengths (names : list str) (auto_detect : bool)
      (direction : option str) (check_teamwork : bool) :
  forall (ko_list en_list : list pyval) (t t' : trace) (lists : list pyval * list pyval),
    verify_each names auto_detect direction check_teamwork ko_list en_list t
    = (Return lists, t') ->
    (length (fst lists) + length (snd lists)
     = length ko_list + length en_list + length names)%nat.
Proof.
  induction names as [|name names IH]; intros ko_list en_list t t' lists.
  - simpl. unfold ret. intros [= <- _]. simpl. lia.
  - cbn [verify_each]. unfold bind at 1.
    match goal with
    | |- context [(if auto_detect then ?a else ?b) t] =>
        destruct ((if auto_detect then a else b) t) as [[name_direction|] t1];
          [|discriminate]
    end.
    unfold bind at 1.
    destruct (verify_real_person_name name (Some name_direction) check_teamwork t1)
      as [[result|] t2]; [|discriminate].
    destruct (str_eqb name_direction (lit "KO-EN")); intro H; apply IH in H;
      rewrite H, length_app; simpl; lia.
Qed.

(** The record of [evaluate_english_name]. *)
Lemma evaluate_english_name_shape (name : str) (check_teamwork : bool)
      (t t' : trace) (r : dict) :
  english_to_korean_evaluator.evaluate_english_name name check_teamwork t = (Return r, t') ->
  exists x result tv,
    r = english_to_korean_evaluator.evaluation_result name x result tv.
Proof.
  unfold english_to_korean_evaluator.evaluate_english_name, bind, lift, ret, invoke_text.
  destruct openai_client; [|discriminate].
  destruct (teamwork_block.consult name check_teamwork t) as [[tw|] t1]; [|discriminate].
  destruct (llm_text t1 _); [|discriminate].
  intros [= <- _]. eauto.
Qed.

(** What the EN-KO branch makes of such a record. *)
Lemma real_person_en_ko_result (name : str)
      (x : english_to_korean_evaluator.extraction) (result : str) (tv : option dict) :
  exists d,
    real_person_en_ko (english_to_korean_evaluator.evaluation_result name x result tv)
    = Return d
    /\ dict_find d (lit "name") = Some (PStr name)
    /\ dict_find d (lit "is_real_person") = Some (PBool true)
    /\ dict_find d (lit "real_person_rules")
       = Some (PDict [ (lit "requires_phonetician_review", PBool true);
                       (lit "requires_kyonshik_confirmation", PBool false);
                       (lit "record_hz_notation", PBool true);
                       (lit "apply_strict_transliteration", PBool true) ])
    /\ dict_find d (lit "recommendations")
       = Some (PList
                 (map PStr (english_to_korean_evaluator.recommendations x)
                    ++ [ PStr (lit "For real person names created after 08/11/2020, confirm notation through Kyonshik for NF tasks");
                         PStr (lit "For non-NF projects, confirm through Hazel (phonetician)");
                         PStr (lit "Record 'HZ Original Notation' in the Korean target of the Termbase") ])).
Proof.
  unfold english_to_korean_evaluator.evaluation_result.
  destruct tv as [tv|]; [destruct (truthy (PDict tv))|];
    (eexists; split; [reflexivity|]; repeat split;
     cbn; now rewrite <- !app_assoc).
Qed.

(** The Teamwork check never raises, and a record it returns is not
    empty. *)
Lemma check_teamwork_first_cases (name : str) (check_teamwork : bool) (t : trace) :
  check_teamwork_first name check_teamwork t =
    if check_teamwork && TEAMWORK_AVAILABLE && environ_truthy "TEAMWORK_API_KEY"
    then match teamwork_integration.verify_name_in_teamwork name t with
         | (Return tv, t') => (Return (Some tv), t')
         | (Raise _, t') => (Return None, t')
         end
    else (Return None, t).
Proof.
  unfold check_teamwork_first.
  destruct (check_teamwork && TEAMWORK_AVAILABLE && environ_truthy "TEAMWORK_API_KEY");
    [|reflexivity].
  unfold try_except, bind, ret.
  now destruct (teamwork_integration.verify_name_in_teamwork name t) as [[tv|e] t'].
Qed.

Lemma verify_name_in_teamwork_truthy (name : str) (t : trace) :
  exists tv t', teamwork_integration.verify_name_in_teamwork name t = (Return tv, t')
                /\ truthy (PDict tv) = true.
Proof.
  destruct (verify_name_in_teamwork_shape name t)
    as [(e & t' & ->) | (results & previous & t1 & t2 & t' & -> & _ & _)];
    eexists _, _; split; reflexivity.
Qed.

End RealPersons.

(** X14.  When [batch_verify_real_person_names] returns, every name
    has exactly one result, in the KO-EN list or in the EN-KO list:
    the two counts of the summary add up to its [total_names], which
    is the number of names, and neither compliant count exceeds its
    list. *)
Theorem real_person_batch_counts_add_up
        (U : UnicodeTables) (J : JsonLib) (W : Outside)
        (C : real_person_name_verifier.Clock)
        (names : list str) (auto_detect : bool) (direction : option str)
        (check_teamwork : bool) (output_dir : str) (t t' : trace)
        (r : real_person_name_verifier.batch_results) :
  real_person_name_verifier.batch_verify_real_person_names
    names auto_detect direction check_teamwork output_dir t = (Return r, t') ->
  (length (real_person_name_verifier.ko_en_results r)
   + length (real_person_name_verifier.en_ko_results r) = length names)%nat
  /\ exists ko_compliant en_compliant timestamp,
       real_person_name_verifier.verification_summary r
       = [ (lit "total_names", PInt (Z.of_nat (length names)));
           (lit "ko_en_count",
            PInt (Z.of_nat (length (real_person_name_verifier.ko_en_results r))));
           (lit "en_ko_count",
            PInt (Z.of_nat (length (real_person_name_verifier.en_ko_results r))));
           (lit "ko_en_compliant", PInt (Z.of_nat ko_compliant));
           (lit "en_ko_compliant", PInt (Z.of_nat en_compliant));
           (lit "timestamp", PStr timestamp) ]
       /\ (ko_compliant <= length (real_person_name_verifier.ko_en_results r))%nat
       /\ (en_compliant <= length (real_person_name_verifier.en_ko_results r))%nat.
Proof.
  unfold real_person_name_verifier.batch_verify_real_person_names.
  unfold bind at 1, write at 1.
  destruct (perform t (Makedirs output_dir)); [|discriminate].
  unfold bind at 1.
  destruct (real_person_name_verifier.verify_each
              names auto_detect direction check_teamwork [] [] _)
    as [[lists|] t1] eqn:Ev; [|discriminate].
  apply verify_each_lengths in Ev. simpl in Ev.
  unfold bind at 1.
  match goal with
  | |- context [match ?m t1 with _ => _ end] => destruct (m t1) as [[[]|] t2]; [|discriminate]
  end.
  unfold bind at 1.
  match goal with
  | |- context [match ?m t2 with _ => _ end] => destruct (m t2) as [[[]|] t3]; [|discriminate]
  end.
  unfold bind, lift, write, ret.
  destruct (compliant_count (fst lists)) as [kc|] eqn:Ek; [|discriminate].
  destruct (compliant_count (snd lists)) as [ec|] eqn:Ee; [|discriminate].
  destruct (perform _ _); [|discriminate].
  intros [= <- _]. cbn [real_person_name_verifier.ko_en_results
                         real_person_name_verifier.en_ko_results
                         real_person_name_verifier.verification_summary].
  split; [exact Ev|].
  eexists kc, ec, _. split; [reflexivity|].
  split; [apply (compliant_count_spec _ Ek) | apply (compliant_count_spec _ Ee)].
Qed.

(** An English and a Korean name, sorted by detection. *)
Lemma real_person_batch_counts_add_up_witness :
  exists r,
    fst (@real_person_name_verifier.batch_verify_real_person_names
           plain_tables (@python_json no_floats)
           (answering (lit "Compliance score: 92")) fixed_clock
           [lit "John Smith"; [0xAE40; 0xC9C0; 0xC6D0]%N] true None true
           (lit "reports") [])
    = Return r
    /\ (length (real_person_name_verifier.ko_en_results r)
        + length (real_person_name_verifier.en_ko_results r) = 2)%nat.
Proof.
  destruct (@real_person_name_verifier.batch_verify_real_person_names
              plain_tables (@python_json no_floats)
              (answering (lit "Compliance score: 92")) fixed_clock
              [lit "John Smith"; [0xAE40; 0xC9C0; 0xC6D0]%N] true None true
              (lit "reports") [])
    as [[r|e] t'] eqn:E.
  - exists r. split; [reflexivity|].
    apply (@real_person_batch_counts_add_up _ _ _ _ _ _ _ _ _ _ _ _ E).
  - vm_compute in E. discriminate.
Defined.

(** X15.  For the direction EN-KO, [verify_real_person_name] returns
    the record of [evaluate_english_name] for the name, marked as a
    real person, with the three real-person recommendations after the
    parsed ones; [requires_kyonshik_confirmation] is always false,
    because that record has no [context]. *)
Theorem real_person_en_ko_record
        (U : UnicodeTables) (J : JsonLib) (W : Outside)
        (name : str) (check_teamwork : bool) (t t' : trace) (r : pyval) :
  real_person_name_verifier.verify_real_person_name
    name (Some (lit "EN-KO")) check_teamwork t = (Return r, t') ->
  exists d parsed,
    r = PDict d
    /\ dict_find d (lit "name") = Some (PStr name)
    /\ dict_find d (lit "is_real_person") = Some (PBool true)
    /\ dict_find d (lit "real_person_rules")
       = Some (PDict [ (lit "requires_phonetician_review", PBool true);
                       (lit "requires_kyonshik_confirmation", PBool false);
                       (lit "record_hz_notation", PBool true);
                       (lit "apply_strict_transliteration", PBool true) ])
    /\ dict_find d (lit "recommendations")
       = Some (PList
                 (map PStr parsed
                    ++ [ PStr (lit "For real person names created after 08/11/2020, confirm notation through Kyonshik for NF tasks");
                         PStr (lit "For non-NF projects, confirm through Hazel (phonetician)");
                         PStr (lit "Record 'HZ Original Notation' in the Korean target of the Termbase") ])).
Proof.
  unfold real_person_name_verifier.verify_real_person_name.
  unfold bind at 1, ret at 1. unfold bind at 1.
  destruct (real_person_name_verifier.check_teamwork_first name check_teamwork t)
    as [[teamwork_verification|] t1]; [|discriminate].
  cbn [str_eqb lit]. change (str_eqb (lit "EN-KO") (lit "KO-EN")) with false.
  change (str_eqb (lit "EN-KO") (lit "EN-KO")) with true. cbn iota.
  unfold bind, lift, ret.
  destruct (english_to_korean_evaluator.evaluate_english_name name check_teamwork t1)
    as [[record|] t2] eqn:Ee; [|discriminate].
  destruct (evaluate_english_name_shape _ _ _ Ee) as (x & result & tv & ->).
  destruct (real_person_en_ko_result name x result tv)
    as (d & -> & Hn & Hp & Hr & Hrec).
  destruct teamwork_verification as [found|].
  - destruct (truthy (PDict found)).
    + cbn [teamwork_integration.py_setitem]. intros [= <- _].
      eexists _, (english_to_korean_evaluator.recommendations x).
      split; [reflexivity|].
      rewrite !dict_find_set_other by reflexivity. now repeat split.
    + intros [= <- _]. exists d, (english_to_korean_evaluator.recommendations x).
      now repeat split.
  - intros [= <- _]. exists d, (english_to_korean_evaluator.recommendations x).
    now repeat split.
Qed.

Lemma real_person_en_ko_record_witness :
  exists r,
    fst (@real_person_name_verifier.verify_real_person_name
           plain_tables (@python_json no_floats)
           (answering (lit "Recommendations:" ++ [10%N] ++ lit "- Check NIKL"))
           (lit "John Smith") (Some (lit "EN-KO")) true [])
    = Return (PDict r)
    /\ dict_find r (lit "recommendations")
       = Some (PList
                 [ PStr (lit "- Check NIKL");
                   PStr (lit "For real person names created after 08/11/2020, confirm notation through Kyonshik for NF tasks");
                   PStr (lit "For non-NF projects, confirm through Hazel (phonetician)");
                   PStr (lit "Record 'HZ Original Notation' in the Korean target of the Termbase") ]).
Proof.
  destruct (@real_person_name_verifier.verify_real_person_name
              plain_tables (@python_json no_floats)
              (answering (lit "Recommendations:" ++ [10%N] ++ lit "- Check NIKL"))
              (lit "John Smith") (Some (lit "EN-KO")) true [])
    as [[r|e] t'] eqn:E.
  - destruct (@real_person_en_ko_record _ _ _ _ _ _ _ _ E) as (d & parsed & -> & _).
    exists d. split; [reflexivity|].
    vm_compute in E. injection E as <- _. reflexivity.
  - vm_compute in E. discriminate.
Defined.

(** X16.  For a direction that is neither "KO-EN" nor "EN-KO",
    [verify_real_person_name] evaluates nothing: without the Teamwork
    check it returns [None]; with the check it raises a [TypeError],
    because the verification record is then stored into [None]. *)
Theorem real_person_unknown_direction
        (U : UnicodeTables) (J : JsonLib) (W : Outside)
        (name direction : str) (check_teamwork : bool) (t : trace) :
  str_eqb direction (lit "KO-EN") = false ->
  str_eqb direction (lit "EN-KO") = false ->
  real_person_name_verifier.verify_real_person_name
    name (Some direction) check_teamwork t
  = if check_teamwork && TEAMWORK_AVAILABLE && environ_truthy "TEAMWORK_API_KEY"
    then (Raise (mk_exn TypeError "object does not support item assignment"),
          snd (teamwork_integration.verify_name_in_teamwork name t))
    else (Return PNone, t).
Proof.
  intros Hko Hen.
  unfold real_person_name_verifier.verify_real_person_name.
  unfold bind at 1, ret at 1. unfold bind at 1.
  rewrite check_teamwork_first_cases, Hko, Hen.
  destruct (check_teamwork && TEAMWORK_AVAILABLE && environ_truthy "TEAMWORK_API_KEY");
    [|reflexivity].
  destruct (verify_name_in_teamwork_truthy name t) as (tv & t' & -> & Htv).
  unfold bind, ret. now rewrite Htv.
Qed.

Lemma real_person_unknown_direction_witness :
  @real_person_name_verifier.verify_real_person_name
    plain_tables (@python_json no_floats) (teamwork_status 503)
    (lit "John Smith") (Some (lit "EN-JA")) true []
  = (Raise (mk_exn TypeError "object does not support item assignment"),
     [HttpGet DirectProjectsJson;
      HttpGet (ProjectsJson (lit "https://cultureflipper.teamwork.com") (lit "active"))])
  /\ @real_person_name_verifier.verify_real_person_name
       plain_tables (@python_json no_floats) (teamwork_status 503)
       (lit "John Smith") (Some (lit "EN-JA")) false []
     = (Return PNone, []).
Proof.
  split.
  - apply (@real_person_unknown_direction plain_tables (@python_json no_floats)
             (teamwork_status 503) (lit "John Smith") (lit "EN-JA") true []);
      reflexivity.
  - apply (@real_person_unknown_direction plain_tables (@python_json no_floats)
             (teamwork_status 503) (lit "John Smith") (lit "EN-JA") false []);
      reflexivity.
Defined.

Section RealPersonKoEn.
Context {U : UnicodeTables} {J : JsonLib} {W : Outside}.
Import real_person_name_verifier.

(** What the KO-EN branch makes of a record, when it returns. *)
Lemma real_person_ko_en_result (result d : dict) :
  real_person_ko_en result = Return d ->
  exists needs_expert before,
    py_lt_int (dict_get result (lit "overall_score") (PInt 0)) 95 = Return needs_expert
    /\ dict_get result (lit "recommendations") (PList []) = PList before
    /\ dict_find d (lit "is_real_person") = Some (PBool true)
    /\ dict_find d (lit "real_person_rules")
       = Some (PDict [ (lit "hyphenation_required", PBool true);
                       (lit "capitalization_standard",
                        PStr (lit "First letter capitalized, rest lowercase"));
                       (lit "nikl_compliance_required", PBool true);
                       (lit "requires_expert_validation", PBool needs_expert) ])
    /\ dict_find d (lit "recommendations")
       = Some (PList
                 (before
                    ++ [ PStr (lit "For real person names, hyphenation is mandatory between syllables");
                         PStr (lit "Verify with multiple official sources including NIKL standards") ]
                    ++ (if dict_has result (lit "teamwork_verification")
                           && truthy (dict_get result (lit "teamwork_verification") PNone)
                        then [ PStr (lit "Follow existing verified translations in Teamwork for consistency") ]
                        else []))).
Proof.
  unfold real_person_ko_en. cbv zeta.
  assert (Hhas : forall v w,
             dict_has (dict_set (dict_set result (lit "is_real_person") v)
                                (lit "real_person_rules") w)
                      (lit "teamwork_verification")
             = dict_has result (lit "teamwork_verification")).
  { intros v w. unfold dict_has. now rewrite !dict_find_set_other by reflexivity. }
  rewrite !dict_get_set_other by reflexivity.
  destruct (py_lt_int (dict_get result (lit "overall_score") (PInt 0)) 95)
    as [needs_expert|]; cbn [obind]; [|discriminate].
  rewrite Hhas, !dict_get_set_other by reflexivity.
  destruct (dict_get result (lit "recommendations") (PList []))
    as [| | | | |before|]; cbn [py_append obind]; try discriminate.
  destruct (dict_has result (lit "teamwork_verification")
            && truthy (dict_get result (lit "teamwork_verification") PNone));
    cbn [py_append obind]; intros [= <-]; exists needs_expert, before;
    (split; [reflexivity|]); (split; [reflexivity|]);
    rewrite dict_find_set_other by reflexivity;
    rewrite (dict_find_set_other _ _ _ _ (eq_refl : str_eqb (lit "real_person_rules")
                                                          (lit "is_real_person") = false));
    rewrite dict_find_set_same;
    (split; [reflexivity|]);
    rewrite (dict_find_set_other _ _ _ _ (eq_refl : str_eqb (lit "recommendations")
                                                          (lit "real_person_rules") = false));
    rewrite !dict_find_set_same; (split; [reflexivity|]);
    now rewrite <- !app_assoc.
Qed.

(** The other keys are left as they were. *)
Lemma real_person_ko_en_other (result d : dict) (k : str) :
  real_person_ko_en result = Return d ->
  str_eqb (lit "is_real_person") k = false ->
  str_eqb (lit "real_person_rules") k = false ->
  str_eqb (lit "recommendations") k = false ->
  dict_find d k = dict_find result k.
Proof.
  intros H H1 H2 H3. revert H. unfold real_person_ko_en. cbv zeta.
  destruct (py_lt_int _ 95) as [needs_expert|]; cbn [obind]; [|discriminate].
  destruct (py_append _ _) as [recs1|]; cbn [obind]; [|discriminate].
  destruct (py_append recs1 _) as [recs2|]; cbn [obind]; [|discriminate].
  match goal with
  | |- context [if ?b then _ else _] => destruct b
  end.
  - destruct (py_append recs2 _) as [recs3|]; cbn [obind]; [|discriminate].
    intros [= <-]. now rewrite !dict_find_set_other by assumption.
  - cbn [obind]. intros [= <-]. now rewrite !dict_find_set_other by assumption.
Qed.

(** The record of [evaluate_korean_name]: it is built from an answer
    of the model, and what it carries as [teamwork_verification] is a
    verification record, which is never empty, when the Teamwork check
    is enabled, and [None] otherwise. *)
Lemma evaluate_korean_name_shape (name : str) (check_teamwork : bool)
      (t t' : trace) (r : dict) :
  korean_to_english_evaluator.evaluate_korean_name name check_teamwork t = (Return r, t') ->
  exists teamwork_results response_text,
    r = korean_to_english_evaluator.interpret_response name teamwork_results response_text
    /\ truthy teamwork_results
       = check_teamwork && TEAMWORK_AVAILABLE && environ_truthy "TEAMWORK_API_KEY".
Proof.
  unfold korean_to_english_evaluator.evaluate_korean_name, bind at 1, lift at 1.
  destruct openai_client; [|discriminate].
  unfold bind at 1.
  assert (Htw : forall teamwork_results t1,
             (if check_teamwork && TEAMWORK_AVAILABLE && environ_truthy "TEAMWORK_API_KEY"
              then try_except
                     (tv <- teamwork_integration.verify_name_in_teamwork name ;;
                      ret (PDict tv))
                     (fun _ => ret PNone)
              else ret PNone) t = (Return teamwork_results, t1) ->
             truthy teamwork_results
             = check_teamwork && TEAMWORK_AVAILABLE && environ_truthy "TEAMWORK_API_KEY").
  { intros teamwork_results t1.
    destruct (check_teamwork && TEAMWORK_AVAILABLE && environ_truthy "TEAMWORK_API_KEY").
    - unfold try_except, bind, ret.
      destruct (verify_name_in_teamwork_truthy name t) as (tv & t2 & -> & Htv).
      now intros [= <- _].
    - unfold ret. now intros [= <- _]. }
  match goal with
  | |- context [match ?m t with _ => _ end] =>
      destruct (m t) as [[teamwork_results|] t1]; [|discriminate]
  end.
  specialize (Htw _ _ eq_refl).
  unfold korean_to_english_evaluator.name_evaluator, bind, lift, invoke_text, ret.
  destruct (korean_to_english_evaluator.build_teamwork_context teamwork_results);
    [|discriminate].
  destruct (llm_text t1 _); [|discriminate].
  intros [= <- _]. eauto.
Qed.

End RealPersonKoEn.

(** X17.  For the direction KO-EN, when [verify_real_person_name]
    returns, it returns the record of [evaluate_korean_name] for the
    name, marked as a real person; [requires_expert_validation] says
    whether the record's [overall_score] is below 95.  The
    recommendations are those the record was given for the model's
    answer, followed by the two real-person sentences, and by the
    sentence about Teamwork exactly when the Teamwork check is
    enabled: the record then carries a verification, whether or not
    anything was found in Teamwork. *)
Theorem real_person_ko_en_record
        (U : UnicodeTables) (J : JsonLib) (W : Outside)
        (name : str) (check_teamwork : bool) (t t' : trace) (r : pyval) :
  real_person_name_verifier.verify_real_person_name
    name (Some (lit "KO-EN")) check_teamwork t = (Return r, t') ->
  exists d needs_expert before teamwork_results response_text,
    r = PDict d
    /\ dict_find d (lit "name") = Some (PStr name)
    /\ dict_find d (lit "is_real_person") = Some (PBool true)
    /\ real_person_name_verifier.py_lt_int
         (dict_get d (lit "overall_score") (PInt 0)) 95 = Return needs_expert
    /\ dict_find d (lit "real_person_rules")
       = Some (PDict [ (lit "hyphenation_required", PBool true);
                       (lit "capitalization_standard",
                        PStr (lit "First letter capitalized, rest lowercase"));
                       (lit "nikl_compliance_required", PBool true);
                       (lit "requires_expert_validation", PBool needs_expert) ])
    /\ dict_get (korean_to_english_evaluator.interpret_response
                   name teamwork_results response_text)
                (lit "recommendations") (PList [])
       = PList before
    /\ dict_find d (lit "recommendations")
       = Some (PList
                 (before
                    ++ [ PStr (lit "For real person names, hyphenation is mandatory between syllables");
                         PStr (lit "Verify with multiple official sources including NIKL standards") ]
                    ++ (if check_teamwork && TEAMWORK_AVAILABLE
                           && environ_truthy "TEAMWORK_API_KEY"
                        then [ PStr (lit "Follow existing verified translations in Teamwork for consistency") ]
                        else []))).
Proof.
  unfold real_person_name_verifier.verify_real_person_name.
  unfold bind at 1, ret at 1. unfold bind at 1.
  destruct (real_person_name_verifier.check_teamwork_first name check_teamwork t)
    as [[teamwork_verification|] t1]; [|discriminate].
  change (str_eqb (lit "KO-EN") (lit "KO-EN")) with true. cbn iota.
  unfold bind, lift, ret.
  destruct (korean_to_english_evaluator.evaluate_korean_name name check_teamwork t1)
    as [[record|] t2] eqn:Ee; [|discriminate].
  destruct (evaluate_korean_name_shape _ _ _ Ee) as (tw & response & -> & Htw).
  destruct (real_person_name_verifier.real_person_ko_en _) as [d|] eqn:Ed; [|discriminate].
  destruct (real_person_ko_en_result _ Ed)
    as (needs & before & Hlt & Hbefore & Hp & Hr & Hrec).
  assert (Hcarried : dict_has (korean_to_english_evaluator.interpret_response
                                 name tw response) (lit "teamwork_verification")
                     && truthy (dict_get (korean_to_english_evaluator.interpret_response
                                            name tw response)
                                         (lit "teamwork_verification") PNone)
                     = check_teamwork && TEAMWORK_AVAILABLE
                       && environ_truthy "TEAMWORK_API_KEY").
  { unfold dict_has, dict_get.
    destruct (interpret_response_keeps name tw response) as (_ & ->). exact Htw. }
  rewrite Hcarried in Hrec.
  assert (Hname : dict_find d (lit "name") = Some (PStr name)).
  { rewrite (real_person_ko_en_other _ _ Ed) by reflexivity.
    apply interpret_response_keeps. }
  assert (Hscore : dict_get d (lit "overall_score") (PInt 0)
                   = dict_get (korean_to_english_evaluator.interpret_response
                                 name tw response) (lit "overall_score") (PInt 0)).
  { unfold dict_get. now rewrite (real_person_ko_en_other _ _ Ed) by reflexivity. }
  rewrite <- Hscore in Hlt.
  assert (Hfinal : forall v,
             exists d', PDict (dict_set d (lit "teamwork_verification") v) = PDict d'
                        /\ dict_find d' (lit "name") = Some (PStr name)
                        /\ dict_find d' (lit "is_real_person") = Some (PBool true)
                        /\ dict_get d' (lit "overall_score") (PInt 0)
                           = dict_get d (lit "overall_score") (PInt 0)
                        /\ dict_find d' (lit "real_person_rules")
                           = dict_find d (lit "real_person_rules")
                        /\ dict_find d' (lit "recommendations")
                           = dict_find d (lit "recommendations")).
  { intro v. eexists. split; [reflexivity|]. unfold dict_get.
    rewrite !dict_find_set_other by reflexivity. now repeat split. }
  destruct teamwork_verification as [found|].
  - destruct (truthy (PDict found)).
    + cbn [teamwork_integration.py_setitem]. intros [= <- _].
      destruct (Hfinal (PDict found)) as (d' & Hd & Hn' & Hp' & Hs' & Hr' & Hrec').
      injection Hd as <-.
      eexists _, needs, before, tw, response. split; [reflexivity|].
      rewrite Hs', Hr', Hrec'. now repeat split.
    + intros [= <- _]. exists d, needs, before, tw, response. now repeat split.
  - intros [= <- _]. exists d, needs, before, tw, response. now repeat split.
Qed.

(** Without a Teamwork key the model's recommendation is followed by
    the two real-person sentences; with a key and a reachable Teamwork
    the third sentence is there as well. *)
Lemma real_person_ko_en_record_witness :
  (exists d,
      fst (@real_person_name_verifier.verify_real_person_name
             plain_tables (@python_json no_floats)
             (answering (lit "{" ++ quoted "overall_score" ++ lit ": 97, "
                           ++ quoted "recommendations" ++ lit ": ["
                           ++ quoted "Keep the hyphen" ++ lit "]}"))
             [0xAE40; 0xC9C0; 0xC6D0]%N (Some (lit "KO-EN")) true [])
      = Return (PDict d)
      /\ dict_find d (lit "real_person_rules")
         = Some (PDict [ (lit "hyphenation_required", PBool true);
                         (lit "capitalization_standard",
                          PStr (lit "First letter capitalized, rest lowercase"));
                         (lit "nikl_compliance_required", PBool true);
                         (lit "requires_expert_validation", PBool false) ])
      /\ dict_find d (lit "recommendations")
         = Some (PList [ PStr (lit "Keep the hyphen");
                         PStr (lit "For real person names, hyphenation is mandatory between syllables");
                         PStr (lit "Verify with multiple official sources including NIKL standards") ]))
  /\ (exists d,
         fst (@real_person_name_verifier.verify_real_person_name
                plain_tables (@python_json no_floats) teamwork_with_task
                [0xAE40; 0xC9C0; 0xC6D0]%N (Some (lit "KO-EN")) true [])
         = Return (PDict d)
         /\ dict_find d (lit "recommendations")
            = Some (PList [ PStr (lit "For real person names, hyphenation is mandatory between syllables");
                            PStr (lit "Verify with multiple official sources including NIKL standards");
                            PStr (lit "Follow existing verified translations in Teamwork for consistency") ])).
Proof.
  split.
  - destruct (@real_person_name_verifier.verify_real_person_name
                plain_tables (@python_json no_floats)
                (answering (lit "{" ++ quoted "overall_score" ++ lit ": 97, "
                              ++ quoted "recommendations" ++ lit ": ["
                              ++ quoted "Keep the hyphen" ++ lit "]}"))
                [0xAE40; 0xC9C0; 0xC6D0]%N (Some (lit "KO-EN")) true [])
      as [[r|e] t'] eqn:E.
    + destruct (@real_person_ko_en_record _ _ _ _ _ _ _ _ E)
        as (d & needs & before & tw & response & -> & _).
      exists d. split; [reflexivity|].
      vm_compute in E. injection E as <- _. split; reflexivity.
    + vm_compute in E. discriminate.
  - destruct (@real_person_name_verifier.verify_real_person_name
                plain_tables (@python_json no_floats) teamwork_with_task
                [0xAE40; 0xC9C0; 0xC6D0]%N (Some (lit "KO-EN")) true [])
      as [[r|e] t'] eqn:E.
    + destruct (@real_person_ko_en_record _ _ _ _ _ _ _ _ E)
        as (d & needs & before & tw & response & -> & _ & _ & _ & _ & Hb & Hrec).
      exists d. split; [reflexivity|].
      vm_compute in E. injection E as <- _. reflexivity.
    + vm_compute in E. discriminate.
Defined.

(* ================================================================= *)
(** ** [process_names]: every name is evaluated once *)

Section ProcessNames.
Context {U : UnicodeTables} {J : JsonLib} {W : Outside}.
Import name_eval_system.

Lemma Forall2_same_length {A B : Type} (R : A -> B -> Prop) (l : list A) (l' : list B) :
  Forall2 R l l' -> length l = length l'.
Proof. induction 1; simpl; congruence. Qed.

Lemma evaluate_korean_names_length (names : list str) (check_teamwork : bool)
      (t t' : trace) (results : list pyval) :
  korean_to_english_evaluator.evaluate_korean_names names check_teamwork t
  = (Return results, t') ->
  length results = length names.
Proof.
  unfold korean_to_english_evaluator.evaluate_korean_names, bind, lift, write, ret.
  destruct openai_client; [|discriminate].
  destruct (evaluate_each_flag names check_teamwork [] t) as (called & rest & _ & _ & Ho).
  destruct (korean_to_english_evaluator.evaluate_each names check_teamwork [] t)
    as [[all|] t1]; simpl in Ho; [|discriminate].
  destruct Ho as (_ & entries & -> & Hf).
  destruct (perform t1 _); [|discriminate].
  intros [= <- _]. simpl. symmetry. eapply Forall2_same_length; eassumption.
Qed.

Lemma evaluate_english_names_length (names : list str) (check_teamwork : bool)
      (t t' : trace) (results : list pyval) :
  english_to_korean_evaluator.evaluate_english_names names check_teamwork t
  = (Return results, t') ->
  length results = length names.
Proof.
  unfold english_to_korean_evaluator.evaluate_english_names, bind, write, ret.
  destruct (evaluate_english_each_entries names check_teamwork [] t) as (entries & He & Hf).
  destruct (english_to_korean_evaluator.evaluate_each names check_teamwork [] t)
    as [[all|] t1]; simpl in He; [|discriminate].
  injection He as ->.
  destruct (perform t1 _); [|discriminate].
  intros [= <- _]. symmetry. eapply Forall2_same_length; eassumption.
Qed.

Lemma run_ko_en_length (ns : list str) (output_dir : str) (trace verify post : bool)
      (project_id : option str) (t t' : list event) (results : list pyval) :
  run_ko_en ns output_dir trace verify post project_id t = (Return results, t') ->
  length results = length ns.
Proof.
  unfold run_ko_en. unfold bind at 1.
  destruct (korean_to_english_evaluator.evaluate_korean_names ns verify t)
    as [[ko_results|] t1] eqn:E; [|discriminate].
  apply evaluate_korean_names_length in E.
  unfold bind at 1.
  match goal with
  | |- context [match ?m t1 with _ => _ end] => destruct (m t1) as [[[]|] t2]; [|discriminate]
  end.
  unfold bind at 1.
  match goal with
  | |- context [match ?m t2 with _ => _ end] => destruct (m t2) as [[[]|] t3]; [|discriminate]
  end.
  unfold bind at 1.
  match goal with
  | |- context [match ?m t3 with _ => _ end] => destruct (m t3) as [[[]|] t4]; [|discriminate]
  end.
  unfold bind at 1.
  match goal with
  | |- context [match ?m t4 with _ => _ end] => destruct (m t4) as [[[]|] t5]; [|discriminate]
  end.
  unfold ret. now intros [= <- _].
Qed.

Lemma run_en_ko_length (ns : list str) (output_dir : str) (trace verify post : bool)
      (project_id : option str) (t t' : list event) (results : list pyval) :
  run_en_ko ns output_dir trace verify post project_id t = (Return results, t') ->
  length results = length ns.
Proof.
  unfold run_en_ko. unfold bind at 1.
  destruct (english_to_korean_evaluator.evaluate_english_names ns verify t)
    as [[en_results|] t1] eqn:E; [|discriminate].
  apply evaluate_english_names_length in E.
  unfold bind at 1.
  match goal with
  | |- context [match ?m t1 with _ => _ end] => destruct (m t1) as [[[]|] t2]; [|discriminate]
  end.
  unfold bind at 1.
  match goal with
  | |- context [match ?m t2 with _ => _ end] => destruct (m t2) as [[[]|] t3]; [|discriminate]
  end.
  unfold bind at 1.
  match goal with
  | |- context [match ?m t3 with _ => _ end] => destruct (m t3) as [[[]|] t4]; [|discriminate]
  end.
  unfold ret. now intros [= <- _].
Qed.

Lemma verify_all_length (ns : list str) :
  forall (t t' : list event) (vs : list pyval),
    verify_all ns t = (Return vs, t') -> length vs = length ns.
Proof.
  induction ns as [|name ns IH]; intros t t' vs.
  - simpl. unfold ret. now intros [= <- _].
  - cbn [verify_all]. unfold bind at 1.
    destruct (teamwork_integration.verify_name_in_teamwork name t) as [[v|] t1];
      [|discriminate].
    unfold bind at 1, lift at 1.
    destruct (py_getitem (PDict v) (lit "found_in_teamwork")); [|discriminate].
    unfold bind at 1.
    destruct (verify_all ns t1) as [[vs'|] t2] eqn:E; [|discriminate].
    apply IH in E. unfold ret. intros [= <- _]. simpl. now rewrite E.
Qed.

End ProcessNames.



(* ================================================================= *)
(** ** The record of [evaluate_english_name] *)

Section EnglishRecord.
Context {U : UnicodeTables} {W : Outside}.

(** The Teamwork block never raises; it returns a record exactly when
    the check is enabled. *)
Lemma consult_cases (name : str) (check_teamwork : bool) (t : trace) :
  exists info tv t',
    teamwork_block.consult name check_teamwork t = (Return (info, tv), t')
    /\ if check_teamwork && TEAMWORK_AVAILABLE && environ_truthy "TEAMWORK_API_KEY"
       then exists record, tv = Some record /\ truthy (PDict record) = true
       else tv = None /\ info = [] /\ t' = t.
Proof.
  unfold teamwork_block.consult.
  destruct (check_teamwork && TEAMWORK_AVAILABLE && environ_truthy "TEAMWORK_API_KEY").
  - unfold try_except, bind, ret.
    destruct (verify_name_in_teamwork_truthy name t) as (record & t' & -> & Hr).
    eexists _, _, _. split; [reflexivity|]. now exists record.
  - exists [], None, t. now repeat split.
Qed.

End EnglishRecord.

(** X19.  A record returned by [evaluate_english_name] is about the
    name; its score is the one the line scan finds in the answer kept
    under [full_evaluation], it is not negative, and [compliant] says
    whether it is at least 80.  The record has a
    [teamwork_verification] exactly when the Teamwork check is
    enabled: asked for, importable, and with a key in the
    environment. *)
Theorem english_record_is_derived_from_answer
        (U : UnicodeTables) (W : Outside)
        (name : str) (check_teamwork : bool) (t t' : trace) (r : dict) :
  english_to_korean_evaluator.evaluate_english_name name check_teamwork t = (Return r, t') ->
  dict_find r (lit "name") = Some (PStr name)
  /\ (exists answer score,
         dict_find r (lit "full_evaluation") = Some (PStr answer)
         /\ score = english_to_korean_evaluator.compliance_score
                      (english_to_korean_evaluator.parse_evaluation answer)
         /\ (0 <= score)%Z
         /\ dict_find r (lit "overall_score") = Some (PInt score)
         /\ dict_find r (lit "compliant") = Some (PBool (80 <=? score)%Z))
  /\ dict_has r (lit "teamwork_verification")
     = check_teamwork && TEAMWORK_AVAILABLE && environ_truthy "TEAMWORK_API_KEY".
Proof.
  unfold english_to_korean_evaluator.evaluate_english_name, bind at 1, lift at 1.
  destruct openai_client; [|discriminate].
  unfold bind at 1.
  destruct (consult_cases name check_teamwork t) as (info & tv & t1 & -> & Hcond).
  unfold bind, invoke_text, ret. cbn [fst snd].
  destruct (llm_text t1 _) as [answer|]; [|discriminate].
  intros [= <- _].
  pose proof (scan_lines_state (split_on 10%N answer)
                               english_to_korean_evaluator.initial) as Hstate.
  fold (english_to_korean_evaluator.parse_evaluation answer) in Hstate.
  unfold score_state at 1 in Hstate.
  assert (Hs : english_to_korean_evaluator.compliance_score
                 (english_to_korean_evaluator.parse_evaluation answer)
               = fst (fold_left step_score (split_on 10%N answer)
                                (score_state english_to_korean_evaluator.initial)))
    by now rewrite <- Hstate.
  assert (Hc : english_to_korean_evaluator.compliant
                 (english_to_korean_evaluator.parse_evaluation answer)
               = snd (fold_left step_score (split_on 10%N answer)
                                (score_state english_to_korean_evaluator.initial)))
    by now rewrite <- Hstate.
  split; [reflexivity|]. split.
  - exists answer, (english_to_korean_evaluator.compliance_score
                      (english_to_korean_evaluator.parse_evaluation answer)).
    split; [reflexivity|]. split; [reflexivity|]. split.
    + rewrite Hs. apply fold_step_score_nonneg. simpl. lia.
    + split; [reflexivity|].
      transitivity (Some (PBool (english_to_korean_evaluator.compliant
                                   (english_to_korean_evaluator.parse_evaluation answer))));
        [reflexivity|].
      rewrite Hc, Hs. now rewrite fold_step_score_derived.
  - unfold english_to_korean_evaluator.evaluation_result, dict_has.
    destruct (check_teamwork && TEAMWORK_AVAILABLE && environ_truthy "TEAMWORK_API_KEY").
    + destruct Hcond as (record & -> & Htruthy). now rewrite Htruthy.
    + destruct Hcond as (-> & _). reflexivity.
Qed.

(** An answer with the score 92, the Teamwork check off. *)
Lemma english_record_is_derived_from_answer_witness :
  exists r,
    fst (@english_to_korean_evaluator.evaluate_english_name plain_tables
           (answering (lit "Compliance score: 92")) (lit "John Smith") false [])
    = Return r
    /\ dict_find r (lit "overall_score") = Some (PInt 92)
    /\ dict_find r (lit "compliant") = Some (PBool true)
    /\ dict_has r (lit "teamwork_verification") = false.
Proof.
  destruct (@english_to_korean_evaluator.evaluate_english_name plain_tables
              (answering (lit "Compliance score: 92")) (lit "John Smith") false [])
    as [[r|e] t'] eqn:E.
  - exists r. split; [reflexivity|].
    destruct (@english_record_is_derived_from_answer _ _ _ _ _ _ _ E)
      as (_ & _ & Hkey).
    vm_compute in E. injection E as <- _.
    split; [reflexivity|]. split; [reflexivity | exact Hkey].
  - vm_compute in E. discriminate.
Defined.

(* ================================================================= *)
(** ** Names read from a file *)

Section FileNames.
Context {U : UnicodeTables}.

Lemma stripped_lines_clean (lines : list str) :
  Forall (fun n => n <> [] /\ strip n = n) (filter nonempty (map strip lines)).
Proof.
  induction lines as [|l lines IH]; simpl; [constructor|].
  destruct (strip l) as [|c r] eqn:E; simpl; [exact IH|].
  constructor; [|exact IH]. rewrite <- E.
  split; [rewrite E; discriminate | apply strip_idempotent].
Qed.

Lemma blank_lines_give_no_names (lines : list str) :
  Forall (fun l => strip l = []) lines -> filter nonempty (map strip lines) = [].
Proof.
  induction 1 as [|l lines Hl _ IH]; simpl; [reflexivity|]. now rewrite Hl.
Qed.

End FileNames.

(** X20.  The names both command lines load from a file are the
    stripped non-blank lines: none is empty, stripping one again
    changes nothing, and so their language detection never divides by
    zero.  Loading adds nothing to the trace. *)
Theorem names_from_file_are_clean (U : UnicodeTables) (W : Outside)
        (file_path : str) (t t' : trace) (names : list str) :
  name_eval_system.load_names_from_file file_path t = (Return (inl names), t') ->
  t' = t
  /\ korean_name_cli.load_names_from_file file_path t = (Return (inl names), t)
  /\ Forall (fun n => n <> [] /\ strip n = n) names
  /\ name_eval_system.auto_detect_names names
     = Return (filter detects_korean names,
               filter (fun name => negb (detects_korean name)) names).
Proof.
  unfold name_eval_system.load_names_from_file, korean_name_cli.load_names_from_file.
  destruct (read_lines t file_path) as [lines|]; [|discriminate].
  intros [= <- <-].
  pose proof (stripped_lines_clean lines) as H.
  split; [reflexivity|]. split; [reflexivity|]. split; [exact H|].
  rewrite auto_detect_names_cases.
  replace (forallb nonempty (filter nonempty (map strip lines))) with true;
    [reflexivity|].
  symmetry. apply forallb_forall. intros n Hn.
  rewrite Forall_forall in H. destruct (H n Hn) as [Hne _]. now destruct n.
Qed.

(** A file with two names, padding and a blank line. *)
Lemma names_from_file_are_clean_witness :
  let W := with_file [ lit "  John Smith " ++ [10%N];
                       [10%N];
                       [0xAE40; 0xC9C0; 0xC6D0; 10]%N ]
                     (answering []) in
  @name_eval_system.auto_detect_names
     [lit "John Smith"; [0xAE40; 0xC9C0; 0xC6D0]%N]
  = Return (filter detects_korean [lit "John Smith"; [0xAE40; 0xC9C0; 0xC6D0]%N],
            filter (fun name => negb (detects_korean name))
                   [lit "John Smith"; [0xAE40; 0xC9C0; 0xC6D0]%N]).
Proof.
  intro W.
  destruct (@names_from_file_are_clean plain_tables W (lit "names.txt") [] []
              [lit "John Smith"; [0xAE40; 0xC9C0; 0xC6D0]%N])
    as (_ & _ & _ & H).
  - vm_compute. reflexivity.
  - exact H.
Defined.

(** X21.  [korean_name_cli.py] given a file in which every line is
    blank evaluates no name and ends with the exit status 0, provided
    the client can be built and the reports can be written: there are
    as many compliant records as names, namely none. *)
Theorem cli_file_without_names_exits_0 (U : UnicodeTables) (W : Outside)
        (args : korean_name_cli.arguments) (t : trace)
        (c : char) (path : str) (lines : list str) :
  korean_name_cli.show_resources args = false ->
  korean_name_cli.names args = [] ->
  korean_name_cli.file args = Some (c :: path) ->
  read_lines t (c :: path) = Return lines ->
  Forall (fun l => strip l = []) lines ->
  openai_client = Return tt ->
  (forall t0 ev, perform t0 ev = Return tt) ->
  fst (korean_name_cli.main args t) = Return 0%Z
  /\ forall call, ~ In (Llm call) (skipn (length t) (snd (korean_name_cli.main args t))).
Proof.
  intros Hshow Hnames Hfile Hread Hblank Hclient Hperform.
  assert (Hbatch : forall direction,
             korean_name_evaluator.batch_evaluate_names [] direction true t
             = (Return [], t ++ [WriteJson (lit "reports/name_evaluation_results.json")
                                           (PList [])])).
  { intro direction.
    unfold korean_name_evaluator.batch_evaluate_names, bind, lift, write, ret.
    rewrite Hclient. cbn [korean_name_evaluator.evaluate_each]. unfold ret.
    now rewrite Hperform. }
  assert (Hmain : korean_name_cli.main args t
                  = korean_name_cli.evaluate_and_exit args [] t).
  { unfold korean_name_cli.main. rewrite Hshow, Hnames, Hfile.
    unfold bind, korean_name_cli.load_names_from_file. rewrite Hread.
    now rewrite (blank_lines_give_no_names Hblank). }
  assert (Hrun : korean_name_cli.evaluate_and_exit args [] t
                 = (Return 0%Z,
                    t ++ [WriteJson (lit "reports/name_evaluation_results.json") (PList []);
                          WriteReport (korean_name_cli.output args) []]
                      ++ (if negb (str_eqb (korean_name_cli.json_output args)
                                           korean_name_cli.default_json_output)
                          then [WriteJson (korean_name_cli.json_output args) (PList [])]
                          else []))).
  { unfold korean_name_cli.evaluate_and_exit.
    unfold bind at 1. rewrite Hbatch. cbv beta iota.
    unfold korean_name_evaluator.generate_html_report.
    unfold bind at 1, write at 1. rewrite Hperform. cbv beta iota.
    unfold bind at 1.
    destruct (negb (str_eqb (korean_name_cli.json_output args)
                            korean_name_cli.default_json_output)).
    - unfold write at 1. rewrite Hperform. cbv beta iota.
      unfold bind, lift, ret. cbn [compliant_count omap obind length Nat.eqb].
      now rewrite <- !app_assoc.
    - unfold ret at 1. cbv beta iota.
      unfold bind, lift, ret. cbn [compliant_count omap obind length Nat.eqb].
      now rewrite <- !app_assoc. }
  rewrite Hmain, Hrun. cbn [fst snd]. split; [reflexivity|].
  rewrite skipn_app, skipn_all, Nat.sub_diag. cbn [skipn app].
  intros call [H|[H|H]]; try discriminate.
  destruct (negb _); [destruct H as [H|[]]; discriminate | destruct H].
Qed.

Lemma cli_file_without_names_exits_0_witness :
  let W := with_file [[10%N]; lit "   " ++ [10%N]] (answering []) in
  fst (@korean_name_cli.main plain_tables W
         {| korean_name_cli.names := [];
            korean_name_cli.file := Some (lit "names.txt");
            korean_name_cli.show_resources := false;
            korean_name_cli.direction := lit "KO-EN";
            korean_name_cli.output := lit "reports/name_evaluation_report.html";
            korean_name_cli.json_output := korean_name_cli.default_json_output |} [])
  = Return 0%Z.
Proof.
  intro W.
  apply (@cli_file_without_names_exits_0 plain_tables W
           {| korean_name_cli.names := [];
              korean_name_cli.file := Some (lit "names.txt");
              korean_name_cli.show_resources := false;
              korean_name_cli.direction := lit "KO-EN";
              korean_name_cli.output := lit "reports/name_evaluation_report.html";
              korean_name_cli.json_output := korean_name_cli.default_json_output |}
           [] 110%N (lit "ames.txt") [[10%N]; lit "   " ++ [10%N]]);
    try reflexivity.
  repeat constructor.
Defined.

(* ================================================================= *)
(** ** The code fence around a JSON answer *)


(** X22.  When the answer holds a code fence, opened by three
    backticks with or without the tag "json" and closed by three
    backticks, with no backtick before it or inside it, the text
    handed to [json.loads] is the inside of the fence, stripped;
    whatever follows the closing fence is ignored.  (Without the tag,
    the inside must not itself begin with "json".) *)
Theorem fenced_block_is_extracted (U : UnicodeTables)
        (pre body rest : str) (tagged : bool) :
  ~ In 96%N pre ->
  ~ In 96%N body ->
  (tagged = false -> startswith (lit "json") body = false) ->
  korean_to_english_evaluator.fenced_json_text
    (pre ++ lit "```" ++ (if tagged then lit "json" else []) ++ body ++ lit "```" ++ rest)
  = Return (strip body).
Proof.
  intros Hpre Hbody Htag.
  apply fenced_json_text_fenced; [| | exact Htag]; now apply no_backtick_no_fence.
Qed.

(** An answer with a sentence before the tagged fence and a sentence
    after it. *)
Lemma fenced_block_is_extracted_witness :
  @korean_to_english_evaluator.fenced_json_text plain_tables
    (lit "Here is the evaluation:" ++ [10%N] ++ lit "```json" ++ [10%N]
       ++ lit "{" ++ quoted "overall_score" ++ lit ": 97}" ++ [10%N]
       ++ lit "```" ++ [10%N] ++ lit "Let me know if you need more.")
  = Return (lit "{" ++ quoted "overall_score" ++ lit ": 97}").
Proof.
  apply (@fenced_block_is_extracted plain_tables
           (lit "Here is the evaluation:" ++ [10%N])
           ([10%N] ++ lit "{" ++ quoted "overall_score" ++ lit ": 97}" ++ [10%N])
           ([10%N] ++ lit "Let me know if you need more.") true).
  - vm_compute. intuition discriminate.
  - vm_compute. intuition discriminate.
  - discriminate.
Defined.
